(** * Packages-Manifest: the catalog builder [tools/compiler/buildDatabase.py]

    A shallow embedding of the build script and the properties of its
    specification.

    Modelling conventions.
    - A Python [str] is a list of characters; a character is a code point
      below 256 (Rocq's [ascii]), which covers every literal of the script.
    - A parsed JSON document is a [json] value; numbers are integers and a
      Python [dict] is an association list in insertion order.
    - An exception is a value of [pyexn]; code that may raise returns
      [result], and the script's state (error list, records, seen ids,
      identity files, random source) is threaded explicitly.
    - Files are UTF-8 text: reading fails only with the [OSError] and
      [JSONDecodeError] the script itself handles. The file tests answer,
      a failed writing of an identity file leaves no file, and printing
      and the writing of the three files of [release/] succeed.
    - The file system, the network and the random source are fields of a
      [world]; two version-dependent helpers of the Python library are
      variables of the section [Script]. *)

From Stdlib Require Import ZArith Lia Ascii List Permutation Sorted.
From Stdlib Require String DecimalString.
From stdpp Require Import base option list gmap.

Set Default Proof Using "Type".
Open Scope Z_scope.

(** ** Python strings *)

Abbreviation pystr := (list ascii).

Inductive lascii := lnil | lcons (a : ascii) (l : lascii).

Fixpoint lascii_of_bytes (l : list Byte.byte) : lascii :=
  match l with
  | [] => lnil
  | b :: l => lcons (ascii_of_byte b) (lascii_of_bytes l)
  end.

Fixpoint bytes_of_lascii (s : lascii) : list Byte.byte :=
  match s with
  | lnil => []
  | lcons a l => byte_of_ascii a :: bytes_of_lascii l
  end.

Declare Scope pystr_scope.
Delimit Scope pystr_scope with py.
#[warning="-via-type-mismatch"]
String Notation list lascii_of_bytes bytes_of_lascii
  (via lascii mapping [[nil] => lnil, [cons] => lcons]) : pystr_scope.
Open Scope pystr_scope.

Module Str.

Definition eqb (a b : ascii) : bool := Ascii.eqb a b.

Definition code (c : ascii) : Z := Z.of_nat (nat_of_ascii c).

(** [c in chars] for a character [c]. *)
Definition mem (c : ascii) (chars : pystr) : bool := existsb (eqb c) chars.

(** [s.startswith(p)] *)
Fixpoint startswith (p s : pystr) : bool :=
  match p, s with
  | [], _ => true
  | _ :: _, [] => false
  | a :: p', b :: s' => eqb a b && startswith p' s'
  end.

(** [s.endswith(p)] *)
Definition endswith (p s : pystr) : bool := startswith (rev p) (rev s).

(** The index of the first occurrence of [sub] in [s], counted from [i]. *)
Fixpoint index_from (sub s : pystr) (i : nat) : option nat :=
  if startswith sub s then Some i
  else match s with
       | [] => None
       | _ :: s' => index_from sub s' (S i)
       end.

(** [s.find(sub)]: the index of the first occurrence, or -1. *)
Definition find (sub s : pystr) : Z :=
  match index_from sub s 0 with
  | Some i => Z.of_nat i
  | None => -1
  end.

(** [s.find(sub, start)] for [start >= 0]. *)
Definition find_at (sub s : pystr) (start : nat) : Z :=
  if (length s <? start)%nat then -1
  else match index_from sub (drop start s) start with
       | Some i => Z.of_nat i
       | None => -1
       end.

(** The index of the last occurrence. *)
Fixpoint rindex_from (sub s : pystr) (i : nat) : option nat :=
  match s with
  | [] => if startswith sub [] then Some i else None
  | _ :: s' =>
      match rindex_from sub s' (S i) with
      | Some j => Some j
      | None => if startswith sub s then Some i else None
      end
  end.

(** [s.rfind(sub)] *)
Definition rfind (sub s : pystr) : Z :=
  match rindex_from sub s 0 with
  | Some i => Z.of_nat i
  | None => -1
  end.

(** [sub in s] *)
Definition contains (sub s : pystr) : bool :=
  match index_from sub s 0 with Some _ => true | None => false end.

(** The position a slice index denotes: a negative index counts from the
    end, and every index is clipped to the string. *)
Definition position (i : Z) (s : pystr) : nat :=
  if i <? 0 then (length s - Z.to_nat (- i))%nat else Z.to_nat i.

(** [s[:i]] and [s[i:]] *)
Definition upto (i : Z) (s : pystr) : pystr := take (position i s) s.
Definition from (i : Z) (s : pystr) : pystr := drop (position i s) s.

(** [s.lstrip(chars)] *)
Fixpoint lstrip (chars s : pystr) : pystr :=
  match s with
  | [] => []
  | c :: s' => if mem c chars then lstrip chars s' else s
  end.

(** [str.isspace] on one character: the code points below 256 that
    Python counts as white space. *)
Definition isspace (c : ascii) : bool :=
  let n := code c in
  ((9 <=? n) && (n <=? 13)) || ((28 <=? n) && (n <=? 32))
  || (n =? 133) || (n =? 160).

Fixpoint lstrip_space (s : pystr) : pystr :=
  match s with
  | [] => []
  | c :: s' => if isspace c then lstrip_space s' else s
  end.

(** [s.strip()] *)
Definition strip (s : pystr) : pystr :=
  rev (lstrip_space (rev (lstrip_space s))).

(** The scan of [replace]: [skip] characters of a match are still to be
    passed over. *)
Fixpoint replace_go (old new s : pystr) (skip : nat) : pystr :=
  match s with
  | [] => []
  | c :: s' =>
      match skip with
      | S k => replace_go old new s' k
      | O =>
          if startswith old s
          then new ++ replace_go old new s' (length old - 1)%nat
          else c :: replace_go old new s' O
      end
  end.

(** [s.replace(old, new)] *)
Definition replace (old new s : pystr) : pystr :=
  match old with
  | [] => new ++ flat_map (fun c => c :: new) s
  | _ :: _ => replace_go old new s O
  end.

(** The scan of [split]; the result always has a first field. *)
Fixpoint split_go (sep s : pystr) (skip : nat) : list pystr :=
  match s with
  | [] => [[]]
  | c :: s' =>
      match skip with
      | S k => split_go sep s' k
      | O =>
          if startswith sep s
          then [] :: split_go sep s' (length sep - 1)%nat
          else match split_go sep s' O with
               | h :: t => (c :: h) :: t
               | [] => [[c]]
               end
      end
  end.

(** [s.split(sep)] for a non-empty separator. *)
Definition split (sep s : pystr) : list pystr := split_go sep s O.

(** [sep.join(parts)] *)
Fixpoint join (sep : pystr) (parts : list pystr) : pystr :=
  match parts with
  | [] => []
  | [p] => p
  | p :: rest => p ++ sep ++ join sep rest
  end.

(** [s.split(c, 1)] when [c in s]: the text before and after the first
    occurrence of the one-character separator. *)
Fixpoint split_once (c : ascii) (s : pystr) : pystr * pystr :=
  match s with
  | [] => ([], [])
  | d :: s' =>
      if eqb c d then ([], s')
      else let '(a, b) := split_once c s' in (d :: a, b)
  end.

Definition is_upper (c : ascii) : bool := (65 <=? code c) && (code c <=? 90).
Definition is_lower (c : ascii) : bool := (97 <=? code c) && (code c <=? 122).
Definition is_digit (c : ascii) : bool := (48 <=? code c) && (code c <=? 57).
(** [c.isascii() and c.isalpha()] *)
Definition is_ascii_alpha (c : ascii) : bool := is_upper c || is_lower c.

Definition lower_char (c : ascii) : ascii :=
  if is_upper c then ascii_of_nat (nat_of_ascii c + 32) else c.

(** [s.lower()], on the ASCII letters. *)
Definition lower (s : pystr) : pystr := map lower_char s.

(** [a == b] *)
Fixpoint eq_str (a b : pystr) : bool :=
  match a, b with
  | [], [] => true
  | x :: a', y :: b' => eqb x y && eq_str a' b'
  | _, _ => false
  end.

(** [bool(s)] *)
Definition nonempty (s : pystr) : bool :=
  match s with [] => false | _ :: _ => true end.

End Str.

(** ** Exceptions and results *)

Inductive pyexn :=
| ValueError (msg : pystr)
| AttributeError (msg : pystr)
| TypeError (msg : pystr).

Inductive result (A : Type) :=
| Ok (a : A)
| Raise (e : pyexn).
Arguments Ok {A} a.
Arguments Raise {A} e.

#[global] Instance result_ret : MRet result := fun A a => Ok a.
#[global] Instance result_bind : MBind result := fun A B k r =>
  match r with
  | Ok a => k a
  | Raise e => Raise e
  end.

(** ** The URL functions of [urllib.parse] (CPython 3.11) *)

Record ParseResult := {
  scheme : pystr;
  netloc : pystr;
  path : pystr;
  params : pystr;
  query : pystr;
  fragment : pystr;
}.

Definition uses_netloc : list pystr :=
  [""; "ftp"; "http"; "gopher"; "nntp"; "telnet"; "imap"; "wais"; "file";
   "mms"; "https"; "shttp"; "snews"; "prospero"; "rtsp"; "rtspu"; "rsync";
   "svn"; "svn+ssh"; "sftp"; "nfs"; "git"; "git+ssh"; "ws"; "wss"].

Definition uses_params : list pystr :=
  [""; "ftp"; "hdl"; "prospero"; "http"; "imap"; "https"; "shttp"; "rtsp";
   "rtspu"; "sip"; "sips"; "mms"; "sftp"; "tel"].

Definition scheme_chars : pystr :=
  "abcdefghijklmnopqrstuvwxyzABCDEFGHIJKLMNOPQRSTUVWXYZ0123456789+-.".

(** The code points 0 to 32. *)
Definition _WHATWG_C0_CONTROL_OR_SPACE : pystr :=
  map ascii_of_nat (seq 0 33).

Definition _UNSAFE_URL_BYTES_TO_REMOVE : list pystr :=
  [["009"%char]; ["013"%char]; ["010"%char]].

Definition in_list (s : pystr) (l : list pystr) : bool :=
  existsb (Str.eq_str s) l.

Definition _splitnetloc (url : pystr) (start : nat) : pystr * pystr :=
  let delim :=
    fold_left
      (fun delim c =>
         let wdelim := Str.find_at [c] url start in
         if 0 <=? wdelim then Z.min delim wdelim else delim)
      "/?#" (Z.of_nat (length url)) in
  (drop start (Str.upto delim url), Str.from delim url).

Definition _splitparams (url : pystr) : pystr * pystr :=
  if Str.contains "/" url then
    let i := Str.find_at ";" url (Z.to_nat (Str.rfind "/" url)) in
    if i <? 0 then (url, "") else (Str.upto i url, Str.from (i + 1) url)
  else
    let i := Str.find ";" url in
    (Str.upto i url, Str.from (i + 1) url).

(** The NFKC form of one character below 256, as code points (Unicode
    14, the data of CPython 3.11): the character itself, but for the
    fourteen compatibility characters of Latin-1. *)
Definition nfkc_char (c : ascii) : list Z :=
  let n := Str.code c in
  if n =? 160 then [32]
  else if n =? 168 then [32; 776]
  else if n =? 170 then [97]
  else if n =? 175 then [32; 772]
  else if n =? 178 then [50]
  else if n =? 179 then [51]
  else if n =? 180 then [32; 769]
  else if n =? 181 then [956]
  else if n =? 184 then [32; 807]
  else if n =? 185 then [49]
  else if n =? 186 then [111]
  else if n =? 188 then [49; 8260; 52]
  else if n =? 189 then [49; 8260; 50]
  else if n =? 190 then [51; 8260; 52]
  else [n].

(** [unicodedata.normalize("NFKC", s)] for a text of code points below
    256: such a text holds no combining mark, and a mark that a
    decomposition brings follows a space, with which it does not
    compose; so the form is taken character by character. *)
Definition nfkc (s : pystr) : list Z := flat_map nfkc_char s.

(** [_checknetloc(netloc)], the last step of [urlsplit]. *)
Definition _checknetloc (netloc : pystr) : result unit :=
  if negb (Str.nonempty netloc) || forallb (fun c => Str.code c <? 128) netloc
  then Ok tt
  else
    let n :=
      Str.replace "?" ""
        (Str.replace "#" "" (Str.replace ":" "" (Str.replace "@" "" netloc))) in
    let netloc2 := nfkc n in
    if bool_decide (map Str.code n = netloc2) then Ok tt
    else if existsb (fun c => existsb (Z.eqb (Str.code c)) netloc2) "/?#@:"
    then Raise (ValueError ("netloc '" ++ netloc ++ "' contains invalid "
                              ++ "characters under NFKC normalization"))
    else Ok tt.

Definition urlunsplit (scheme netloc url query fragment : pystr) : pystr :=
  let url :=
    if Str.nonempty netloc
       || (Str.nonempty scheme && in_list scheme uses_netloc
           && negb (Str.eq_str (take 2 url) "//"))
    then
      let url :=
        if Str.nonempty url && negb (Str.eq_str (take 1 url) "/")
        then "/" ++ url else url in
      "//" ++ netloc ++ url
    else url in
  let url := if Str.nonempty scheme then scheme ++ ":" ++ url else url in
  let url := if Str.nonempty query then url ++ "?" ++ query else url in
  if Str.nonempty fragment then url ++ "#" ++ fragment else url.

Definition urlunparse (r : ParseResult) : pystr :=
  let url :=
    if Str.nonempty (params r) then path r ++ ";" ++ params r else path r in
  urlunsplit (scheme r) (netloc r) url (query r) (fragment r).

(** [ParseResult.geturl] *)
Definition geturl (r : ParseResult) : pystr := urlunparse r.

(** ** JSON values *)

#[warning="-register-all"]
Inductive json :=
| JNull
| JBool (b : bool)
| JNum (n : Z)
| JStr (s : pystr)
| JArr (l : list json)
| JObj (d : list (pystr * json)).

Abbreviation dict := (list (pystr * json)).

(** [d.get(k)]: the value of the key, [None] when it is missing. *)
Fixpoint dict_get (k : pystr) (d : dict) : json :=
  match d with
  | [] => JNull
  | (k', v) :: d' => if Str.eq_str k k' then v else dict_get k d'
  end.

(** [k in d] *)
Fixpoint dict_has (k : pystr) (d : dict) : bool :=
  match d with
  | [] => false
  | (k', _) :: d' => Str.eq_str k k' || dict_has k d'
  end.

(** [d[k] = v]: an existing key keeps its place, a new key goes last. *)
Fixpoint dict_set (k : pystr) (v : json) (d : dict) : dict :=
  match d with
  | [] => [(k, v)]
  | (k', v') :: d' =>
      if Str.eq_str k k' then (k, v) :: d' else (k', v') :: dict_set k v d'
  end.

(** [d.pop(k, None)]; the keys of a [dict] are distinct. *)
Definition dict_pop (k : pystr) (d : dict) : dict :=
  List.filter (fun kv => negb (Str.eq_str k kv.1)) d.

(** [str(n)] for an integer. *)
Definition str_of_Z (n : Z) : pystr :=
  String.list_ascii_of_string (DecimalString.NilZero.string_of_int (Z.to_int n)).

Definition hex_digit (n : Z) : ascii :=
  nth (Z.to_nat n) "0123456789abcdef" "0"%char.

Definition quote : ascii := "034"%char.
Definition backslash : ascii := "092"%char.

(** The replacement of one character inside a JSON string literal
    ([ESCAPE_DCT] of [json.encoder], with [ensure_ascii=False]). *)
Definition json_escape (c : ascii) : pystr :=
  let n := Str.code c in
  if n =? 92 then [backslash; backslash]
  else if n =? 34 then [backslash; quote]
  else if n =? 8 then backslash :: "b"
  else if n =? 12 then backslash :: "f"
  else if n =? 10 then backslash :: "n"
  else if n =? 13 then backslash :: "r"
  else if n =? 9 then backslash :: "t"
  else if n <? 32 then backslash :: "u00" ++ [hex_digit (n / 16); hex_digit (n mod 16)]
  else [c].

Definition json_string (s : pystr) : pystr :=
  [quote] ++ flat_map json_escape s ++ [quote].

(** [json.dumps(value, ensure_ascii=False)] *)
Fixpoint json_dumps (j : json) : pystr :=
  match j with
  | JNull => "null"
  | JBool true => "true"
  | JBool false => "false"
  | JNum n => str_of_Z n
  | JStr s => json_string s
  | JArr l =>
      "[" ++ Str.join ", " (map json_dumps l) ++ "]"
  | JObj d =>
      "{" ++ Str.join ", "
               ((fix items (d : dict) : list pystr :=
                   match d with
                   | [] => []
                   | (k, v) :: d' =>
                       (json_string k ++ ": " ++ json_dumps v) :: items d'
                   end) d)
          ++ "}"
  end.

(** [_format_value]: every value of the script is serializable, so the
    [TypeError] fallback to [repr] is never taken. *)
Definition _format_value (value : json) : pystr := json_dumps value.

Definition is_str (j : json) : bool :=
  match j with JStr _ => true | _ => false end.

(** [not isinstance(v, str) or not v.strip()] *)
Definition blank_or_not_str (v : json) : bool :=
  match v with
  | JStr s => negb (Str.nonempty (Str.strip s))
  | _ => true
  end.

(** ** Paths *)

(** A path below the packages root, as its components. *)
Abbreviation rel_path := (list pystr).

(** [str(path)] for a relative path; the empty path is ["."]. *)
Definition as_posix (p : rel_path) : pystr :=
  match p with
  | [] => "."
  | _ :: _ => Str.join "/" p
  end.

(** The text of an absolute path. *)
Definition abs_text (p : list pystr) : pystr := "/" ++ Str.join "/" p.

(** The comparison of two Python sequences: by the first place where
    they differ, a proper prefix coming first. *)
Fixpoint list_compare {A} (cmp : A -> A -> comparison) (a b : list A)
  : comparison :=
  match a, b with
  | [], [] => Eq
  | [], _ :: _ => Lt
  | _ :: _, [] => Gt
  | x :: a', y :: b' =>
      match cmp x y with
      | Eq => list_compare cmp a' b'
      | c => c
      end
  end.

Definition char_compare (x y : ascii) : comparison :=
  Nat.compare (nat_of_ascii x) (nat_of_ascii y).

(** The order of [str]: by code points. *)
Definition str_compare : pystr -> pystr -> comparison :=
  list_compare char_compare.

(** The order of [pathlib] paths on a POSIX system: the component
    sequences are compared as Python compares lists of strings. *)
Definition path_compare : rel_path -> rel_path -> comparison :=
  list_compare str_compare.

(** [a < b] on paths. *)
Definition path_lt (a b : rel_path) : bool :=
  match path_compare a b with Lt => true | _ => false end.

Fixpoint insert_sorted (x : rel_path) (l : list rel_path) : list rel_path :=
  match l with
  | [] => [x]
  | y :: l' => if path_lt y x then y :: insert_sorted x l' else x :: y :: l'
  end.

(** [sorted(paths)]: a stable sort that compares with [<] only. *)
Definition sorted (l : list rel_path) : list rel_path :=
  foldr insert_sorted [] l.

(** ** The world of a run *)

Inductive read_result :=
| ReadOk (j : json)
| ReadJSONDecodeError (text : pystr) (lineno colno : Z)
| ReadOSError (text : pystr).

Inductive id_file :=
| IdText (content : pystr)
| IdUnreadable (text : pystr).

Inductive http_reply :=
| HttpResponse (status : Z)
| HttpError (code : Z)
| HttpFailure.

Record world := {
  (** absolute path of the repository root, as components *)
  repo_root : list pystr;
  (** what [packages_root.rglob("manifest.json")] yields, in the order
      of the operating system *)
  discovered : list rel_path;
  config_file : read_result;
  manifest_file : rel_path -> read_result;
  (** the [autogen_id] files present at the start, by package directory *)
  id_files_before : gmap rel_path id_file;
  (** the [OSError] text when [autogen_id] cannot be written there *)
  id_write_error : rel_path -> option pystr;
  (** [(manifest_dir / name).is_file()] *)
  is_file : rel_path -> pystr -> bool;
  head_request : pystr -> http_reply;
  get_request : pystr -> http_reply;
  (** the k-th result of [os.urandom(16)], as a big-endian integer *)
  urandom : nat -> Z;
  (** the local time of the run, formatted *)
  timestamp : pystr;
}.

Record scan_state := {
  errors : list pystr;
  manifests : list json;
  seen_ids : gset pystr;
  id_files : gmap rel_path id_file;
  urandom_calls : nat;
}.

Inductive output_file :=
| DatabaseJson (payload : json)
| DatabaseGzip (payload : json)
| VersionTxt (text : pystr).

Inductive exit_status :=
| ExitSuccess
| SysExit (code : Z)
| Traceback (e : pyexn).

Record outcome := {
  printed : list pystr;
  status : exit_status;
  written : list output_file;
  id_files_after : gmap rel_path id_file;
}.

Section Script.

(** [urlsplit]'s check of a network location that holds both an opening
    and a closing bracket ([_check_bracketed_netloc], which validates an
    IP literal and exists from CPython 3.11.4 on): the message of the
    [ValueError] it raises, if any. *)
Variable bracketed_netloc_error : pystr -> option pystr.

(** [urlsplit(url)] *)
Definition urlsplit (url : pystr) : result ParseResult :=
  let url := Str.lstrip _WHATWG_C0_CONTROL_OR_SPACE url in
  let url :=
    fold_left (fun u b => Str.replace b "" u) _UNSAFE_URL_BYTES_TO_REMOVE url in
  let i := Str.find ":" url in
  let '(scheme, url) :=
    if (0 <? i)
       && match url with c :: _ => Str.is_ascii_alpha c | [] => false end
       && forallb (fun c => Str.mem c scheme_chars) (Str.upto i url)
    then (Str.lower (Str.upto i url), Str.from (i + 1) url)
    else ("", url) in
  '(netloc, url) ←
    (if Str.eq_str (take 2 url) "//" then
       let '(netloc, url) := _splitnetloc url 2 in
       let lb := Str.contains "[" netloc in
       let rb := Str.contains "]" netloc in
       if (lb && negb rb) || (rb && negb lb)
       then Raise (ValueError "Invalid IPv6 URL")
       else if lb && rb then
         match bracketed_netloc_error netloc with
         | Some msg => Raise (ValueError msg)
         | None => Ok (netloc, url)
         end
       else Ok (netloc, url)
     else Ok ("", url));
  let '(url, fragment) :=
    if Str.contains "#" url then Str.split_once "#" url else (url, "") in
  let '(url, query) :=
    if Str.contains "?" url then Str.split_once "?" url else (url, "") in
  _ ← _checknetloc netloc;
  Ok {| scheme := scheme; netloc := netloc; path := url; params := "";
        query := query; fragment := fragment |}.

(** [urlparse(url)] *)
Definition urlparse (url : pystr) : result ParseResult :=
  r ← urlsplit url;
  if in_list (scheme r) uses_params && Str.contains ";" (path r) then
    let '(url, params) := _splitparams (path r) in
    Ok {| scheme := scheme r; netloc := netloc r; path := url;
          params := params; query := query r; fragment := fragment r |}
  else Ok r.

(** ** The script: URL normalization *)

Definition DEFAULT_REPOSITORY_BRANCH : pystr := "main".

Definition _normalize_repository_url (value : pystr) : pystr :=
  let url := Str.strip value in
  if negb (Str.nonempty url) then url
  else if negb (Str.contains "://" url) then "https://" ++ url
  else url.

Definition _strip_query_and_fragment (url : pystr) : result pystr :=
  parsed ← urlparse url;
  Ok (geturl {| scheme := scheme parsed; netloc := netloc parsed;
                path := path parsed; params := params parsed;
                query := ""; fragment := "" |}).

Definition _strip_file_name (url : pystr) : result pystr :=
  parsed ← urlparse url;
  let path := path parsed in
  if Str.endswith "/" path then Ok url
  else
    let trimmed := Str.join "/" (removelast (Str.split "/" path)) ++ "/" in
    Ok (geturl {| scheme := scheme parsed; netloc := netloc parsed;
                  path := trimmed; params := params parsed;
                  query := query parsed; fragment := fragment parsed |}).

Definition _ensure_trailing_slash (url : pystr) : pystr :=
  if Str.endswith "/" url then url else url ++ "/".

(** Lines 83 to 90: the repository path and the branch of a path that may
    hold a [/tree/] part. *)
Definition split_tree (repo_path : pystr) : pystr * pystr :=
  let branch := DEFAULT_REPOSITORY_BRANCH in
  if Str.contains "/tree/" repo_path then
    let parts := Str.split "/tree/" repo_path in
    let repo_path := hd [] parts in
    if (1 <? length parts)%nat then
      let branch_part := nth 1 parts [] in
      let slash_index := Str.find "/" branch_part in
      (repo_path,
       if 0 <=? slash_index then Str.upto slash_index branch_part
       else branch_part)
    else (repo_path, branch)
  else (repo_path, branch).

(** Lines 92 to 95. *)
Definition trim_repo_path (repo_path : pystr) : pystr :=
  let repo_path :=
    if Str.endswith "/" repo_path then Str.upto (-1) repo_path else repo_path in
  if Str.endswith ".git" repo_path then Str.upto (-4) repo_path else repo_path.

(** Lines 77 to 97: the body of the [github.com/] branch of
    [_build_raw_base]. *)
Definition _github_raw_base (clean : pystr) : pystr :=
  let repo_path := Str.replace "http://" "" (Str.replace "https://" "" clean) in
  let host_index := Str.find "github.com/" repo_path in
  let repo_path :=
    if 0 <=? host_index
    then Str.from (host_index + Z.of_nat (length "github.com/")) repo_path
    else repo_path in
  let repo_path := Str.lstrip "/" repo_path in
  let '(repo_path, branch) := split_tree repo_path in
  let repo_path := trim_repo_path repo_path in
  "https://raw.githubusercontent.com/" ++ repo_path ++ "/refs/heads/"
    ++ branch ++ "/".

Definition _build_raw_base (repository_url : pystr) : result pystr :=
  clean ← _strip_query_and_fragment (_normalize_repository_url repository_url);
  if Str.contains "raw.githubusercontent.com" clean then
    u ← _strip_file_name clean; Ok (_ensure_trailing_slash u)
  else if Str.contains "github.com/" clean then
    Ok (_github_raw_base clean)
  else
    u ← _strip_file_name clean; Ok (_ensure_trailing_slash u).

(** ** The script: reachability *)

(** [_check_url_exists(url)]. [urlopen] returns a response only for a
    status below 400 and raises [HTTPError] otherwise. Building the
    [Request] raises only on a URL without a scheme mark; the script
    calls the function on a URL whose scheme is http or https. *)
Definition _check_url_exists (w : world) (url : pystr) : bool :=
  match head_request w url with
  | HttpResponse status => status <? 400
  | HttpError code =>
      if (code =? 405) || (code =? 501) then
        match get_request w url with
        | HttpResponse status => status <? 400
        | _ => false
        end
      else false
  | HttpFailure => false
  end.

(** ** The script: configuration *)

Inductive config_result :=
| ConfigOk (config : json)
| ConfigRuntimeError (text : pystr)
| ConfigRaise (e : pyexn).

Definition no_attribute_get : pyexn :=
  AttributeError "object has no attribute 'get'".

(** [value.get(key)] on a value that [json.load] returned. *)
Definition py_get (value : json) (key : pystr) : result json :=
  match value with
  | JObj d => Ok (dict_get key d)
  | _ => Raise no_attribute_get
  end.

(** [value.get(key, default)] *)
Definition py_get_default (value : json) (key : pystr) (default : json)
  : result json :=
  match value with
  | JObj d => Ok (if dict_has key d then dict_get key d else default)
  | _ => Raise no_attribute_get
  end.

Definition _get_config (file : read_result) : config_result :=
  match file with
  | ReadOSError text | ReadJSONDecodeError text _ _ =>
      ConfigRuntimeError ("Failed to read config.json: " ++ text)
  | ReadOk config =>
      match py_get config "url" with
      | Raise e => ConfigRaise e
      | Ok repo_url =>
          if blank_or_not_str repo_url
          then ConfigRuntimeError "config.json missing valid 'url' value."
          else ConfigOk config
      end
  end.

(** ** The script: identity (lines 160 to 186) *)

(** [str(uuid.uuid4())] from the sixteen random bytes [r]. *)
Definition uuid4_int (r : Z) : Z :=
  let n := r mod 2 ^ 128 in
  let n := Z.land n (Z.lnot (Z.shiftl 49152 48)) in
  let n := Z.lor n (Z.shiftl 32768 48) in
  let n := Z.land n (Z.lnot (Z.shiftl 61440 64)) in
  Z.lor n (Z.shiftl 4 76).

Definition hex32 (n : Z) : pystr :=
  map (fun i => hex_digit ((n / 16 ^ Z.of_nat (31 - i)) mod 16)) (seq 0 32).

Definition uuid_str (n : Z) : pystr :=
  let hex := hex32 n in
  take 8 hex ++ "-" ++ take 4 (drop 8 hex) ++ "-" ++ take 4 (drop 12 hex)
    ++ "-" ++ take 4 (drop 16 hex) ++ "-" ++ drop 20 hex.

Definition uuid4 (r : Z) : pystr := uuid_str (uuid4_int r).

Definition add_error (st : scan_state) (msg : pystr) : scan_state :=
  {| errors := errors st ++ [msg]; manifests := manifests st;
     seen_ids := seen_ids st; id_files := id_files st;
     urandom_calls := urandom_calls st |}.

(** Lines 160 to 176: the identity of the package in [manifest_dir] is
    read from its [autogen_id] file, or drawn and written when the file
    does not exist. *)
Definition resolve_identity (w : world) (package_label : pystr)
    (manifest_dir : rel_path) (st : scan_state)
  : option pystr * scan_state :=
  match id_files st !! manifest_dir with
  | Some (IdText content) => (Some (Str.strip content), st)
  | Some (IdUnreadable text) =>
      (None,
       add_error st ("ERROR: Failed to read autogen_id (" ++ text ++ ") in "
                       ++ package_label ++ "."))
  | None =>
      let package_id := uuid4 (urandom w (urandom_calls st)) in
      let st :=
        {| errors := errors st; manifests := manifests st;
           seen_ids := seen_ids st; id_files := id_files st;
           urandom_calls := S (urandom_calls st) |} in
      match id_write_error w manifest_dir with
      | None =>
          (Some package_id,
           {| errors := errors st; manifests := manifests st;
              seen_ids := seen_ids st;
              id_files :=
                <[manifest_dir := IdText (package_id ++ ["010"%char])]>
                  (id_files st);
              urandom_calls := urandom_calls st |})
      | Some text =>
          (Some package_id,
           add_error st ("ERROR: Failed to write autogen_id (" ++ text
                           ++ ") in " ++ package_label ++ "."))
      end
  end.

(** [not package_id] *)
Definition no_id (package_id : option pystr) : bool :=
  match package_id with
  | Some s => negb (Str.nonempty s)
  | None => true
  end.

Definition id_json (package_id : option pystr) : json :=
  match package_id with
  | Some s => JStr s
  | None => JNull
  end.

(** Lines 178 to 186: the empty and the duplicate identity. *)
Definition register_identity (package_label : pystr)
    (package_id : option pystr) (st : scan_state) : scan_state :=
  match package_id with
  | Some s =>
      if Str.nonempty s then
        let st :=
          if bool_decide (s ∈ seen_ids st)
          then add_error st ("ERROR: Duplicate id (" ++ _format_value (JStr s)
                               ++ ") in " ++ package_label ++ ".")
          else st in
        {| errors := errors st; manifests := manifests st;
           seen_ids := {[ s ]} ∪ seen_ids st; id_files := id_files st;
           urandom_calls := urandom_calls st |}
      else add_error st ("ERROR: Missing or empty autogen_id in "
                           ++ package_label ++ ".")
  | None =>
      add_error st ("ERROR: Missing or empty autogen_id in "
                      ++ package_label ++ ".")
  end.

(** ** The script: field checks (lines 188 to 319) *)

Definition in_label (package_label : pystr) : pystr :=
  ") in " ++ package_label ++ ".".

(** Lines 188 to 200. *)
Definition check_thumbnail (w : world) (package_label : pystr)
    (manifest_dir : rel_path) (thumbnail : json) (st : scan_state)
  : scan_state :=
  match thumbnail with
  | JStr name =>
      if negb (Str.nonempty (Str.strip name)) then
        add_error st ("ERROR: Missing or invalid thumbnail ("
                        ++ _format_value thumbnail ++ in_label package_label)
      else if negb (is_file w manifest_dir name) then
        add_error st ("ERROR: Thumbnail not found ("
                        ++ _format_value thumbnail ++ in_label package_label)
      else st
  | _ =>
      add_error st ("ERROR: Missing or invalid thumbnail ("
                      ++ _format_value thumbnail ++ in_label package_label)
  end.

(** Lines 214 to 226: one entry of [images]. *)
Definition check_image (w : world) (package_label : pystr)
    (manifest_dir : rel_path) (st : scan_state) (image : json) : scan_state :=
  match image with
  | JStr name =>
      if negb (Str.nonempty (Str.strip name)) then
        add_error st ("ERROR: Invalid image entry ("
                        ++ _format_value image ++ in_label package_label)
      else if negb (is_file w manifest_dir name) then
        add_error st ("ERROR: Image not found ("
                        ++ _format_value image ++ in_label package_label)
      else st
  | _ =>
      add_error st ("ERROR: Invalid image entry ("
                      ++ _format_value image ++ in_label package_label)
  end.

(** Lines 202 to 226. *)
Definition check_images (w : world) (package_label : pystr)
    (manifest_dir : rel_path) (images : json) (st : scan_state)
  : scan_state :=
  match images with
  | JArr ((_ :: _) as l) =>
      let st :=
        if (8 <? length l)%nat then
          add_error st ("ERROR: Too many images (len="
                          ++ str_of_Z (Z.of_nat (length l)) ++ ", limit=8"
                          ++ in_label package_label)
        else st in
      fold_left (check_image w package_label manifest_dir) l st
  | _ =>
      add_error st ("ERROR: Missing or invalid images list ("
                      ++ _format_value images ++ in_label package_label)
  end.

(** Lines 228 to 251. [urlparse] runs outside any [try]. *)
Definition check_repository_url (w : world) (package_label : pystr)
    (repository_url : json) (st : scan_state) : result scan_state :=
  match repository_url with
  | JStr url =>
      if negb (Str.nonempty (Str.strip url)) then
        Ok (add_error st ("ERROR: Missing or invalid repositoryURL ("
                            ++ _format_value repository_url
                            ++ in_label package_label))
      else
        parsed ← urlparse url;
        if negb (in_list (scheme parsed) ["http"; "https"]) then
          Ok (add_error st ("ERROR: repositoryURL must be http/https ("
                              ++ _format_value repository_url
                              ++ in_label package_label))
        else if negb (Str.endswith "github.com" (netloc parsed)) then
          Ok (add_error st ("ERROR: repositoryURL must point to github.com ("
                              ++ _format_value repository_url
                              ++ in_label package_label))
        else if negb (_check_url_exists w url) then
          Ok (add_error st ("ERROR: repositoryURL is not reachable ("
                              ++ _format_value repository_url
                              ++ in_label package_label))
        else Ok st
  | _ =>
      Ok (add_error st ("ERROR: Missing or invalid repositoryURL ("
                          ++ _format_value repository_url
                          ++ in_label package_label))
  end.

(** [re.fullmatch(r"[A-Za-z_]+", tag)] *)
Definition fullmatch_tag (tag : pystr) : bool :=
  Str.nonempty tag
  && forallb (fun c => Str.is_upper c || Str.is_lower c || Str.eqb c "_"%char)
       tag.

(** Lines 266 to 268. *)
Definition invalid_tags (tags : pystr) : list pystr :=
  List.filter (fun tag => negb (fullmatch_tag tag)) (Str.split "," tags).

(** Lines 253 to 273. *)
Definition check_tags (package_label : pystr) (tags : json)
    (st : scan_state) : scan_state :=
  match tags with
  | JStr t =>
      if negb (Str.nonempty (Str.strip t)) then
        add_error st ("ERROR: Missing or empty tags ("
                        ++ _format_value tags ++ in_label package_label)
      else if Str.contains " " t then
        add_error st ("ERROR: Tags must not contain spaces ("
                        ++ _format_value tags ++ in_label package_label)
      else
        match invalid_tags t with
        | [] => st
        | (_ :: _) as bad =>
            add_error st ("ERROR: Invalid tag(s) ("
                            ++ _format_value (JArr (map JStr bad))
                            ++ in_label package_label)
        end
  | _ =>
      add_error st ("ERROR: Missing or empty tags ("
                      ++ _format_value tags ++ in_label package_label)
  end.

(** The number of characters of
    [base64.b64decode(s, validate=True).decode("utf-8")], or [None] when
    the decoding raises [ValueError] (of which [binascii.Error] and
    [UnicodeDecodeError] are kinds). *)
Variable b64_text_length : pystr -> option Z.

(** [n > limit] for an integer [n] and a value of the configuration. *)
Definition int_gt (n : Z) (limit : json) : result bool :=
  match limit with
  | JNum m => Ok (m <? n)
  | JBool b => Ok ((if b then 1 else 0) <? n)
  | _ => Raise (TypeError "'>' not supported between instances")
  end.

(** [str(limit)] in a message; written only after [int_gt] returned. *)
Definition limit_text (limit : json) : pystr :=
  match limit with
  | JNum m => str_of_Z m
  | JBool true => "True"
  | JBool false => "False"
  | _ => ""
  end.

(** Lines 275 to 296 with [field] = titleB64 and [noun] = title, and
    lines 298 to 319 with descriptionB64 and description. *)
Definition check_b64 (field noun : pystr) (limit : json)
    (package_label : pystr) (value : json) (st : scan_state)
  : result scan_state :=
  match value with
  | JStr text =>
      if negb (Str.nonempty (Str.strip text)) then
        Ok (add_error st ("ERROR: Missing or invalid " ++ field ++ " ("
                            ++ _format_value value ++ in_label package_label))
      else
        match b64_text_length text with
        | Some len =>
            too_long ← int_gt len limit;
            if too_long : bool then
              Ok (add_error st ("ERROR: " ++ noun ++ " exceeds max chars (len="
                                  ++ str_of_Z len ++ ", limit="
                                  ++ limit_text limit
                                  ++ in_label package_label))
            else Ok st
        | None =>
            Ok (add_error st ("ERROR: Invalid base64 in " ++ field ++ " ("
                                ++ _format_value value
                                ++ in_label package_label))
        end
  | _ =>
      Ok (add_error st ("ERROR: Missing or invalid " ++ field ++ " ("
                          ++ _format_value value ++ in_label package_label))
  end.

(** ** The script: the output record (lines 321 to 351) *)

(** [name.strip().lstrip("/")] *)
Definition media_name (name : pystr) : pystr :=
  Str.lstrip "/" (Str.strip name).

(** Lines 325 to 330. *)
Definition media_folder (manifest : dict) (rel_package_dir : pystr) : pystr :=
  let folder :=
    match dict_get "mediaFolder" manifest with
    | JStr s => Str.strip s
    | _ => ""
    end in
  if negb (Str.nonempty folder) then "/" ++ rel_package_dir
  else if negb (Str.startswith "/" folder) then "/" ++ folder
  else folder.

Definition media_url (repo_base folder name : pystr) : pystr :=
  repo_base ++ "packages" ++ folder ++ "/" ++ media_name name.

Definition normalized_image (repo_base folder : pystr) (image : json) : json :=
  match image with
  | JStr name => JStr (media_url repo_base folder name)
  | _ => image
  end.

Definition updated_manifest (manifest : dict) (package_id : option pystr)
    (username_from_path rel_package_dir repo_base : pystr) : dict :=
  let updated := dict_set "id" (id_json package_id) manifest in
  let updated := dict_set "userName" (JStr username_from_path) updated in
  let folder := media_folder updated rel_package_dir in
  let updated := dict_pop "mediaFolder" updated in
  let updated :=
    match dict_get "images" updated with
    | JArr l =>
        dict_set "images" (JArr (map (normalized_image repo_base folder) l))
          updated
    | _ => updated
    end in
  match dict_get "thumbnail" updated with
  | JStr name =>
      if Str.nonempty (Str.strip name)
      then dict_set "thumbnail" (JStr (media_url repo_base folder name)) updated
      else updated
  | _ => updated
  end.

Definition add_manifest (st : scan_state) (record : dict) : scan_state :=
  {| errors := errors st; manifests := manifests st ++ [JObj record];
     seen_ids := seen_ids st; id_files := id_files st;
     urandom_calls := urandom_calls st |}.

(** ** The script: one turn of the loop (lines 141 to 353) *)

Record run_config := {
  repo_base : pystr;
  title_max_length : json;
  description_max_length : json;
}.

(** Lines 188 to 353, for a loaded manifest. The first [manifest.get]
    raises [AttributeError] unless the manifest is a JSON object. *)
Definition check_and_transform (w : world) (c : run_config)
    (package_label : pystr) (manifest_path : rel_path) (manifest : json)
    (package_id : option pystr) (st : scan_state) : result scan_state :=
  match manifest with
  | JObj d =>
      let manifest_dir := removelast manifest_path in
      let st :=
        check_thumbnail w package_label manifest_dir (dict_get "thumbnail" d) st in
      let st :=
        check_images w package_label manifest_dir (dict_get "images" d) st in
      st ← check_repository_url w package_label (dict_get "repositoryURL" d) st;
      let st := check_tags package_label (dict_get "tags" d) st in
      st ← check_b64 "titleB64" "title" (title_max_length c) package_label
             (dict_get "titleB64" d) st;
      st ← check_b64 "descriptionB64" "description" (description_max_length c)
             package_label (dict_get "descriptionB64" d) st;
      Ok (add_manifest st
            (updated_manifest d package_id (hd "" manifest_path)
               (as_posix manifest_dir) (repo_base c)))
  | _ => Raise no_attribute_get
  end.

Definition process_manifest (w : world) (c : run_config) (st : scan_state)
    (manifest_path : rel_path) : scan_state * option pyexn :=
  let package_label := Str.join "/" ("packages" :: manifest_path) in
  match manifest_file w manifest_path with
  | ReadJSONDecodeError _ lineno colno =>
      (add_error st ("ERROR: Invalid JSON syntax in " ++ package_label
                       ++ " (line " ++ str_of_Z lineno ++ ", column "
                       ++ str_of_Z colno ++ ")."), None)
  | ReadOSError text =>
      (add_error st ("ERROR: Failed to read " ++ package_label ++ ": " ++ text),
       None)
  | ReadOk manifest =>
      let '(package_id, st) :=
        resolve_identity w package_label (removelast manifest_path) st in
      let st := register_identity package_label package_id st in
      match check_and_transform w c package_label manifest_path manifest
              package_id st with
      | Ok st' => (st', None)
      | Raise e => (st, Some e)
      end
  end.

(** The [for] loop of line 141: it ends with the list, or with the first
    exception that escapes a turn. *)
Fixpoint scan (w : world) (c : run_config) (manifest_paths : list rel_path)
    (st : scan_state) : scan_state * option pyexn :=
  match manifest_paths with
  | [] => (st, None)
  | manifest_path :: rest =>
      match process_manifest w c st manifest_path with
      | (st', None) => scan w c rest st'
      | (st', Some e) => (st', Some e)
      end
  end.

(** ** The script: [main] *)

Definition initial_state (w : world) : scan_state :=
  {| errors := []; manifests := []; seen_ids := ∅;
     id_files := id_files_before w; urandom_calls := 0 |}.

Definition release_path (w : world) (name : pystr) : pystr :=
  abs_text (repo_root w ++ ["release"; name]).

Definition load_run_config (config : json) : result run_config :=
  url ← py_get config "url";
  base ← _build_raw_base (match url with JStr s => s | _ => "" end);
  title ← py_get_default config "titleMaxLength" (JNum 100);
  description ← py_get_default config "descriptionMaxLength" (JNum 500);
  Ok {| repo_base := base; title_max_length := title;
        description_max_length := description |}.

(** How lines 116 to 353 end. *)
Inductive scan_result :=
| NoManifests
| ConfigFailed (text : pystr)
| Uncaught (e : pyexn) (files : gmap rel_path id_file)
| Scanned (st : scan_state).

(** Lines 116 to 353: discovery, configuration and the loop. *)
Definition scan_all (w : world) : scan_result :=
  let manifest_paths := sorted (discovered w) in
  match manifest_paths with
  | [] => NoManifests
  | _ :: _ =>
      match _get_config (config_file w) with
      | ConfigRuntimeError text => ConfigFailed text
      | ConfigRaise e => Uncaught e (id_files_before w)
      | ConfigOk config =>
          match load_run_config config with
          | Raise e => Uncaught e (id_files_before w)
          | Ok c =>
              match scan w c manifest_paths (initial_state w) with
              | (st, Some e) => Uncaught e (id_files st)
              | (st, None) => Scanned st
              end
          end
      end
  end.

(** Lines 355 to 378; writing the three files of [release/] is taken to
    succeed. *)
Definition finish (w : world) (st : scan_state) : outcome :=
  match errors st with
  | _ :: _ =>
      {| printed := errors st; status := SysExit 1; written := [];
         id_files_after := id_files st |}
  | [] =>
      let payload := JObj [("packages", JArr (manifests st))] in
      {| printed :=
           ["SUCCESS: Database and version files generated.";
            "SUCCESS: " ++ release_path w "autogen_database.json";
            "SUCCESS: " ++ release_path w "autogen_database.json.gz";
            "SUCCESS: " ++ release_path w "autogen_version.txt"];
         status := ExitSuccess;
         written :=
           [DatabaseJson payload; DatabaseGzip payload;
            VersionTxt (timestamp w ++ ["010"%char])];
         id_files_after := id_files st |}
  end.

Definition main (w : world) : outcome :=
  match scan_all w with
  | NoManifests =>
      {| printed := ["ERROR: No manifest.json files found under packages/"];
         status := SysExit 1; written := [];
         id_files_after := id_files_before w |}
  | ConfigFailed text =>
      {| printed := ["ERROR: " ++ text]; status := SysExit 1; written := [];
         id_files_after := id_files_before w |}
  | Uncaught e files =>
      {| printed := []; status := Traceback e; written := [];
         id_files_after := files |}
  | Scanned st => finish w st
  end.


(** ** Sample data *)

(** An interpreter that accepts every bracketed host (CPython before
    3.11.4 has no such check). *)
Definition accept_brackets : pystr -> option pystr := fun _ => None.

(** A stand-in for the decoder of base64 text: the text counts as its own
    decoding, and a text with a space is rejected. *)
Definition sample_b64_length (s : pystr) : option Z :=
  if Str.contains " " s then None else Some (Z.of_nat (length s)).

Definition sample_manifest (tags : pystr) : json :=
  JObj [("thumbnail", JStr "thumb.png"); ("images", JArr [JStr "a.png"]);
        ("repositoryURL", JStr "https://github.com/alice/pkgX");
        ("tags", JStr tags); ("titleB64", JStr "VGl0bGU=");
        ("descriptionB64", JStr "RGVzYw==")].

Definition sample_config : json :=
  JObj [("url", JStr "https://github.com/alice/catalog")].

(** Two packages, [alice/pkgX] and [bob/pkgY], found in the opposite
    order; every file is present and every URL answers. *)
Definition sample_world (tagsX : pystr) (repoY : pystr) : world :=
  {| repo_root := ["srv"; "repo"];
     discovered := [["bob"; "pkgY"; "manifest.json"];
                    ["alice"; "pkgX"; "manifest.json"]];
     config_file := ReadOk sample_config;
     manifest_file := fun p =>
       if bool_decide (p = ["alice"; "pkgX"; "manifest.json"])
       then ReadOk (sample_manifest tagsX)
       else ReadOk (JObj [("thumbnail", JStr "t.png");
                          ("images", JArr [JStr "/b.png"; JStr "c.png"]);
                          ("repositoryURL", JStr repoY);
                          ("tags", JStr "tools,dev_kit");
                          ("titleB64", JStr "WQ==");
                          ("descriptionB64", JStr "WQ==");
                          ("mediaFolder", JStr "media/bob")]);
     id_files_before := {[ ["alice"; "pkgX"] := IdText "id-of-alice" ]};
     id_write_error := fun _ => None;
     is_file := fun _ _ => true;
     head_request := fun _ => HttpResponse 200;
     get_request := fun _ => HttpResponse 200;
     urandom := fun k => Z.of_nat k;
     timestamp := "2024-01-01 00:00:00 +0000" |}.

Definition good_world : world := sample_world "a,b_c,D" "https://github.com/bob/pkgY".

(** ** Well-formed URLs *)

(** The characters of a path that the URL functions pass through
    unchanged: no white space and none of the delimiters. *)
Definition plain_char (c : ascii) : bool :=
  negb (Str.isspace c) && negb (Str.mem c ":?#;").

(** The first character of what follows the network location, if any, is
    one of the three delimiters. *)
Definition starts_path (rest : pystr) : Prop :=
  match rest with
  | [] => True
  | d :: _ => d = "/"%char \/ d = "?"%char \/ d = "#"%char
  end.

Definition host_char (c : ascii) : bool :=
  plain_char c && negb (Str.mem c "/[]").

(** The characters that [urlsplit] deletes wherever they stand: TAB, CR
    and LF. *)
Definition deleted_char (c : ascii) : bool :=
  existsb (fun b => Str.mem c b) _UNSAFE_URL_BYTES_TO_REMOVE.

(** The characters of a path that may hold white space inside: none that
    [urlsplit] deletes and none of the delimiters. *)
Definition path_char (c : ascii) : bool :=
  negb (deleted_char c) && negb (Str.mem c ":?#;").

Definition query_char (c : ascii) : bool :=
  negb (Str.isspace c) && negb (Str.eqb c "#").

Definition fragment_char (c : ascii) : bool := negb (Str.isspace c).

(** The query and the fragment that follow a path, each with its mark. *)
Definition url_tail (q f : option pystr) : pystr :=
  match q with Some q => "?" ++ q | None => [] end
  ++ match f with Some f => "#" ++ f | None => [] end.

Definition tail_ok (q f : option pystr) : Prop :=
  match q with Some q => forallb query_char q = true | None => True end
  /\ match f with Some f => forallb fragment_char f = true | None => True end.

Definition path_ok (path : pystr) : Prop :=
  forallb plain_char path = true
  /\ match path with [] => True | c :: _ => c = "/"%char end.

(** The same with white space allowed inside the path. *)
Definition loose_path (path : pystr) : Prop :=
  forallb path_char path = true
  /\ match path with [] => True | c :: _ => c = "/"%char end.

(** ** The repository path, in the words of the specification *)

(** [s] without a trailing [suffix]. *)
Definition without_suffix (suffix s : pystr) : pystr :=
  if Str.endswith suffix s then take (length s - length suffix) s else s.

(** "Strip a trailing .git suffix and trailing slash from the repo path":
    the slash goes first, as in [owner/repo.git/]. *)
Definition bare_repo_path (repo_path : pystr) : pystr :=
  without_suffix ".git" (without_suffix "/" repo_path).

(** [https://raw.githubusercontent.com/<repo_path>/refs/heads/<branch>/] *)
Definition raw_base_of (repo_path branch : pystr) : pystr :=
  "https://raw.githubusercontent.com/" ++ repo_path ++ "/refs/heads/"
    ++ branch ++ "/".

(** ** The inputs of the normalizer that name [github.com] *)

(** How the input names the host: with either scheme, or with none. *)
Inductive host_prefix := WithHttps | WithHttp | NoScheme.

Definition prefix_text (h : host_prefix) : pystr :=
  match h with
  | WithHttps => "https://"
  | WithHttp => "http://"
  | NoScheme => ""
  end.

(** The scheme after https-defaulting. *)
Definition clean_scheme (h : host_prefix) : pystr :=
  match h with
  | WithHttp => "http"
  | _ => "https"
  end.

(** White space, a GitHub web URL with path [p], an optional query and
    fragment, white space. *)
Definition github_url (ws1 : pystr) (h : host_prefix) (p : pystr)
    (q f : option pystr) (ws2 : pystr) : pystr :=
  ws1 ++ (prefix_text h ++ "github.com/" ++ p ++ url_tail q f) ++ ws2.

Record github_input (ws1 : pystr) (h : host_prefix) (p : pystr)
    (q f : option pystr) (ws2 : pystr) : Prop := {
  gi_ws1 : forallb Str.isspace ws1 = true;
  gi_ws2 : forallb Str.isspace ws2 = true;
  gi_path : forallb path_char p = true;
  gi_no_slash : Str.startswith "/" p = false;
  gi_no_raw : Str.contains "raw.githubusercontent.com" p = false;
  gi_tail : tail_ok q f;
  gi_scheme : h = NoScheme -> Str.contains "://" (url_tail q f) = false;
  gi_end : url_tail q f = [] ->
           forall c, last p = Some c -> Str.isspace c = false;
}.

(** A path segment: not empty, and without a slash. *)
Definition segment (s : pystr) : Prop := s <> [] /\ ~ In "/"%char s.

(** What may follow the branch in a [/tree/] URL: nothing, or a
    sub-path. *)
Definition sub_path (rest : pystr) : Prop :=
  match rest with
  | [] => True
  | c :: _ => c = "/"%char
  end.

(** ** The normalizer, in the words of the specification *)

(** "extract the <owner>/<repo> path segment immediately following
    github.com/": the first two segments of the path. *)
Definition owner_and_repo (p : pystr) : pystr :=
  Str.join "/" (take 2 (Str.split "/" p)).

(** The parse of a URL, when there is one. *)
Definition urlparse_result (url : pystr) : option ParseResult :=
  match urlparse url with
  | Ok r => Some r
  | Raise _ => None
  end.

(** A text without square brackets. *)
Definition bracket_free (s : pystr) : Prop :=
  ~ In "["%char s /\ ~ In "]"%char s.

Definition parse_free (r : ParseResult) : Prop :=
  bracket_free (scheme r) /\ bracket_free (netloc r) /\ bracket_free (path r)
  /\ bracket_free (params r) /\ bracket_free (query r)
  /\ bracket_free (fragment r).

(** ** Tags, in the words of the specification *)

Definition tag_alphabet : pystr :=
  "ABCDEFGHIJKLMNOPQRSTUVWXYZabcdefghijklmnopqrstuvwxyz_".

(** "one or more ASCII letters or underscore" *)
Definition valid_tag (seg : pystr) : Prop :=
  seg <> [] /\ Forall (fun c => In c tag_alphabet) seg.

(** The [tags] value of a manifest fails: it is missing (the key gives
    [None]) or not a string, or it is empty after trimming, or it holds a
    space, or one of its comma-separated segments is not a valid tag. *)
Definition tags_rejected (tags : json) : Prop :=
  match tags with
  | JStr t =>
      Str.strip t = []
      \/ In " "%char t
      \/ exists seg, In seg (Str.split "," t) /\ ~ valid_tag seg
  | _ => True
  end.

(** ** The output record, in the words of the specification *)

(** "<rawBase>packages<mediaFolder>/<name> (leading slashes on the name
    stripped first)" *)
Definition claimed_media_url (raw_base folder name : pystr) : pystr :=
  raw_base ++ "packages" ++ folder ++ "/" ++ Str.lstrip "/" name.

(** The same with the name trimmed of white space before its leading
    slashes go. *)
Definition trimmed_media_url (raw_base folder name : pystr) : pystr :=
  raw_base ++ "packages" ++ folder ++ "/" ++ Str.lstrip "/" (Str.strip name).

(** "mediaFolder field if non-empty (normalized to start with /), else
    /<packageDir-relative-to-packages-root>", where non-empty means a
    string that is not blank, and the folder is its trimmed text. *)
Definition effective_folder (media_folder : json) (rel_package_dir folder : pystr)
  : Prop :=
  match media_folder with
  | JStr s =>
      if Str.nonempty (Str.strip s)
      then if Str.startswith "/" (Str.strip s)
           then folder = Str.strip s
           else folder = "/" ++ Str.strip s
      else folder = "/" ++ rel_package_dir
  | _ => folder = "/" ++ rel_package_dir
  end.

Definition rewritten_keys : list pystr :=
  ["id"; "userName"; "mediaFolder"; "images"; "thumbnail"].

(** ** The scan, step by step *)

(** The second state differs from the first by further errors only. *)
Definition only_errors_added (st st' : scan_state) : Prop :=
  manifests st' = manifests st /\ seen_ids st' = seen_ids st
  /\ id_files st' = id_files st /\ urandom_calls st' = urandom_calls st
  /\ exists extra, errors st' = errors st ++ extra.

(** The label of a manifest in the messages. *)
Definition label_of (manifest_path : rel_path) : pystr :=
  Str.join "/" ("packages" :: manifest_path).

(** The record that a turn of the loop appends for the manifest at
    [manifest_path], loaded as the object [d], with identity [package_id]. *)
Definition record_of (c : run_config) (manifest_path : rel_path) (d : dict)
    (package_id : option pystr) : json :=
  JObj (updated_manifest d package_id (hd "" manifest_path)
          (as_posix (removelast manifest_path)) (repo_base c)).

(** The [id] of a record. *)
Definition record_id (record : json) : json :=
  match record with
  | JObj d => dict_get "id" d
  | _ => JNull
  end.

(** The file of a manifest could be read and parsed. *)
Definition is_loaded (file : read_result) : bool :=
  match file with
  | ReadOk _ => true
  | _ => false
  end.

(** [record] is what the loop makes of the manifest at [manifest_path]. *)
Definition loaded_as (w : world) (c : run_config) (manifest_path : rel_path)
    (record : json) : Prop :=
  exists d package_id,
    manifest_file w manifest_path = ReadOk (JObj d)
    /\ record = record_of c manifest_path d package_id.

(** With no error so far, the records have distinct identities, all of
    them registered. *)
Definition ids_distinct (st : scan_state) : Prop :=
  errors st = [] ->
  NoDup (map record_id (manifests st))
  /\ forall r, In r (manifests st) ->
       exists s, record_id r = JStr s /\ Str.nonempty s = true
                 /\ (s ∈ seen_ids st).

(** The message of line 182. *)
Definition duplicate_id_error (package_label s : pystr) : pystr :=
  "ERROR: Duplicate id (" ++ _format_value (JStr s) ++ ") in "
    ++ package_label ++ ".".

(** ** The order of the catalog *)

Record total_order {A} (cmp : A -> A -> comparison) : Prop := {
  cmp_eq : forall x y, cmp x y = Eq <-> x = y;
  cmp_opp : forall x y, cmp y x = CompOpp (cmp x y);
  cmp_trans : forall x y z, cmp x y = Lt -> cmp y z = Lt -> cmp x z = Lt;
}.

(** [a <= b] on paths: not [b < a]. *)
Definition path_le (a b : rel_path) : Prop := path_lt b a = false.

(** The world [w] with the manifests found in another order. *)
Definition with_discovered (w : world) (found : list rel_path) : world :=
  {| repo_root := repo_root w; discovered := found;
     config_file := config_file w; manifest_file := manifest_file w;
     id_files_before := id_files_before w;
     id_write_error := id_write_error w; is_file := is_file w;
     head_request := head_request w; get_request := get_request w;
     urandom := urandom w; timestamp := timestamp w |}.

(** ** Runs that end before the scan *)

(** The outcome of a run that stops before the loop: the lines printed
    and the exit status; no file is written, none is created. *)
Definition stopped (w : world) (lines : list pystr) (s : exit_status)
  : outcome :=
  {| printed := lines; status := s; written := [];
     id_files_after := id_files_before w |}.

(** The world [w] with another [config.json]. *)
Definition with_config (w : world) (file : read_result) : world :=
  {| repo_root := repo_root w; discovered := discovered w;
     config_file := file; manifest_file := manifest_file w;
     id_files_before := id_files_before w;
     id_write_error := id_write_error w; is_file := is_file w;
     head_request := head_request w; get_request := get_request w;
     urandom := urandom w; timestamp := timestamp w |}.

(** [n <= limit] for a limit of the configuration that can be compared
    with an integer. *)
Definition within_limit (n : Z) (limit : json) : Prop :=
  match limit with
  | JNum m => n <= m
  | JBool b => n <= (if b then 1 else 0)
  | _ => False
  end.

(** A limit that Python cannot compare with an integer. *)
Definition incomparable (limit : json) : Prop :=
  match limit with
  | JNum _ | JBool _ => False
  | _ => True
  end.

(** ** What a run prints and which identity files it leaves *)

(** Every line starts with [tag]. *)
Definition tagged (tag : pystr) (lines : list pystr) : Prop :=
  Forall (fun line => Str.startswith tag line = true) lines.

(** The second state has the errors of the first and further lines, each
    of which starts with ERROR. *)
Definition error_lines_added (st st' : scan_state) : Prop :=
  exists extra, errors st' = errors st ++ extra /\ tagged "ERROR: " extra.

(** The identity files [after] are the files [before], unchanged, and
    new ones: each beside a manifest of [paths] that could be loaded, and
    each holding a fresh identifier and a line end. *)
Definition files_grown (w : world) (paths : list rel_path)
    (before after : gmap rel_path id_file) : Prop :=
  forall dir,
    match before !! dir with
    | Some f => after !! dir = Some f
    | None =>
        after !! dir = None
        \/ exists k p,
             In p paths /\ dir = removelast p
             /\ is_loaded (manifest_file w p) = true
             /\ id_write_error w dir = None
             /\ after !! dir
                = Some (IdText (uuid4 (urandom w k) ++ ["010"%char]))
    end.

(** ** The directory of a URL *)

(** The directory part of the path of a URL: the path up to its last
    slash, and a lone slash for the empty path. *)
Inductive directory_of : pystr -> pystr -> Prop :=
| directory_root : directory_of [] "/"
| directory_up dir file :
    ~ In "/"%char file -> directory_of (dir ++ "/" ++ file) (dir ++ "/").

(** ** Media files, in the words of the checks *)

(** An entry of [images], or a [thumbnail], that passes: a string that is
    not blank and names a file of the package directory. *)
Definition media_ok (w : world) (manifest_dir : rel_path) (value : json)
  : bool :=
  match value with
  | JStr name => Str.nonempty (Str.strip name) && is_file w manifest_dir name
  | _ => false
  end.

(** ** Quoted values *)

(** A character that [json.dumps] writes as it is inside a string: not a
    control character, not the double quote, not the backslash. *)
Definition unescaped (c : ascii) : bool :=
  (32 <=? Str.code c) && negb (Str.code c =? 34) && negb (Str.code c =? 92).

(** ** A manifest that passes *)

(** Every field of the manifest [d], which lies in [manifest_dir], passes
    its check. *)
Definition fields_ok (w : world) (c : run_config) (manifest_dir : rel_path)
    (d : dict) : Prop :=
  media_ok w manifest_dir (dict_get "thumbnail" d) = true
  /\ (exists l,
        dict_get "images" d = JArr l /\ l <> [] /\ (length l <= 8)%nat
        /\ forallb (media_ok w manifest_dir) l = true)
  /\ (exists url r,
        dict_get "repositoryURL" d = JStr url /\ Str.strip url <> []
        /\ urlparse url = Ok r
        /\ (scheme r = "http" \/ scheme r = "https")
        /\ Str.endswith "github.com" (netloc r) = true
        /\ _check_url_exists w url = true)
  /\ ~ tags_rejected (dict_get "tags" d)
  /\ (exists text n,
        dict_get "titleB64" d = JStr text /\ Str.strip text <> []
        /\ b64_text_length text = Some n
        /\ within_limit n (title_max_length c))
  /\ (exists text n,
        dict_get "descriptionB64" d = JStr text /\ Str.strip text <> []
        /\ b64_text_length text = Some n
        /\ within_limit n (description_max_length c)).

(** ** Runs that an exception ends, and runs that none can end *)

(** The outcome of a run that an exception ends during the scan. *)
Definition crashed (e : pyexn) (files : gmap rel_path id_file) : outcome :=
  {| printed := []; status := Traceback e; written := [];
     id_files_after := files |}.





(** ** Messages that name their manifest *)

(** The message holds the label. *)
Definition mentions (label msg : pystr) : Prop :=
  exists a b, msg = a ++ label ++ b.

(** The second state has the errors of the first and further messages,
    each of which holds the label. *)
Definition labelled_errors_added (label : pystr) (st st' : scan_state)
  : Prop :=
  exists extra, errors st' = errors st ++ extra /\ Forall (mentions label) extra.

(** The message holds the label of one of the manifests. *)
Definition names_manifest (paths : list rel_path) (msg : pystr) : Prop :=
  exists p, In p paths /\ mentions (label_of p) msg.

(** ** Further sample data *)

Definition alice_manifest : rel_path := ["alice"; "pkgX"; "manifest.json"].
Definition bob_manifest : rel_path := ["bob"; "pkgY"; "manifest.json"].

(** The configuration of the sample worlds, loaded. *)
Definition sample_run_config : run_config :=
  {| repo_base := "https://raw.githubusercontent.com/alice/catalog/refs/heads/main/";
     title_max_length := JNum 100;
     description_max_length := JNum 500 |}.

(** The good world with a [config.json] that cannot be opened. *)
Definition unreadable_config_world : world :=
  with_config good_world (ReadOSError "[Errno 13] Permission denied").

(** The good world with a [url] that [urlsplit] rejects. *)
Definition bracket_config_world : world :=
  with_config good_world (ReadOk (JObj [("url", JStr "http://[")])).

(** A bad tag in the first manifest, and a [repositoryURL] that
    [urlsplit] rejects in the second. *)
Definition bracket_world : world := sample_world "a,1b" "http://[".

(** A bad tag in the first manifest. *)
Definition tag_error_world : world :=
  sample_world "a,1b" "https://github.com/bob/pkgY".

(** ** Reading the result of a run *)

(** The scan reached its end. *)
Definition is_scanned (r : scan_result) : bool :=
  match r with
  | Scanned _ => true
  | _ => false
  end.

(** The state at the end of the scan. *)
Definition state_of (r : scan_result) (otherwise : scan_state) : scan_state :=
  match r with
  | Scanned st => st
  | _ => otherwise
  end.

(** The catalog that was written first, if any. *)
Definition payload_of (o : outcome) : json :=
  match written o with
  | DatabaseJson payload :: _ => payload
  | _ => JNull
  end.

(** One package without an identity file, in a directory that cannot be
    written. *)
Definition unwritable_world : world :=
  {| repo_root := ["srv"; "repo"];
     discovered := [["alice"; "pkgX"; "manifest.json"]];
     config_file := ReadOk sample_config;
     manifest_file := fun _ => ReadOk (sample_manifest "a");
     id_files_before := ∅;
     id_write_error := fun _ => Some "[Errno 13] Permission denied";
     is_file := fun _ _ => true;
     head_request := fun _ => HttpResponse 200;
     get_request := fun _ => HttpResponse 200;
     urandom := fun k => Z.of_nat k;
     timestamp := "2024-01-01 00:00:00 +0000" |}.

(** * Properties *)

(** ** Strings *)

Lemma eqb_true a b : Str.eqb a b = true <-> a = b.
Proof. apply Ascii.eqb_eq. Qed.

Lemma eqb_false a b : Str.eqb a b = false <-> a <> b.
Proof. apply Ascii.eqb_neq. Qed.

Lemma eqb_same a : Str.eqb a a = true.
Proof. by apply eqb_true. Qed.

Lemma eq_str_true a b : Str.eq_str a b = true <-> a = b.
Proof.
  revert b. induction a as [|x a IH]; intros [|y b]; simpl; try done.
  rewrite andb_true_iff, eqb_true, IH. split.
  - by intros [-> ->].
  - by intros [= -> ->].
Qed.

Lemma eq_str_same a : Str.eq_str a a = true.
Proof. by apply eq_str_true. Qed.

Lemma eq_str_false a b : Str.eq_str a b = false <-> a <> b.
Proof.
  rewrite <- eq_str_true. destruct (Str.eq_str a b); split; congruence.
Qed.

Lemma mem_In c l : Str.mem c l = true <-> In c l.
Proof.
  unfold Str.mem. rewrite existsb_exists. split.
  - intros (x & Hx & Heq). apply eqb_true in Heq. by subst.
  - intros H. exists c. split; [done | apply eqb_same].
Qed.

Lemma mem_false c l : Str.mem c l = false <-> ~ In c l.
Proof.
  rewrite <- mem_In. destruct (Str.mem c l); split; congruence.
Qed.

Lemma startswith_app p s : Str.startswith p (p ++ s) = true.
Proof. induction p as [|a p IH]; simpl; [done | by rewrite eqb_same]. Qed.

Lemma startswith_inv p s :
  Str.startswith p s = true -> exists t, s = p ++ t.
Proof.
  revert s. induction p as [|a p IH]; intros s H; simpl in *.
  - by exists s.
  - destruct s as [|b s]; [done |].
    apply andb_true_iff in H as [Hab H]. apply eqb_true in Hab as ->.
    destruct (IH _ H) as [t ->]. by exists t.
Qed.

Lemma startswith_long p x y :
  (length p <= length x)%nat ->
  Str.startswith p (x ++ y) = Str.startswith p x.
Proof.
  revert x. induction p as [|a p IH]; intros [|b x] Hlen; simpl in *;
    try done; try lia.
  rewrite IH; [done | lia].
Qed.

Lemma startswith_head_differs c p x s :
  c <> x -> Str.startswith (c :: p) (x :: s) = false.
Proof.
  intros H. simpl. apply andb_false_iff. left. by apply eqb_false.
Qed.

Lemma index_from_shift sub s i :
  Str.index_from sub s i = (fun k => (k + i)%nat) <$> Str.index_from sub s 0.
Proof.
  revert i. induction s as [|c s IH]; intros i; simpl.
  - by destruct (Str.startswith sub []).
  - destruct (Str.startswith sub (c :: s)); [done |].
    rewrite (IH (S i)), (IH 1%nat).
    destruct (Str.index_from sub s 0); simpl; [f_equal; lia | done].
Qed.

Lemma index_from_None sub s i :
  Str.index_from sub s i = None <-> Str.contains sub s = false.
Proof.
  unfold Str.contains. rewrite (index_from_shift sub s i).
  destruct (Str.index_from sub s 0); simpl; split; congruence.
Qed.

Lemma contains_cons sub c s :
  Str.contains sub (c :: s) = Str.startswith sub (c :: s) || Str.contains sub s.
Proof.
  unfold Str.contains. simpl.
  destruct (Str.startswith sub (c :: s)); [done |]. simpl.
  rewrite (index_from_shift sub s 1). by destruct (Str.index_from sub s 0).
Qed.

Lemma contains_nil sub : Str.contains sub [] = Str.startswith sub [].
Proof. unfold Str.contains. simpl. by destruct (Str.startswith sub []). Qed.

(** [c in s] for a one-character pattern. *)
Lemma contains_char c s : Str.contains [c] s = true <-> In c s.
Proof.
  induction s as [|d s IH].
  - rewrite contains_nil. simpl. split; [done | tauto].
  - rewrite contains_cons, orb_true_iff, IH. simpl.
    rewrite andb_true_r, eqb_true. split; intros [H|H]; auto.
Qed.

Lemma contains_char_false c s : Str.contains [c] s = false <-> ~ In c s.
Proof.
  rewrite <- contains_char. destruct (Str.contains [c] s); split; congruence.
Qed.

(** A pattern with a character that the text lacks does not occur. *)
Lemma contains_absent sub c s :
  In c sub -> ~ In c s -> Str.contains sub s = false.
Proof.
  intros Hc Hs. destruct (Str.contains sub s) eqn:E; [|done].
  exfalso. revert Hs E. induction s as [|d s IH]; intros Hs E.
  - rewrite contains_nil in E. destruct sub; [done | done].
  - rewrite contains_cons in E. apply orb_true_iff in E as [E|E].
    + apply startswith_inv in E as [t E]. apply Hs. rewrite E.
      apply in_app_iff. by left.
    + apply IH; [|done]. intros H. apply Hs. by right.
Qed.

Lemma find_absent sub s : Str.contains sub s = false -> Str.find sub s = -1.
Proof.
  unfold Str.contains, Str.find. by destruct (Str.index_from sub s 0).
Qed.

Lemma find_at_absent c s start : ~ In c s -> Str.find_at [c] s start = -1.
Proof.
  intros H. unfold Str.find_at. destruct (length s <? start)%nat; [done |].
  assert (Str.index_from [c] (drop start s) start = None) as ->; [|done].
  apply index_from_None, contains_char_false.
  intros Hin. apply H. apply list_elem_of_In.
  apply list_elem_of_In in Hin. eapply (subseteq_drop start s), Hin.
Qed.

Lemma replace_go_absent old new s :
  Str.contains old s = false -> Str.replace_go old new s 0 = s.
Proof.
  induction s as [|c s IH]; intros H; simpl; [done |].
  rewrite contains_cons in H. apply orb_false_iff in H as [H1 H2].
  rewrite H1, IH; done.
Qed.

Lemma replace_absent old new s :
  old <> [] -> Str.contains old s = false -> Str.replace old new s = s.
Proof.
  intros Hne H. destruct old; [done |]. by apply replace_go_absent.
Qed.

Lemma replace_go_skip old new x s :
  Str.replace_go old new (x ++ s) (length x) = Str.replace_go old new s 0.
Proof.
  revert s. induction x as [|c x IH]; intros s; simpl; [|done].
  destruct s; done.
Qed.

Lemma lstrip_space_head s :
  (forall c, head s = Some c -> Str.isspace c = false) ->
  Str.lstrip_space s = s.
Proof.
  destruct s as [|c s]; simpl; [done |]. intros H. by rewrite (H c).
Qed.

Lemma head_rev (s : pystr) : head (rev s) = last s.
Proof.
  induction s as [|x s _] using rev_ind; [done |].
  by rewrite rev_app_distr, last_snoc.
Qed.

(** [strip] leaves a text that neither starts nor ends with white space. *)
Lemma strip_fixed s :
  (forall c, head s = Some c -> Str.isspace c = false) ->
  (forall c, last s = Some c -> Str.isspace c = false) ->
  Str.strip s = s.
Proof.
  intros Hh Hl. unfold Str.strip. rewrite (lstrip_space_head s Hh).
  rewrite lstrip_space_head; [apply rev_involutive |].
  intros c Hc. apply Hl. by rewrite <- head_rev.
Qed.

Lemma plain_not_space p c :
  forallb plain_char p = true -> In c p -> Str.isspace c = false.
Proof.
  intros H Hc. rewrite forallb_forall in H. specialize (H c Hc).
  unfold plain_char in H. apply andb_true_iff in H as [H _].
  by apply negb_true_iff in H.
Qed.

Lemma plain_not_delimiter p c :
  forallb plain_char p = true -> In c ":?#;" -> ~ In c p.
Proof.
  intros H Hd Hc. rewrite forallb_forall in H. specialize (H c Hc).
  unfold plain_char in H. apply andb_true_iff in H as [_ H].
  apply negb_true_iff, mem_false in H. done.
Qed.

Lemma plain_not_in_space p c :
  forallb plain_char p = true -> Str.isspace c = true -> ~ In c p.
Proof.
  intros H Hs Hc. by rewrite (plain_not_space p c H Hc) in Hs.
Qed.

Lemma index_from_skip c sub a s i :
  ~ In c a ->
  Str.index_from (c :: sub) (a ++ s) i
  = Str.index_from (c :: sub) s (i + length a).
Proof.
  revert i. induction a as [|x a IH]; intros i Hc.
  - simpl app. f_equal. simpl. lia.
  - change ((x :: a) ++ s) with (x :: (a ++ s)).
    cbn [Str.index_from]. rewrite startswith_head_differs.
    + rewrite IH; [f_equal; simpl; lia |]. intros H. apply Hc. by right.
    + intros ->. apply Hc. by left.
Qed.

Lemma index_from_ge sub s i k :
  Str.index_from sub s i = Some k -> (i <= k)%nat.
Proof.
  rewrite index_from_shift. destruct (Str.index_from sub s 0); simpl; [|done].
  intros [= <-]. lia.
Qed.

Lemma index_from_here sub s i :
  Str.startswith sub s = true -> Str.index_from sub s i = Some i.
Proof. intros H. destruct s; simpl; by rewrite H. Qed.

Lemma index_from_next sub c s i :
  Str.startswith sub (c :: s) = false ->
  Str.index_from sub (c :: s) i = Str.index_from sub s (S i).
Proof. intros H. simpl. by rewrite H. Qed.

Lemma contains_here sub a s : Str.contains sub (a ++ sub ++ s) = true.
Proof.
  induction a as [|x a IH].
  - simpl app. unfold Str.contains.
    by rewrite index_from_here by apply startswith_app.
  - change ((x :: a) ++ sub ++ s) with (x :: (a ++ sub ++ s)).
    rewrite contains_cons, IH. apply orb_true_r.
Qed.

Lemma upto_nat n (s : pystr) : Str.upto (Z.of_nat n) s = take n s.
Proof.
  unfold Str.upto, Str.position.
  destruct (Z.ltb_spec (Z.of_nat n) 0); [lia |]. by rewrite Nat2Z.id.
Qed.

Lemma from_nat n (s : pystr) : Str.from (Z.of_nat n) s = drop n s.
Proof.
  unfold Str.from, Str.position.
  destruct (Z.ltb_spec (Z.of_nat n) 0); [lia |]. by rewrite Nat2Z.id.
Qed.

Lemma lstrip_head chars s :
  (forall c, head s = Some c -> Str.mem c chars = false) ->
  Str.lstrip chars s = s.
Proof.
  destruct s as [|c s]; simpl; [done |]. intros H. by rewrite (H c).
Qed.

Lemma split_once_here c a b :
  ~ In c a -> Str.split_once c (a ++ c :: b) = (a, b).
Proof.
  induction a as [|x a IH]; intros H; simpl.
  - by rewrite eqb_same.
  - assert (Str.eqb c x = false) as ->.
    { apply eqb_false. intros ->. apply H. by left. }
    rewrite IH; [done |]. intros Hin. apply H. by right.
Qed.

(** ** The URL functions on a well-formed URL *)

Lemma find_at_after_host c host rest :
  ~ In c host ->
  Str.find_at [c] ("//" ++ host ++ rest) 2
  = match Str.index_from [c] rest (2 + length host) with
    | Some i => Z.of_nat i
    | None => -1
    end.
Proof.
  intros H. unfold Str.find_at.
  change (length ("//" ++ host ++ rest)) with (S (S (length (host ++ rest)))).
  destruct (Nat.ltb_spec (S (S (length (host ++ rest)))) 2); [lia |].
  change (drop 2 ("//" ++ host ++ rest)) with (host ++ rest).
  by rewrite index_from_skip.
Qed.

Lemma index_after_host c n rest :
  starts_path rest ->
  let W := match Str.index_from [c] rest n with
           | Some i => Z.of_nat i
           | None => -1
           end in
  (W = -1 \/ Z.of_nat n <= W)
  /\ (forall r, rest = c :: r -> W = Z.of_nat n)
  /\ (rest = [] -> W = -1).
Proof.
  intros Hr W. subst W. split; [|split].
  - destruct (Str.index_from [c] rest n) as [k|] eqn:E; [|by left].
    right. apply index_from_ge in E. lia.
  - intros r ->. rewrite index_from_here; [done |]. simpl. by rewrite eqb_same.
  - by intros ->.
Qed.

Lemma splitnetloc_host host rest :
  (forall c, In c "/?#" -> ~ In c host) ->
  starts_path rest ->
  _splitnetloc ("//" ++ host ++ rest) 2 = (host, rest).
Proof.
  intros Hh Hr. unfold _splitnetloc. cbn [fold_left].
  rewrite !find_at_after_host by (apply Hh; simpl; auto).
  set (n := (2 + length host)%nat).
  assert (Hlen : length ("//" ++ host ++ rest) = (n + length rest)%nat).
  { subst n. simpl. rewrite length_app. lia. }
  rewrite Hlen.
  destruct (index_after_host "/" n rest Hr) as (A1 & B1 & C1).
  destruct (index_after_host "?" n rest Hr) as (A2 & B2 & C2).
  destruct (index_after_host "#" n rest Hr) as (A3 & B3 & C3).
  match goal with
  | |- (drop 2 (Str.upto ?d _), _) = _ => assert (d = Z.of_nat n) as ->
  end.
  { destruct rest as [|d r].
    - rewrite C1, C2, C3 by done. simpl. lia.
    - simpl length. destruct Hr as [-> | [-> | ->]];
        [rewrite (B1 r eq_refl) | rewrite (B2 r eq_refl)
         | rewrite (B3 r eq_refl)];
        repeat match goal with
               | |- context [0 <=? ?x] => destruct (Z.leb_spec 0 x); try lia
               end. }
  rewrite upto_nat, from_nat. subst n.
  change ("//" ++ host ++ rest) with ("/"%char :: "/"%char :: (host ++ rest)).
  change (take (2 + length host) ("/"%char :: "/"%char :: (host ++ rest)))
    with ("/"%char :: "/"%char :: take (length host) (host ++ rest)).
  change (drop (2 + length host) ("/"%char :: "/"%char :: (host ++ rest)))
    with (drop (length host) (host ++ rest)).
  by rewrite take_app_length, drop_app_length.
Qed.

Lemma forallb_In {A} (P : A -> bool) l x :
  forallb P l = true -> In x l -> P x = true.
Proof. rewrite forallb_forall. auto. Qed.

Lemma not_In_by {A} (P : A -> bool) l x :
  forallb P l = true -> P x = false -> ~ In x l.
Proof. intros H Hx Hin. by rewrite (forallb_In P l x H Hin) in Hx. Qed.

Lemma not_In_app {A} (x : A) l1 l2 : ~ In x l1 -> ~ In x l2 -> ~ In x (l1 ++ l2).
Proof. rewrite in_app_iff. intros H1 H2 [H|H]; auto. Qed.

Lemma not_In_cons {A} (x y : A) l : x <> y -> ~ In x l -> ~ In x (y :: l).
Proof. intros H1 H2 [H|H]; auto. Qed.

Lemma tail_no_space q f c :
  tail_ok q f -> Str.isspace c = true -> ~ In c (url_tail q f).
Proof.
  intros [Hq Hf] Hc. unfold url_tail. apply not_In_app.
  - destruct q as [q|]; [|by intros []]. apply not_In_cons.
    + intros ->. by vm_compute in Hc.
    + apply (not_In_by _ _ _ Hq). unfold query_char. by rewrite Hc.
  - destruct f as [f|]; [|by intros []]. apply not_In_cons.
    + intros ->. by vm_compute in Hc.
    + apply (not_In_by _ _ _ Hf). unfold fragment_char. by rewrite Hc.
Qed.

Lemma host_plain host : forallb host_char host = true -> forallb plain_char host = true.
Proof.
  rewrite !forallb_forall. intros H c Hc. specialize (H c Hc).
  unfold host_char in H. by apply andb_true_iff in H as [H _].
Qed.

Lemma plain_no_space_char c : Str.isspace c = true -> plain_char c = false.
Proof. intros H. unfold plain_char. by rewrite H. Qed.

Lemma host_no_space_char c : Str.isspace c = true -> host_char c = false.
Proof. intros H. unfold host_char. by rewrite plain_no_space_char. Qed.

(** No white space inside a well-formed URL. *)
Lemma url_no_space sch host path q f c :
  sch = "http" \/ sch = "https" ->
  forallb host_char host = true -> path_ok path -> tail_ok q f ->
  Str.isspace c = true ->
  ~ In c (sch ++ "://" ++ host ++ path ++ url_tail q f).
Proof.
  intros Hs Hh [Hp _] Ht Hc.
  apply not_In_app; [|apply not_In_app; [|apply not_In_app; [|apply not_In_app]]].
  - destruct Hs as [-> | ->];
      (apply (not_In_by (fun c => negb (Str.isspace c)));
       [done | by rewrite Hc]).
  - apply (not_In_by (fun c => negb (Str.isspace c))); [done | by rewrite Hc].
  - apply (not_In_by _ _ _ Hh). by apply host_no_space_char.
  - apply (not_In_by _ _ _ Hp). by apply plain_no_space_char.
  - by apply tail_no_space.
Qed.

Lemma deleted_space c : deleted_char c = true -> Str.isspace c = true.
Proof.
  unfold deleted_char, _UNSAFE_URL_BYTES_TO_REMOVE. cbn [existsb Str.mem].
  rewrite !orb_false_r, !orb_true_iff.
  intros [H | [H | H]]; apply eqb_true in H; by subst c.
Qed.

Lemma plain_path_char c : plain_char c = true -> path_char c = true.
Proof.
  unfold plain_char, path_char. intros H.
  apply andb_true_iff in H as [H1 H2]. rewrite H2, andb_true_r.
  destruct (deleted_char c) eqn:E; [|done].
  apply deleted_space in E. by rewrite E in H1.
Qed.

Lemma plain_is_path p :
  forallb plain_char p = true -> forallb path_char p = true.
Proof.
  rewrite !forallb_forall. intros H c Hc. by apply plain_path_char, H.
Qed.

Lemma path_ok_loose path : path_ok path -> loose_path path.
Proof. intros [H1 H2]. split; [by apply plain_is_path | done]. Qed.

Lemma path_not_deleted c : deleted_char c = true -> path_char c = false.
Proof. intros H. unfold path_char. by rewrite H. Qed.

(** None of the deleted characters inside a URL whose path may hold white
    space. *)
Lemma url_not_deleted sch host path q f c :
  sch = "http" \/ sch = "https" ->
  forallb host_char host = true -> loose_path path -> tail_ok q f ->
  deleted_char c = true ->
  ~ In c (sch ++ "://" ++ host ++ path ++ url_tail q f).
Proof.
  intros Hs Hh [Hp _] Ht Hc.
  pose proof (deleted_space c Hc) as Hsp.
  apply not_In_app; [|apply not_In_app; [|apply not_In_app; [|apply not_In_app]]].
  - destruct Hs as [-> | ->];
      (apply (not_In_by (fun c => negb (Str.isspace c)));
       [done | by rewrite Hsp]).
  - apply (not_In_by (fun c => negb (Str.isspace c))); [done | by rewrite Hsp].
  - apply (not_In_by _ _ _ Hh). by apply host_no_space_char.
  - apply (not_In_by _ _ _ Hp). by apply path_not_deleted.
  - by apply tail_no_space.
Qed.

(** ** The check of the network location *)

(** [replace] with a one-character pattern and the empty text removes the
    character and nothing else. *)
Lemma replace_char_removes c s x :
  In x (Str.replace [c] "" s) -> In x s /\ x <> c.
Proof.
  unfold Str.replace. induction s as [|d s IH]; simpl; [done |].
  rewrite andb_true_r. destruct (Str.eqb c d) eqn:E; simpl.
  - intros H. destruct (IH H) as [H1 H2]. auto.
  - apply eqb_false in E. intros [<- | H]; [split; [by left | congruence] |].
    destruct (IH H) as [H1 H2]. auto.
Qed.

(** No character below 256, the five delimiters apart, has one of them in
    its NFKC form. *)
Lemma nfkc_char_safe c :
  Str.mem c "/?#@:"
  || negb (existsb (fun d => existsb (Z.eqb (Str.code d)) (nfkc_char c)) "/?#@:")
  = true.
Proof. destruct c as [[] [] [] [] [] [] [] []]; reflexivity. Qed.

Lemma nfkc_safe n d :
  In d "/?#@:" -> (forall c, In c n -> ~ In c "/?#@:") ->
  existsb (Z.eqb (Str.code d)) (nfkc n) = false.
Proof.
  intros Hd Hn. unfold nfkc. induction n as [|c n IH]; simpl; [done |].
  rewrite existsb_app, IH by (intros x Hx; apply Hn; by right).
  rewrite orb_false_r.
  pose proof (nfkc_char_safe c) as Hc.
  assert (Str.mem c "/?#@:" = false) as Hm
    by (apply mem_false, Hn; by left).
  rewrite Hm in Hc. cbn [orb] in Hc. apply negb_true_iff in Hc.
  destruct (existsb (Z.eqb (Str.code d)) (nfkc_char c)) eqn:E; [| done].
  exfalso. apply not_true_iff_false in Hc. apply Hc.
  apply existsb_exists. by exists d.
Qed.

(** On a text of code points below 256 without a slash, [_checknetloc]
    returns. *)
Lemma checknetloc_ok netloc :
  ~ In "/"%char netloc -> _checknetloc netloc = Ok tt.
Proof.
  intros Hs. unfold _checknetloc.
  destruct (negb (Str.nonempty netloc) || _); [done |].
  set (n := Str.replace "?" "" _).
  destruct (bool_decide _); [done |].
  assert (Hn : forall c, In c n -> ~ In c "/?#@:").
  { intros c Hc. subst n.
    apply replace_char_removes in Hc as [Hc H1].
    apply replace_char_removes in Hc as [Hc H2].
    apply replace_char_removes in Hc as [Hc H3].
    apply replace_char_removes in Hc as [Hc H4].
    intros [<- | [<- | [<- | [<- | [<- | []]]]]]; done. }
  assert (existsb (fun c => existsb (Z.eqb (Str.code c)) (nfkc n)) "/?#@:"
          = false) as ->; [| done].
  cbn [existsb].
  rewrite !(nfkc_safe n) by (done || (simpl; auto 10)). done.
Qed.

(** What [_checknetloc] raises is a [ValueError]. *)
Lemma checknetloc_raises netloc e :
  _checknetloc netloc = Raise e -> exists msg, e = ValueError msg.
Proof.
  unfold _checknetloc. destruct (_ || _); [done |].
  destruct (bool_decide _); [done |]. destruct (existsb _ _); [| done].
  intros [= <-]. by eexists.
Qed.

Lemma index_from_first c s n k :
  Str.index_from [c] s n = Some k -> ~ In c (take (k - n) s).
Proof.
  revert n. induction s as [|x s IH]; intros n;
    [rewrite take_nil; by intros _ [] |].
  cbn [Str.index_from Str.startswith]. rewrite andb_true_r.
  destruct (Str.eqb c x) eqn:E.
  - intros [= <-]. rewrite Nat.sub_diag. by intros [].
  - intros H. pose proof (index_from_ge _ _ _ _ H) as Hge.
    replace (k - n)%nat with (S (k - S n)) by lia. simpl.
    apply eqb_false in E. intros [-> | Hin]; [done |]. by apply (IH (S n)).
Qed.

(** The network location that [_splitnetloc] cuts holds no slash. *)
Lemma splitnetloc_no_slash url start :
  ~ In "/"%char (_splitnetloc url start).1.
Proof.
  unfold _splitnetloc. cbn [fold_left fst].
  set (w1 := Str.find_at "/" url start).
  set (w2 := Str.find_at "?" url start).
  set (w3 := Str.find_at "#" url start).
  set (d0 := Z.of_nat (length url)).
  set (d1 := if 0 <=? w1 then Z.min d0 w1 else d0).
  set (d2 := if 0 <=? w2 then Z.min d1 w2 else d1).
  set (d3 := if 0 <=? w3 then Z.min d2 w3 else d2).
  assert (H0 : 0 <= d3 /\ (0 <= w1 -> d3 <= w1)).
  { subst d3 d2 d1 d0.
    destruct (Z.leb_spec 0 w1), (Z.leb_spec 0 w2), (Z.leb_spec 0 w3); lia. }
  destruct H0 as [Hd Hw]. clearbody d3. clear d2 d1 d0 w2 w3.
  unfold Str.upto, Str.position.
  destruct (Z.ltb_spec d3 0); [lia |].
  subst w1. unfold Str.find_at in Hw.
  destruct (Nat.ltb_spec (length url) start) as [Hlen | Hlen].
  { rewrite drop_ge; [by intros [] |]. rewrite length_take. lia. }
  destruct (le_lt_dec (Z.to_nat d3) start) as [Hle | Hlt].
  { rewrite drop_ge; [by intros [] |]. rewrite length_take. lia. }
  replace (Z.to_nat d3) with (start + (Z.to_nat d3 - start))%nat by lia.
  rewrite <- take_drop_commute.
  destruct (Str.index_from "/" (drop start url) start) as [k|] eqn:E.
  - pose proof (index_from_first _ _ _ _ E) as Hfirst.
    pose proof (index_from_ge _ _ _ _ E) as Hge.
    intros Hin. apply Hfirst.
    assert (Hk : (Z.to_nat d3 - start <= k - start)%nat) by lia.
    rewrite <- (take_drop (Z.to_nat d3 - start) (take (k - start) _)).
    apply in_app_iff. left. rewrite take_take.
    by replace ((Z.to_nat d3 - start) `min` (k - start))%nat
      with (Z.to_nat d3 - start)%nat by lia.
  - apply index_from_None, contains_char_false in E.
    intros Hin. apply E. 
    apply list_elem_of_In. apply list_elem_of_In in Hin.
    by eapply (subseteq_take _ (drop start url)).
Qed.

Lemma urlsplit_loose sch host path q f :
  sch = "http" \/ sch = "https" ->
  forallb host_char host = true -> loose_path path -> tail_ok q f ->
  urlsplit (sch ++ "://" ++ host ++ path ++ url_tail q f)
  = Ok {| scheme := sch; netloc := host; path := path; params := "";
          query := default "" q; fragment := default "" f |}.
Proof.
  intros Hs Hh Hp Ht. unfold urlsplit.
  set (u := sch ++ "://" ++ host ++ path ++ url_tail q f).
  assert (Hsp : forall c, deleted_char c = true -> ~ In c u)
    by (intros c; by apply url_not_deleted).
  rewrite (lstrip_head _ u).
  2:{ intros c Hc. subst u. by destruct Hs as [-> | ->]; injection Hc as <-. }
  unfold _UNSAFE_URL_BYTES_TO_REMOVE. cbn [fold_left].
  rewrite !(replace_absent _ _ u)
    by (done || (apply contains_char_false, Hsp; done)).
  assert (Hfind : Str.find ":" u = Z.of_nat (length sch)).
  { subst u. by destruct Hs as [-> | ->]. }
  rewrite Hfind.
  replace (Z.of_nat (length sch) + 1) with (Z.of_nat (S (length sch))) by lia.
  rewrite upto_nat, from_nat.
  assert (Htake : take (length sch) u = sch) by (subst u; apply take_app_length).
  assert (Hdrop : drop (S (length sch)) u = "//" ++ host ++ path ++ url_tail q f).
  { subst u. by destruct Hs as [-> | ->]. }
  rewrite Htake, Hdrop.
  assert (Hcond :
    (0 <? Z.of_nat (length sch))
    && match u with [] => false | c :: _ => Str.is_ascii_alpha c end
    && forallb (fun c => Str.mem c scheme_chars) sch = true).
  { subst u. by destruct Hs as [-> | ->]. }
  rewrite Hcond.
  assert (Hlow : Str.lower sch = sch) by (by destruct Hs as [-> | ->]).
  rewrite Hlow.
  cbv beta iota.
  change (Str.eq_str (take 2 ("//" ++ host ++ path ++ url_tail q f)) "//") with true.
  cbv beta iota.
  assert (Hhost : forall c, host_char c = false -> ~ In c host)
    by (intros c; apply (not_In_by _ _ _ Hh)).
  destruct Hp as [Hp Hp1].
  assert (Hpath : forall c, path_char c = false -> ~ In c path)
    by (intros c; apply (not_In_by _ _ _ Hp)).
  rewrite splitnetloc_host.
  2:{ intros c Hc. apply Hhost.
      simpl in Hc. by destruct Hc as [<- | [<- | [<- | []]]]. }
  2:{ destruct path as [|d path]; [|by left].
      unfold url_tail. destruct q, f; simpl; auto. }
  assert (Str.contains "[" host = false) as ->
    by (by apply contains_char_false, Hhost).
  assert (Str.contains "]" host = false) as ->
    by (by apply contains_char_false, Hhost).
  assert (Hck : _checknetloc host = Ok tt) by (by apply checknetloc_ok, Hhost).
  cbn [andb orb negb mbind result_bind].
  destruct Ht as [Hq Hf]. unfold url_tail.
  assert (Hq1 : forall q', q = Some q' -> ~ In "#"%char q').
  { intros q' ->. by apply (not_In_by _ _ _ Hq). }
  destruct f as [f|]; cbn [default].
  - assert (Hin : ~ In "#"%char (path ++ match q with Some q => "?" ++ q | None => [] end)).
    { apply not_In_app; [by apply Hpath |].
      destruct q as [q|]; [|by intros []].
      apply not_In_cons; [done | by apply Hq1]. }
    rewrite (app_assoc path _ ("#" ++ f)).
    assert (Str.contains "#" ((path ++ match q with Some q => "?" ++ q | None => [] end) ++ "#" ++ f) = true) as ->
      by (apply (contains_here "#")).
    change ("#" ++ f) with ("#"%char :: f).
    rewrite split_once_here by done.
    destruct q as [q|].
    + assert (Str.contains "?" (path ++ "?" ++ q) = true) as ->
        by (apply (contains_here "?")).
      change ("?" ++ q) with ("?"%char :: q).
      rewrite split_once_here by (by apply Hpath). by rewrite Hck.
    + rewrite app_nil_r.
      assert (Str.contains "?" path = false) as ->
        by (by apply contains_char_false, Hpath).
      by rewrite Hck.
  - rewrite app_nil_r.
    assert (Str.contains "#" (path ++ match q with Some q => "?" ++ q | None => [] end) = false) as ->.
    { apply contains_char_false, not_In_app; [by apply Hpath |].
      destruct q as [q|]; [|by intros []].
      apply not_In_cons; [done | by apply Hq1]. }
    destruct q as [q|].
    + assert (Str.contains "?" (path ++ "?" ++ q) = true) as ->
        by (apply (contains_here "?")).
      change ("?" ++ q) with ("?"%char :: q).
      rewrite split_once_here by (by apply Hpath). by rewrite Hck.
    + rewrite app_nil_r.
      assert (Str.contains "?" path = false) as ->
        by (by apply contains_char_false, Hpath).
      by rewrite Hck.
Qed.

Lemma urlsplit_http sch host path q f :
  sch = "http" \/ sch = "https" ->
  forallb host_char host = true -> path_ok path -> tail_ok q f ->
  urlsplit (sch ++ "://" ++ host ++ path ++ url_tail q f)
  = Ok {| scheme := sch; netloc := host; path := path; params := "";
          query := default "" q; fragment := default "" f |}.
Proof.
  intros Hs Hh Hp Ht. apply urlsplit_loose; try done. by apply path_ok_loose.
Qed.

Lemma urlparse_loose sch host path q f :
  sch = "http" \/ sch = "https" ->
  forallb host_char host = true -> loose_path path -> tail_ok q f ->
  urlparse (sch ++ "://" ++ host ++ path ++ url_tail q f)
  = Ok {| scheme := sch; netloc := host; path := path; params := "";
          query := default "" q; fragment := default "" f |}.
Proof.
  intros Hs Hh Hp Ht. unfold urlparse. rewrite urlsplit_loose by done.
  simpl.
  assert (Str.contains ";" path = false) as ->.
  { apply contains_char_false. by apply (not_In_by _ _ _ (proj1 Hp)). }
  by rewrite andb_false_r.
Qed.

Lemma urlparse_http sch host path q f :
  sch = "http" \/ sch = "https" ->
  forallb host_char host = true -> path_ok path -> tail_ok q f ->
  urlparse (sch ++ "://" ++ host ++ path ++ url_tail q f)
  = Ok {| scheme := sch; netloc := host; path := path; params := "";
          query := default "" q; fragment := default "" f |}.
Proof.
  intros Hs Hh Hp Ht. apply urlparse_loose; try done. by apply path_ok_loose.
Qed.

Lemma geturl_loose sch host path :
  sch = "http" \/ sch = "https" -> host <> [] -> loose_path path ->
  geturl {| scheme := sch; netloc := host; path := path; params := "";
            query := ""; fragment := "" |}
  = sch ++ "://" ++ host ++ path.
Proof.
  intros Hs Hh [_ Hp]. unfold geturl, urlunparse, urlunsplit.
  simpl.
  destruct host as [|h host]; [done |]. cbn [Str.nonempty orb].
  assert (Str.nonempty path && negb (Str.eq_str (take 1 path) "/") = false) as ->.
  { destruct path as [|c path]; [done |]. subst c. done. }
  by destruct Hs as [-> | ->].
Qed.

Lemma geturl_http sch host path :
  sch = "http" \/ sch = "https" -> host <> [] -> path_ok path ->
  geturl {| scheme := sch; netloc := host; path := path; params := "";
            query := ""; fragment := "" |}
  = sch ++ "://" ++ host ++ path.
Proof.
  intros Hs Hh Hp. apply geturl_loose; try done. by apply path_ok_loose.
Qed.

(** A well-formed URL loses exactly its query and its fragment. *)
Lemma strip_query_and_fragment_loose sch host path q f :
  sch = "http" \/ sch = "https" -> host <> [] ->
  forallb host_char host = true -> loose_path path -> tail_ok q f ->
  _strip_query_and_fragment (sch ++ "://" ++ host ++ path ++ url_tail q f)
  = Ok (sch ++ "://" ++ host ++ path).
Proof.
  intros Hs Hne Hh Hp Ht. unfold _strip_query_and_fragment.
  rewrite urlparse_loose by done. simpl. by rewrite geturl_loose.
Qed.

Lemma strip_query_and_fragment_http sch host path q f :
  sch = "http" \/ sch = "https" -> host <> [] ->
  forallb host_char host = true -> path_ok path -> tail_ok q f ->
  _strip_query_and_fragment (sch ++ "://" ++ host ++ path ++ url_tail q f)
  = Ok (sch ++ "://" ++ host ++ path).
Proof.
  intros Hs Hne Hh Hp Ht. apply strip_query_and_fragment_loose; try done.
  by apply path_ok_loose.
Qed.

Lemma lstrip_space_spaces ws s :
  forallb Str.isspace ws = true ->
  Str.lstrip_space (ws ++ s) = Str.lstrip_space s.
Proof.
  induction ws as [|c ws IH]; intros H; [done |].
  simpl in H. apply andb_true_iff in H as [Hc H].
  simpl. rewrite Hc. by apply IH.
Qed.

(** [strip] removes the white space around a text that neither starts nor
    ends with white space. *)
Lemma strip_around ws1 s ws2 :
  forallb Str.isspace ws1 = true -> forallb Str.isspace ws2 = true ->
  (forall c, head s = Some c -> Str.isspace c = false) ->
  (forall c, last s = Some c -> Str.isspace c = false) ->
  Str.strip (ws1 ++ s ++ ws2) = s.
Proof.
  intros H1 H2 Hh Hl. unfold Str.strip.
  rewrite lstrip_space_spaces by done.
  destruct s as [|c s].
  - simpl app. assert (Str.lstrip_space ws2 = []) as ->.
    { rewrite <- (app_nil_r ws2). by rewrite lstrip_space_spaces. }
    done.
  - rewrite (lstrip_space_head ((c :: s) ++ ws2)) by (intros d [= <-]; by apply Hh).
    rewrite rev_app_distr, lstrip_space_spaces.
    + rewrite lstrip_space_head; [apply rev_involutive |].
      intros d Hd. apply Hl. by rewrite <- head_rev.
    + rewrite forallb_forall in H2 |- *. intros d Hd. apply H2.
      by apply in_rev.
Qed.

Lemma contains_skip c sub a s :
  ~ In c a -> Str.contains (c :: sub) (a ++ s) = Str.contains (c :: sub) s.
Proof.
  intros H. unfold Str.contains. rewrite index_from_skip by done.
  rewrite index_from_shift. by destruct (Str.index_from (c :: sub) s 0).
Qed.

Lemma replace_go_prefix old new s :
  old <> [] ->
  Str.replace_go old new (old ++ s) 0 = new ++ Str.replace_go old new s 0.
Proof.
  destruct old as [|c old]; [done |]. intros _.
  change ((c :: old) ++ s) with (c :: (old ++ s)).
  cbn [Str.replace_go].
  assert (Str.startswith (c :: old) (c :: old ++ s) = true) as ->
    by apply (startswith_app (c :: old) s).
  replace (length (c :: old) - 1)%nat with (length old) by (simpl; lia).
  by rewrite replace_go_skip.
Qed.

Lemma split_go_skip sep x s :
  Str.split_go sep (x ++ s) (length x) = Str.split_go sep s 0.
Proof.
  induction x as [|c x IH]; simpl; [|done]. by destruct s.
Qed.

Lemma split_go_nonempty sep s k : Str.split_go sep s k <> [].
Proof.
  revert k. induction s as [|c s IH]; intros k; [done |].
  cbn [Str.split_go]. destruct k; [|apply IH].
  destruct (Str.startswith sep (c :: s)); [done |].
  by destruct (Str.split_go sep s 0).
Qed.

Lemma split_go_cons sep c s :
  Str.startswith sep (c :: s) = false ->
  Str.split_go sep (c :: s) 0
  = (c :: hd [] (Str.split_go sep s 0)) :: tl (Str.split_go sep s 0).
Proof.
  intros H. cbn [Str.split_go]. rewrite H.
  destruct (Str.split_go sep s 0) eqn:E; [|done].
  by apply split_go_nonempty in E.
Qed.

(** Splitting at the first occurrence of the separator. *)
Lemma split_go_first sep a s :
  sep <> [] ->
  Str.contains sep (a ++ removelast sep) = false ->
  Str.split_go sep (a ++ sep ++ s) 0 = a :: Str.split_go sep s 0.
Proof.
  intros Hne. induction a as [|c a IH]; intros H.
  - destruct sep as [|d sep]; [done |].
    change ([] ++ (d :: sep) ++ s) with (d :: (sep ++ s)).
    cbn [Str.split_go].
    assert (Str.startswith (d :: sep) (d :: sep ++ s) = true) as ->
      by apply (startswith_app (d :: sep) s).
    replace (length (d :: sep) - 1)%nat with (length sep) by (simpl; lia).
    by rewrite split_go_skip.
  - change ((c :: a) ++ removelast sep) with (c :: (a ++ removelast sep)) in H.
    rewrite contains_cons in H. apply orb_false_iff in H as [H1 H2].
    change ((c :: a) ++ sep ++ s) with (c :: (a ++ sep ++ s)).
    rewrite split_go_cons.
    + by rewrite IH.
    + rewrite <- H1.
      rewrite (app_removelast_last "a"%char Hne) at 2.
      rewrite <- (app_assoc (removelast sep)), (app_assoc a).
      change (c :: (a ++ removelast sep) ++ [List.last sep "a"%char] ++ s)
        with ((c :: a ++ removelast sep) ++ [List.last sep "a"%char] ++ s).
      apply startswith_long. simpl. rewrite length_app.
      rewrite (app_removelast_last "a"%char Hne) at 1.
      rewrite length_app. simpl. lia.
Qed.

Lemma split_go_hd_skip c sep b s :
  ~ In c b ->
  hd [] (Str.split_go (c :: sep) (b ++ s) 0)
  = b ++ hd [] (Str.split_go (c :: sep) s 0).
Proof.
  induction b as [|x b IH]; intros H; [done |].
  change ((x :: b) ++ s) with (x :: (b ++ s)).
  rewrite split_go_cons.
  - simpl. f_equal. apply IH. intros Hin. apply H. by right.
  - apply startswith_head_differs. intros ->. apply H. by left.
Qed.

Lemma split_tree_none p :
  Str.contains "/tree/" p = false ->
  split_tree p = (p, DEFAULT_REPOSITORY_BRANCH).
Proof. intros H. unfold split_tree. by rewrite H. Qed.

(** The [/tree/] part found first gives the branch: the text up to the
    next slash. *)
Lemma split_tree_first a b rest :
  Str.contains "/tree/" (a ++ "/tree") = false ->
  ~ In "/"%char b ->
  match rest with [] => True | c :: _ => c = "/"%char end ->
  split_tree (a ++ "/tree/" ++ b ++ rest) = (a, b).
Proof.
  intros Ha Hb Hrest. unfold split_tree.
  rewrite (contains_here "/tree/" a (b ++ rest)).
  unfold Str.split. rewrite split_go_first; [|done|exact Ha].
  cbn [hd length].
  assert (Hlen : (1 <? S (length (Str.split_go "/tree/" (b ++ rest) 0)))%nat = true).
  { apply Nat.ltb_lt. destruct (Str.split_go "/tree/" (b ++ rest) 0) eqn:E.
    - by apply split_go_nonempty in E.
    - simpl. lia. }
  rewrite Hlen. f_equal.
  assert (Hnth : nth 1 (a :: Str.split_go "/tree/" (b ++ rest) 0) []
                 = hd [] (Str.split_go "/tree/" (b ++ rest) 0)).
  { simpl. by destruct (Str.split_go "/tree/" (b ++ rest) 0). }
  rewrite Hnth, split_go_hd_skip by done.
  set (X := hd [] (Str.split_go "/tree/" rest 0)).
  assert (HX : X = [] \/ exists y, X = "/"%char :: y).
  { subst X. destruct rest as [|c rest]; [by left |]. subst c.
    cbn [Str.split_go]. destruct (Str.startswith "/tree/" ("/"%char :: rest)).
    - by left.
    - right. destruct (Str.split_go "/tree/" rest 0); simpl; eauto. }
  unfold Str.find.
  rewrite (index_from_skip "/"%char [] b X 0) by done.
  destruct HX as [-> | [y ->]].
  - simpl. by rewrite app_nil_r.
  - rewrite index_from_here by done.
    destruct (Z.leb_spec 0 (Z.of_nat (0 + length b))); [|lia].
    rewrite upto_nat. simpl. by rewrite take_app_length.
Qed.

Lemma trim_repo_path_bare r : trim_repo_path r = bare_repo_path r.
Proof. reflexivity. Qed.

Lemma clean_scheme_http h : clean_scheme h = "http" \/ clean_scheme h = "https".
Proof. destruct h; auto. Qed.

Lemma normalize_github ws1 h p q f ws2 :
  github_input ws1 h p q f ws2 ->
  _normalize_repository_url (github_url ws1 h p q f ws2)
  = clean_scheme h ++ "://" ++ "github.com" ++ ("/" ++ p) ++ url_tail q f.
Proof.
  intros [H1 H2 Hp _ _ Ht Hs He]. unfold _normalize_repository_url, github_url.
  set (s := prefix_text h ++ "github.com/" ++ p ++ url_tail q f).
  rewrite strip_around; try done.
  2:{ intros c Hc. subst s. by destruct h; injection Hc as <-. }
  2:{ intros c Hc. subst s. rewrite !app_assoc in Hc.
      destruct (url_tail q f) as [|t tl] eqn:Et using rev_ind.
      - rewrite app_nil_r in Hc.
        destruct p as [|x p _] using rev_ind.
        + rewrite app_nil_r in Hc. by destruct h; injection Hc as <-.
        + rewrite app_assoc, last_snoc in Hc. apply (He eq_refl).
          by rewrite last_snoc.
      - rewrite app_assoc, last_snoc in Hc. injection Hc as ->.
        destruct (Str.isspace c) eqn:E; [|done]. exfalso.
        apply (tail_no_space q f c Ht E). rewrite Et.
        apply in_app_iff. right. by left. }
  assert (Str.nonempty s = true) as -> by (subst s; by destruct h).
  cbn [negb]. subst s. destruct h; cbn [prefix_text clean_scheme].
  - assert (Str.contains "://" ("https://" ++ "github.com/" ++ p ++ url_tail q f)
            = true) as -> by apply (contains_here "://" "https").
    done.
  - assert (Str.contains "://" ("http://" ++ "github.com/" ++ p ++ url_tail q f)
            = true) as -> by apply (contains_here "://" "http").
    done.
  - assert (Str.contains "://" ("" ++ "github.com/" ++ p ++ url_tail q f)
            = false) as ->; [|done].
    etrans; [|exact (Hs eq_refl)].
    apply (contains_skip ":"%char "//" ("github.com/" ++ p) (url_tail q f)).
    apply not_In_app.
    + by apply (not_In_by (fun c => negb (Str.eqb c ":"))).
    + by apply (not_In_by _ _ _ Hp).
Qed.

Lemma no_colon_after_host p :
  forallb path_char p = true -> ~ In ":"%char ("github.com/" ++ p).
Proof.
  intros Hp. apply not_In_app.
  - by apply (not_In_by (fun c => negb (Str.eqb c ":"))).
  - by apply (not_In_by _ _ _ Hp).
Qed.

(** The two [replace] calls of lines 77 leave the host and the path. *)
Lemma replace_schemes h p :
  forallb path_char p = true ->
  Str.replace "http://" ""
    (Str.replace "https://" "" (clean_scheme h ++ "://" ++ "github.com" ++ ("/" ++ p)))
  = "github.com/" ++ p.
Proof.
  intros Hp. pose proof (no_colon_after_host p Hp) as Hc.
  assert (A1 : Str.contains "https://" ("github.com/" ++ p) = false).
  { apply (contains_absent _ ":"%char); [|done]. simpl. auto 10. }
  assert (A2 : Str.contains "http://" ("github.com/" ++ p) = false).
  { apply (contains_absent _ ":"%char); [|done]. simpl. auto 10. }
  assert (Hclean : clean_scheme h = "http" \/ clean_scheme h = "https")
    by apply clean_scheme_http.
  unfold Str.replace. destruct Hclean as [-> | ->].
  - assert (Str.contains "https://" ("http" ++ "://" ++ "github.com" ++ ("/" ++ p))
            = false) as B.
    { cbn [app]. do 5 (rewrite contains_cons; cbn [Str.startswith Str.eqb Ascii.eqb Bool.eqb andb orb]).
      apply (contains_absent _ ":"%char); [simpl; auto 10 |].
      apply not_In_cons; [done |]. apply not_In_cons; [done |]. exact Hc. }
    rewrite (replace_go_absent _ _ _ B).
    change ("http" ++ "://" ++ "github.com" ++ "/" ++ p)
      with ("http://" ++ ("github.com/" ++ p)).
    rewrite replace_go_prefix by done. by rewrite (replace_go_absent _ _ _ A2).
  - change ("https" ++ "://" ++ "github.com" ++ "/" ++ p)
      with ("https://" ++ ("github.com/" ++ p)).
    rewrite replace_go_prefix by done. rewrite (replace_go_absent _ _ _ A1).
    change ("" ++ ("github.com/" ++ p)) with ("github.com/" ++ p).
    by rewrite (replace_go_absent _ _ _ A2).
Qed.

Lemma github_raw_base_clean h p :
  forallb path_char p = true -> Str.startswith "/" p = false ->
  _github_raw_base (clean_scheme h ++ "://" ++ "github.com" ++ ("/" ++ p))
  = raw_base_of (bare_repo_path (split_tree p).1) (split_tree p).2.
Proof.
  intros Hp Hs. unfold _github_raw_base. rewrite replace_schemes by done.
  assert (Str.find "github.com/" ("github.com/" ++ p) = 0) as ->.
  { unfold Str.find. by rewrite index_from_here by apply startswith_app. }
  cbn [Z.leb Z.compare].
  change (0 + Z.of_nat (length "github.com/")) with (Z.of_nat 11).
  rewrite from_nat.
  change (drop 11 ("github.com/" ++ p)) with p.
  rewrite (lstrip_head "/" p).
  2:{ intros c Hc. destruct p as [|d p]; [done |]. injection Hc as ->.
      simpl in Hs. rewrite andb_true_r in Hs. simpl.
      rewrite orb_false_r. unfold Str.eqb in *.
      by rewrite Ascii.eqb_sym. }
  destruct (split_tree p) as [r b]. by rewrite trim_repo_path_bare.
Qed.

Lemma build_raw_base_github ws1 h p q f ws2 :
  github_input ws1 h p q f ws2 ->
  _build_raw_base (github_url ws1 h p q f ws2)
  = Ok (raw_base_of (bare_repo_path (split_tree p).1) (split_tree p).2).
Proof.
  intros Hin. unfold _build_raw_base. rewrite normalize_github by done.
  destruct Hin as [H1 H2 Hp Hs Hraw Ht _ _].
  rewrite strip_query_and_fragment_loose;
    [|apply clean_scheme_http | done | done | by split | done].
  cbn [mbind result_bind].
  assert (Str.contains "raw.githubusercontent.com"
            (clean_scheme h ++ "://" ++ "github.com" ++ "/" ++ p) = false) as ->.
  { etrans; [|exact Hraw].
    replace (clean_scheme h ++ "://" ++ "github.com" ++ "/" ++ p)
      with ((clean_scheme h ++ "://github.com/") ++ p) by (by destruct h).
    apply (contains_skip "r"%char "aw.githubusercontent.com").
    apply (not_In_by (fun c => negb (Str.eqb c "r"))); [|done].
    by destruct h. }
  assert (Str.contains "github.com/"
            (clean_scheme h ++ "://" ++ "github.com" ++ "/" ++ p) = true) as ->.
  { replace (clean_scheme h ++ "://" ++ "github.com" ++ "/" ++ p)
      with ((clean_scheme h ++ "://") ++ "github.com/" ++ p) by (by destruct h).
    apply contains_here. }
  by rewrite (github_raw_base_clean h p).
Qed.

Lemma startswith_sep t seg c s :
  ~ In c t -> ~ In c seg ->
  Str.startswith (t ++ [c]) (seg ++ c :: s) = Str.eq_str t seg.
Proof.
  revert seg. induction t as [|a t IH]; intros [|x seg] Ht Hs; simpl.
  - by rewrite eqb_same.
  - rewrite andb_true_r. apply eqb_false. intros ->. apply Hs. by left.
  - apply andb_false_iff. left. apply eqb_false. intros ->. apply Ht. by left.
  - f_equal. apply IH; intros H; [apply Ht | apply Hs]; by right.
Qed.

Lemma startswith_needs c sub s :
  In c sub -> ~ In c s -> Str.startswith sub s = false.
Proof.
  intros Hc Hs. destruct (Str.startswith sub s) eqn:E; [|done].
  apply startswith_inv in E as [t ->]. exfalso. apply Hs.
  apply in_app_iff. by left.
Qed.

(** Where [/tree/] can occur after the owner segment. *)
Lemma contains_tree_after_owner owner x :
  ~ In "/"%char owner ->
  Str.contains "/tree/" (owner ++ "/" ++ x)
  = Str.startswith "tree/" x || Str.contains "/tree/" x.
Proof.
  intros H. rewrite (contains_skip "/"%char "tree/") by done.
  change ("/" ++ x) with ("/"%char :: x). rewrite contains_cons.
  f_equal.
Qed.

Lemma endswith_app suffix s : Str.endswith suffix (s ++ suffix) = true.
Proof. unfold Str.endswith. rewrite rev_app_distr. apply startswith_app. Qed.

Lemma without_suffix_app suffix s : without_suffix suffix (s ++ suffix) = s.
Proof.
  unfold without_suffix. rewrite endswith_app, length_app.
  replace (length s + length suffix - length suffix)%nat with (length s) by lia.
  apply take_app_length.
Qed.

Lemma without_suffix_none suffix s :
  Str.endswith suffix s = false -> without_suffix suffix s = s.
Proof. intros H. unfold without_suffix. by rewrite H. Qed.

Lemma endswith_last c s d :
  last s = Some d -> c <> d -> Str.endswith [c] s = false.
Proof.
  intros Hl Hne. unfold Str.endswith. simpl rev.
  rewrite <- head_rev in Hl. destruct (rev s) as [|x r]; [done |].
  injection Hl as ->. by apply startswith_head_differs.
Qed.

Lemma startswith_before_sep sub r c x :
  ~ In c sub -> Str.startswith sub (r ++ c :: x) = Str.startswith sub r.
Proof.
  revert r. induction sub as [|a sub IH]; intros [|b r] H; simpl; try done.
  - apply andb_false_iff. left. apply eqb_false. intros ->. apply H. by left.
  - f_equal. apply IH. intros Hin. apply H. by right.
Qed.

(** A suffix without slash is looked for in the last segment only. *)
Lemma endswith_last_segment suffix a r :
  ~ In "/"%char suffix ->
  Str.endswith suffix (a ++ "/" ++ r) = Str.endswith suffix r.
Proof.
  intros H. unfold Str.endswith. rewrite !rev_app_distr. simpl rev at 2.
  rewrite <- app_assoc. apply startswith_before_sep.
  intros Hin. apply H. by apply in_rev.
Qed.

Lemma segment_last s : segment s -> exists d, last s = Some d /\ d <> "/"%char.
Proof.
  intros [Hne Hs]. destruct (last s) as [d|] eqn:E.
  - exists d. split; [done |]. intros ->. apply Hs.
    apply last_Some in E as [l ->]. apply in_app_iff. right. by left.
  - by apply last_None in E.
Qed.

Lemma segment_git repo : segment repo -> segment (repo ++ ".git").
Proof.
  intros [Hne Hs]. split.
  - by destruct repo.
  - apply not_In_app; [done |].
    by apply (not_In_by (fun c => negb (Str.eqb c "/"))).
Qed.

Lemma segment_not_tree repo : segment repo -> repo ++ ".git" <> "tree".
Proof.
  intros [Hne _] H. apply (f_equal length) in H. rewrite length_app in H.
  destruct repo; [done |]. simpl in H. lia.
Qed.

Lemma last_segment a r : segment r -> exists d, last (a ++ r) = Some d /\ d <> "/"%char.
Proof.
  intros Hr. destruct (segment_last r Hr) as (d & Hd & Hne).
  exists d. split; [|done]. rewrite last_app. by rewrite Hd.
Qed.

Lemma bare_segment owner seg :
  segment seg -> Str.endswith ".git" seg = false ->
  bare_repo_path (owner ++ "/" ++ seg) = owner ++ "/" ++ seg.
Proof.
  intros Hs Hg. unfold bare_repo_path.
  destruct (last_segment (owner ++ "/") seg Hs) as (d & Hd & Hne).
  rewrite <- app_assoc in Hd.
  rewrite (without_suffix_none "/") by (by apply (endswith_last _ _ d)).
  apply without_suffix_none.
  rewrite endswith_last_segment; [done |].
  by apply (not_In_by (fun c => negb (Str.eqb c "/"))).
Qed.

(** The four endings of a repository URL give the same repository path. *)
Lemma bare_owner_repo owner repo ending :
  segment repo -> Str.endswith ".git" repo = false ->
  In ending [""; "/"; ".git"; ".git/"] ->
  bare_repo_path (owner ++ "/" ++ repo ++ ending) = owner ++ "/" ++ repo.
Proof.
  intros Hr Hg He. pose proof (bare_segment owner repo Hr Hg) as Hbare.
  simpl in He. destruct He as [<- | [<- | [<- | [<- | []]]]].
  - by rewrite app_nil_r.
  - unfold bare_repo_path in *.
    replace (owner ++ "/" ++ repo ++ "/") with ((owner ++ "/" ++ repo) ++ "/")
      by (by rewrite <- !app_assoc).
    rewrite without_suffix_app.
    destruct (last_segment (owner ++ "/") repo Hr) as (d & Hd & Hne).
    rewrite <- app_assoc in Hd.
    by rewrite (without_suffix_none "/") in Hbare by (by apply (endswith_last _ _ d)).
  - unfold bare_repo_path.
    replace (owner ++ "/" ++ repo ++ ".git")
      with ((owner ++ "/" ++ repo) ++ ".git") by (by rewrite <- !app_assoc).
    rewrite (without_suffix_none "/").
    + apply without_suffix_app.
    + apply (endswith_last _ _ "t"%char); [|done].
      by rewrite last_app.
  - unfold bare_repo_path.
    replace (owner ++ "/" ++ repo ++ ".git/")
      with (((owner ++ "/" ++ repo) ++ ".git") ++ "/").
    + by rewrite !without_suffix_app.
    + rewrite <- !app_assoc. done.
Qed.

Lemma no_tree_in_segment seg ending :
  segment seg -> seg <> "tree" -> In ending [""; "/"] ->
  Str.startswith "tree/" (seg ++ ending) || Str.contains "/tree/" (seg ++ ending)
  = false.
Proof.
  intros [Hne Hs] Ht He. apply orb_false_iff.
  simpl in He. destruct He as [<- | [<- | []]].
  - rewrite app_nil_r. split.
    + apply (startswith_needs "/"%char); [simpl; auto 10 | done].
    + apply (contains_absent _ "/"%char); [simpl; auto 10 | done].
  - split.
    + assert (Str.startswith "tree/" (seg ++ "/") = Str.eq_str "tree" seg) as ->.
      { apply (startswith_sep "tree" seg "/"%char []); [|done].
        by apply (not_In_by (fun c => negb (Str.eqb c "/"))). }
      apply eq_str_false. congruence.
    + by rewrite (contains_skip "/"%char "tree/").
Qed.

Lemma no_tree_owner_repo owner repo ending :
  ~ In "/"%char owner -> segment repo -> repo <> "tree" ->
  In ending [""; "/"; ".git"; ".git/"] ->
  Str.contains "/tree/" (owner ++ "/" ++ repo ++ ending) = false.
Proof.
  intros Ho Hr Ht He. rewrite contains_tree_after_owner by done.
  simpl in He. destruct He as [<- | [<- | [<- | [<- | []]]]].
  - apply no_tree_in_segment; simpl; auto.
  - apply no_tree_in_segment; simpl; auto.
  - rewrite <- (app_nil_r (repo ++ ".git")).
    apply no_tree_in_segment; simpl; auto using segment_git, segment_not_tree.
  - replace (repo ++ ".git/") with ((repo ++ ".git") ++ "/")
      by (by rewrite <- app_assoc).
    apply no_tree_in_segment; simpl; auto using segment_git, segment_not_tree.
Qed.

Lemma first_tree_owner_repo owner repo dotgit :
  ~ In "/"%char owner -> segment repo -> repo <> "tree" ->
  In dotgit [""; ".git"] ->
  Str.contains "/tree/" ((owner ++ "/" ++ repo ++ dotgit) ++ "/tree") = false.
Proof.
  intros Ho Hr Ht Hd.
  assert (Hseg : segment (repo ++ dotgit) /\ repo ++ dotgit <> "tree").
  { simpl in Hd. destruct Hd as [<- | [<- | []]].
    - by rewrite app_nil_r.
    - auto using segment_git, segment_not_tree. }
  destruct Hseg as [[Hne Hs] Hnt].
  replace ((owner ++ "/" ++ repo ++ dotgit) ++ "/tree")
    with (owner ++ "/" ++ ((repo ++ dotgit) ++ "/" ++ "tree"))
    by (by rewrite <- !app_assoc).
  rewrite contains_tree_after_owner by done. apply orb_false_iff. split.
  - assert (Str.startswith "tree/" ((repo ++ dotgit) ++ "/" ++ "tree")
            = Str.eq_str "tree" (repo ++ dotgit)) as ->.
    { apply (startswith_sep "tree" (repo ++ dotgit) "/"%char "tree"); [|done].
      by apply (not_In_by (fun c => negb (Str.eqb c "/"))). }
    apply eq_str_false. congruence.
  - by rewrite (contains_skip "/"%char "tree/").
Qed.

(** C2, as amended. Take an input made of white space, one of
    [https://], [http://] or nothing, [github.com/], a path, an optional
    query and an optional fragment, and white space. The path holds none
    of TAB, CR and LF, which [urlsplit] deletes, and none of [:], [?],
    [#] and [;]; other white space may stand inside it, and at its end
    when a query or a fragment follows. The path does not start with a
    slash and does not contain [raw.githubusercontent.com]; the query
    holds no white space and no [#], the fragment no white space; and
    when no scheme is written, query and fragment hold no [://]. On such
    an input [_build_raw_base] returns
    [https://raw.githubusercontent.com/<repoPath>/refs/heads/<branch>/]
    where, when the path holds no [/tree/], <repoPath> is the whole path
    less one trailing slash and then one trailing [.git], and <branch> is
    [main]; and when the path is [a/tree/b] followed by nothing or by a
    slash and more, with this the first [/tree/] of the path and [b]
    without a slash, <repoPath> is [a] less one trailing slash and then
    one trailing [.git], and <branch> is [b]. In particular, for an
    owner and a repo that are not empty and hold no slash, the repo being
    other than [tree] and not ending with [.git]: for the path
    [<owner>/<repo>] followed by nothing, [/], [.git] or [.git/], and for
    [<owner>/<repo>[.git]/tree/<branch>[/...]], <repoPath> is exactly
    [<owner>/<repo>]. *)
Theorem build_raw_base_github_url ws1 h p q f ws2 :
  github_input ws1 h p q f ws2 ->
  let result := _build_raw_base (github_url ws1 h p q f ws2) in
  (Str.contains "/tree/" p = false ->
   result = Ok (raw_base_of (bare_repo_path p) DEFAULT_REPOSITORY_BRANCH))
  /\ (forall a branch rest,
        p = a ++ "/tree/" ++ branch ++ rest ->
        Str.contains "/tree/" (a ++ "/tree") = false ->
        ~ In "/"%char branch -> sub_path rest ->
        result = Ok (raw_base_of (bare_repo_path a) branch))
  /\ (forall owner repo,
        segment owner -> segment repo -> repo <> "tree" ->
        Str.endswith ".git" repo = false ->
        (forall ending,
           In ending [""; "/"; ".git"; ".git/"] ->
           p = owner ++ "/" ++ repo ++ ending ->
           result = Ok (raw_base_of (owner ++ "/" ++ repo) "main"))
        /\ (forall dotgit branch rest,
              In dotgit [""; ".git"] -> ~ In "/"%char branch -> sub_path rest ->
              p = (owner ++ "/" ++ repo ++ dotgit) ++ "/tree/" ++ branch ++ rest ->
              result = Ok (raw_base_of (owner ++ "/" ++ repo) branch))).
Proof.
  intros Hin result. subst result.
  rewrite (build_raw_base_github _ _ _ _ _ _ Hin).
  assert (Htree : forall a branch rest,
             p = a ++ "/tree/" ++ branch ++ rest ->
             Str.contains "/tree/" (a ++ "/tree") = false ->
             ~ In "/"%char branch -> sub_path rest ->
             Ok (raw_base_of (bare_repo_path (split_tree p).1) (split_tree p).2)
             = Ok (raw_base_of (bare_repo_path a) branch)).
  { intros a branch rest -> Ha Hb Hr. by rewrite split_tree_first. }
  split; [|split].
  - intros Hno. by rewrite split_tree_none.
  - exact Htree.
  - intros owner repo [_ Ho] Hr Ht Hg. split.
    + intros ending He ->.
      rewrite split_tree_none by (by apply no_tree_owner_repo).
      cbn [fst snd]. by rewrite bare_owner_repo.
    + intros dotgit branch rest Hd Hb Hrest Hp.
      rewrite (Htree _ _ _ Hp) by (done || by apply first_tree_owner_repo).
      rewrite bare_owner_repo; [done | done | done |].
      simpl in Hd |- *. destruct Hd as [<- | [<- | []]]; auto.
Qed.

(** ** Totality of the normalizer *)

Lemma incl_lstrip chars s : incl (Str.lstrip chars s) s.
Proof.
  induction s as [|c s IH]; simpl; [by intros ? [] |].
  destruct (Str.mem c chars); [by apply incl_tl | apply incl_refl].
Qed.

Lemma incl_lstrip_space s : incl (Str.lstrip_space s) s.
Proof.
  induction s as [|c s IH]; simpl; [by intros ? [] |].
  destruct (Str.isspace c); [by apply incl_tl | apply incl_refl].
Qed.

Lemma incl_strip s : incl (Str.strip s) s.
Proof.
  unfold Str.strip. intros c Hc. apply in_rev in Hc.
  apply incl_lstrip_space in Hc. apply in_rev in Hc.
  by apply incl_lstrip_space in Hc.
Qed.

Lemma incl_replace_go old s k : incl (Str.replace_go old "" s k) s.
Proof.
  revert k. induction s as [|c s IH]; intros k; simpl; [by intros ? [] |].
  destruct k; [|by apply incl_tl].
  destruct (Str.startswith old (c :: s)).
  - simpl. by apply incl_tl.
  - intros x [<- | Hx]; [by left | right; by apply (IH 0%nat)].
Qed.

Lemma incl_replace old s : incl (Str.replace old "" s) s.
Proof.
  destruct old as [|o old]; [|apply incl_replace_go].
  simpl. induction s as [|c s IH]; simpl; [by intros ? [] |].
  intros x [<- | Hx]; [by left | right; by apply IH].
Qed.

Lemma incl_take n (s : pystr) : incl (take n s) s.
Proof.
  revert n. induction s as [|c s IH]; intros [|n]; simpl; try (by intros ? []); try apply incl_refl.
  intros x [<- | Hx]; [by left | right; by apply (IH n)].
Qed.

Lemma incl_drop n (s : pystr) : incl (drop n s) s.
Proof.
  revert n. induction s as [|c s IH]; intros [|n]; simpl; try (by intros ? []); try apply incl_refl.
  apply incl_tl, IH.
Qed.

Lemma incl_upto i s : incl (Str.upto i s) s.
Proof. apply incl_take. Qed.

Lemma incl_from i s : incl (Str.from i s) s.
Proof. apply incl_drop. Qed.

Lemma incl_split_once c s :
  incl (Str.split_once c s).1 s /\ incl (Str.split_once c s).2 s.
Proof.
  induction s as [|d s [IH1 IH2]]; simpl; [by split; intros ? [] |].
  destruct (Str.eqb c d); simpl.
  - split; [by intros ? [] | by apply incl_tl, incl_refl].
  - destruct (Str.split_once c s) as [a b]. simpl in *. split.
    + intros x [<- | Hx]; [by left | right; by apply IH1].
    + by apply incl_tl.
Qed.

Lemma incl_splitnetloc url start :
  incl (_splitnetloc url start).1 url /\ incl (_splitnetloc url start).2 url.
Proof.
  unfold _splitnetloc. simpl. split.
  - eapply incl_tran; [apply incl_drop | apply incl_upto].
  - apply incl_from.
Qed.

Lemma incl_splitparams url :
  incl (_splitparams url).1 url /\ incl (_splitparams url).2 url.
Proof.
  unfold _splitparams.
  destruct (Str.contains "/" url);
    [destruct (_ <? 0) |]; simpl; split;
    (apply incl_refl || apply incl_upto || apply incl_from || by intros ? []).
Qed.

Lemma bracket_free_incl s t : incl s t -> bracket_free t -> bracket_free s.
Proof. intros H [H1 H2]. split; intros Hin; [apply H1 | apply H2]; by apply H. Qed.

Lemma bracket_free_app s t :
  bracket_free s -> bracket_free t -> bracket_free (s ++ t).
Proof. intros [A1 A2] [B1 B2]. split; by apply not_In_app. Qed.

Lemma bracket_free_nil : bracket_free [].
Proof. split; by intros []. Qed.

Lemma lower_char_bracket x b :
  b = "["%char \/ b = "]"%char -> Str.lower_char x = b -> x = b.
Proof.
  intros Hb.
  destruct x as [[] [] [] [] [] [] [] []]; vm_compute;
    destruct Hb as [-> | ->]; intros H; try discriminate H; reflexivity.
Qed.

Lemma bracket_free_lower s : bracket_free s -> bracket_free (Str.lower s).
Proof.
  intros [H1 H2]. unfold Str.lower.
  split; intros Hin; apply in_map_iff in Hin as (x & Hx & Hin);
    apply lower_char_bracket in Hx; auto; subst x; auto.
Qed.

Lemma bracket_free_contains s :
  bracket_free s -> Str.contains "[" s = false /\ Str.contains "]" s = false.
Proof. intros [H1 H2]. split; by apply contains_char_false. Qed.

Lemma split_once_free c s :
  bracket_free s ->
  bracket_free (Str.split_once c s).1 /\ bracket_free (Str.split_once c s).2.
Proof.
  intros H. destruct (incl_split_once c s) as [H1 H2].
  split; eauto using bracket_free_incl.
Qed.

Lemma urlsplit_tail_free sch nl u4 :
  bracket_free sch -> bracket_free nl -> bracket_free u4 ->
  _checknetloc nl = Ok tt ->
  exists r,
    (let '(url, fragment) :=
       if Str.contains "#" u4 then Str.split_once "#" u4 else (u4, "") in
     let '(url, query) :=
       if Str.contains "?" url then Str.split_once "?" url else (url, "") in
     _ ← _checknetloc nl;
     Ok {| scheme := sch; netloc := nl; path := url; params := "";
           query := query; fragment := fragment |}) = Ok r
    /\ parse_free r.
Proof.
  intros Hsch Hnl H4 Hck.
  assert (Hfrag : exists u5 fr,
             (if Str.contains "#" u4 then Str.split_once "#" u4 else (u4, ""))
             = (u5, fr) /\ bracket_free u5 /\ bracket_free fr).
  { destruct (Str.contains "#" u4).
    - destruct (split_once_free "#"%char u4 H4) as [A B].
      destruct (Str.split_once "#" u4) as [u5 fr]. by exists u5, fr.
    - exists u4, "". split; [done |]. split; [done | apply bracket_free_nil]. }
  destruct Hfrag as (u5 & fr & -> & H5 & Hfr).
  assert (Hq : exists u6 qu,
             (if Str.contains "?" u5 then Str.split_once "?" u5 else (u5, ""))
             = (u6, qu) /\ bracket_free u6 /\ bracket_free qu).
  { destruct (Str.contains "?" u5).
    - destruct (split_once_free "?"%char u5 H5) as [A B].
      destruct (Str.split_once "?" u5) as [u6 qu]. by exists u6, qu.
    - exists u5, "". split; [done |]. split; [done | apply bracket_free_nil]. }
  destruct Hq as (u6 & qu & -> & H6 & Hqu). rewrite Hck.
  eexists. split; [done |].
  unfold parse_free. simpl. auto 10 using bracket_free_nil.
Qed.

(** [urlsplit] accepts every URL without square brackets. *)
Lemma urlsplit_free url :
  bracket_free url -> exists r, urlsplit url = Ok r /\ parse_free r.
Proof.
  intros Hfree. unfold urlsplit.
  set (u1 := Str.lstrip _WHATWG_C0_CONTROL_OR_SPACE url).
  assert (H1 : bracket_free u1) by (eapply bracket_free_incl; [apply incl_lstrip | done]).
  set (u2 := fold_left _ _ u1).
  assert (H2 : bracket_free u2).
  { subst u2. unfold _UNSAFE_URL_BYTES_TO_REMOVE. cbn [fold_left].
    repeat (eapply bracket_free_incl; [apply incl_replace |]). done. }
  clearbody u2. clear u1 H1 Hfree.
  set (cond := (0 <? Str.find ":" u2) && _ && _).
  assert (Hpair : exists sch u3,
             (if cond then (Str.lower (Str.upto (Str.find ":" u2) u2),
                            Str.from (Str.find ":" u2 + 1) u2)
              else ("", u2)) = (sch, u3)
             /\ bracket_free sch /\ bracket_free u3).
  { destruct cond.
    - eexists _, _. split; [done |]. split.
      + apply bracket_free_lower. eapply bracket_free_incl; [apply incl_upto | done].
      + eapply bracket_free_incl; [apply incl_from | done].
    - eexists _, _. split; [done |]. split; [apply bracket_free_nil | done]. }
  destruct Hpair as (sch & u3 & -> & Hsch & H3). clearbody cond.
  cbv beta iota.
  destruct (Str.eq_str (take 2 u3) "//").
  - destruct (incl_splitnetloc u3 2) as [I1 I2].
    pose proof (checknetloc_ok _ (splitnetloc_no_slash u3 2)) as Hck.
    destruct (_splitnetloc u3 2) as [nl u4]. simpl in I1, I2, Hck.
    assert (Hnl : bracket_free nl) by (by eapply bracket_free_incl).
    cbv zeta. destruct (bracket_free_contains nl Hnl) as [-> ->].
    cbn [andb orb negb].
    apply (urlsplit_tail_free sch nl u4); [done | done | | done].
    by eapply bracket_free_incl.
  - apply (urlsplit_tail_free sch "" u3);
      [done | apply bracket_free_nil | done | done].
Qed.

Lemma urlparse_free url :
  bracket_free url -> exists r, urlparse url = Ok r /\ parse_free r.
Proof.
  intros H. destruct (urlsplit_free url H) as (r & Hr & Hfree).
  unfold urlparse. rewrite Hr. cbn [mbind result_bind].
  destruct (in_list (scheme r) uses_params && Str.contains ";" (path r));
    [|by exists r].
  destruct Hfree as (A & B & C & D & E & F).
  destruct (incl_splitparams (path r)) as [I1 I2].
  destruct (_splitparams (path r)) as [u pa]. simpl in I1, I2.
  eexists. split; [done |]. unfold parse_free. simpl.
  repeat split; try done; try apply A; try apply B; try apply E; try apply F;
    try (by apply (bracket_free_incl _ _ I1)); try (by apply (bracket_free_incl _ _ I2)).
Qed.

Lemma bracket_free_const s :
  forallb (fun c => negb (Str.mem c "[]")) s = true -> bracket_free s.
Proof. intros H. split; by apply (not_In_by _ _ _ H). Qed.

Lemma geturl_free r : parse_free r -> bracket_free (geturl r).
Proof.
  intros (A & B & C & D & E & F). unfold geturl, urlunparse, urlunsplit.
  repeat match goal with
         | |- context [if ?c then _ else _] => destruct c
         end;
    repeat (apply bracket_free_app || assumption
            || (apply bracket_free_const; reflexivity)).
Qed.

Lemma normalize_free url :
  bracket_free url -> bracket_free (_normalize_repository_url url).
Proof.
  intros H. unfold _normalize_repository_url.
  assert (Hs : bracket_free (Str.strip url))
    by (eapply bracket_free_incl; [apply incl_strip | done]).
  destruct (negb (Str.nonempty (Str.strip url))); [done |].
  destruct (negb (Str.contains "://" (Str.strip url))); [|done].
  apply bracket_free_app; [by apply bracket_free_const | done].
Qed.

Lemma strip_query_and_fragment_free url :
  bracket_free url ->
  exists clean, _strip_query_and_fragment url = Ok clean /\ bracket_free clean.
Proof.
  intros H. destruct (urlparse_free url H) as (r & Hr & A & B & C & D & E & F).
  unfold _strip_query_and_fragment. rewrite Hr. cbn [mbind result_bind].
  eexists. split; [done |]. apply geturl_free.
  unfold parse_free. simpl. auto 10 using bracket_free_nil.
Qed.

Lemma strip_file_name_free url :
  bracket_free url -> exists u, _strip_file_name url = Ok u.
Proof.
  intros H. destruct (urlparse_free url H) as (r & Hr & _).
  unfold _strip_file_name. rewrite Hr. cbn [mbind result_bind].
  destruct (Str.endswith "/" (path r)); eauto.
Qed.

Lemma urlsplit_raises url e :
  urlsplit url = Raise e -> exists msg, e = ValueError msg.
Proof.
  unfold urlsplit.
  destruct (if _ && _ && _ then _ else _) as [sch u3].
  destruct (Str.eq_str (take 2 u3) "//").
  - destruct (_splitnetloc u3 2) as [nl u4]. cbv zeta.
    destruct (_ || _).
    + intros [= <-]. eauto.
    + destruct (_ && _).
      * destruct (bracketed_netloc_error nl).
        -- intros [= <-]. eauto.
        -- cbn [mbind result_bind].
           destruct (if Str.contains "#" u4 then _ else _) as [a b].
           destruct (if Str.contains "?" a then _ else _).
           destruct (_checknetloc nl) eqn:E; [done |].
           intros [= <-]. by apply (checknetloc_raises nl).
      * cbn [mbind result_bind].
        destruct (if Str.contains "#" u4 then _ else _) as [a b].
        destruct (if Str.contains "?" a then _ else _).
        destruct (_checknetloc nl) eqn:E; [done |].
        intros [= <-]. by apply (checknetloc_raises nl).
  - cbn [mbind result_bind].
    destruct (if Str.contains "#" u3 then _ else _) as [a b].
    by destruct (if Str.contains "?" a then _ else _).
Qed.

Lemma urlparse_raises url e :
  urlparse url = Raise e -> exists msg, e = ValueError msg.
Proof.
  unfold urlparse. destruct (urlsplit url) as [r|e'] eqn:E.
  - cbn [mbind result_bind]. destruct (_ && _); [|done].
    by destruct (_splitparams (path r)).
  - cbn [mbind result_bind]. intros [= <-]. by apply (urlsplit_raises url).
Qed.

Lemma strip_file_name_raises url e :
  _strip_file_name url = Raise e -> exists msg, e = ValueError msg.
Proof.
  unfold _strip_file_name. destruct (urlparse url) as [r|e'] eqn:E.
  - cbn [mbind result_bind]. by destruct (Str.endswith "/" (path r)).
  - cbn [mbind result_bind]. intros [= <-]. by apply (urlparse_raises url).
Qed.

(** C8, as amended. On a text of code points below 256, the texts of
    this development, [_build_raw_base] is a function of its argument
    that returns a string whenever the text holds no square bracket, the
    empty and the blank text among them; and when it does not return,
    what it raises is a [ValueError], which comes from [urlsplit]. *)
Theorem build_raw_base_total_without_brackets url :
  (bracket_free url -> exists s, _build_raw_base url = Ok s)
  /\ (forall e, _build_raw_base url = Raise e -> exists msg, e = ValueError msg).
Proof.
  unfold _build_raw_base. split.
  - intros H. apply normalize_free in H.
    destruct (strip_query_and_fragment_free _ H) as (clean & -> & Hc).
    cbn [mbind result_bind].
    destruct (strip_file_name_free clean Hc) as (u & Hu).
    destruct (Str.contains "raw.githubusercontent.com" clean);
      [rewrite Hu; cbn [mbind result_bind]; eauto |].
    destruct (Str.contains "github.com/" clean); [eauto |].
    rewrite Hu. cbn [mbind result_bind]. eauto.
  - intros e.
    destruct (_strip_query_and_fragment _) as [clean|e'] eqn:E.
    + cbn [mbind result_bind].
      assert (Hfile : (u ← _strip_file_name clean; Ok (_ensure_trailing_slash u))
                      = Raise e -> exists msg, e = ValueError msg).
      { destruct (_strip_file_name clean) as [u|e''] eqn:E2; [done |].
        cbn [mbind result_bind]. intros [= <-].
        by apply (strip_file_name_raises clean). }
      destruct (Str.contains "raw.githubusercontent.com" clean); [done |].
      by destruct (Str.contains "github.com/" clean).
    + cbn [mbind result_bind]. intros [= <-].
      unfold _strip_query_and_fragment in E.
      destruct (urlparse _) as [r|e''] eqn:E2; [done |].
      cbn [mbind result_bind] in E. injection E as <-.
      by apply (urlparse_raises _ _ E2).
Qed.

(** Whatever the interpreter checks inside balanced brackets, an opening
    bracket alone in the network location makes [urlsplit] raise. *)
Lemma build_raw_base_open_bracket :
  _build_raw_base "http://[" = Raise (ValueError "Invalid IPv6 URL").
Proof. reflexivity. Qed.

(** ** Tags *)

Lemma tag_char_alphabet c :
  Str.is_upper c || Str.is_lower c || Str.eqb c "_"%char = Str.mem c tag_alphabet.
Proof. destruct c as [[] [] [] [] [] [] [] []]; reflexivity. Qed.

Lemma fullmatch_tag_valid seg : fullmatch_tag seg = true <-> valid_tag seg.
Proof.
  unfold fullmatch_tag, valid_tag.
  rewrite andb_true_iff, forallb_forall, List.Forall_forall. split.
  - intros [Hne H]. split; [by destruct seg |].
    intros c Hc. apply mem_In. rewrite <- tag_char_alphabet. by apply H.
  - intros [Hne H]. split; [by destruct seg |].
    intros c Hc. rewrite tag_char_alphabet. apply mem_In. by apply H.
Qed.

Lemma invalid_tags_spec t seg :
  In seg (invalid_tags t) <-> In seg (Str.split "," t) /\ ~ valid_tag seg.
Proof.
  unfold invalid_tags. rewrite filter_In, negb_true_iff.
  rewrite <- fullmatch_tag_valid. split; intros [H1 H2]; (split; [done |]).
  - congruence.
  - destruct (fullmatch_tag seg); [exfalso; by apply H2 | done].
Qed.

Lemma snoc_neq {A} (l : list A) x : l ++ [x] <> l.
Proof.
  intros H. apply (f_equal length) in H. rewrite length_app in H. simpl in H. lia.
Qed.

Lemma nonempty_false s : Str.nonempty s = false <-> s = [].
Proof. by destruct s. Qed.

Lemma dict_get_missing k d : dict_has k d = false -> dict_get k d = JNull.
Proof.
  induction d as [|[k' v] d IH]; simpl; [done |].
  destruct (Str.eq_str k k'); [done | apply IH].
Qed.

(** C7. The tag check adds an error exactly when the [tags] value is
    missing, not a string, empty after trimming, holds a space, or has a
    comma-separated segment that is not one or more ASCII letters or
    underscores; it adds a single message, and that of the last kind lists
    every offending segment; of the values ["a b,c"], ["a,b_c,D"] and
    ["a,1b"], the first fails, the second passes and the third fails
    with ["1b"] listed. *)
Theorem check_tags_exact package_label tags st :
  let st' := check_tags package_label tags st in
  (tags_rejected tags <-> errors st' <> errors st)
  /\ (~ tags_rejected tags -> st' = st)
  /\ (tags_rejected tags -> exists msg, st' = add_error st msg)
  /\ (forall t,
        tags = JStr t -> Str.strip t <> [] -> ~ In " "%char t ->
        (exists seg, In seg (Str.split "," t) /\ ~ valid_tag seg) ->
        exists bad,
          st' = add_error st ("ERROR: Invalid tag(s) ("
                                ++ _format_value (JArr (map JStr bad))
                                ++ in_label package_label)
          /\ forall seg,
               In seg bad <-> In seg (Str.split "," t) /\ ~ valid_tag seg)
  /\ (forall missing, dict_has "tags" missing = false ->
        tags_rejected (dict_get "tags" missing))
  /\ tags_rejected (JStr "a b,c")
  /\ ~ tags_rejected (JStr "a,b_c,D")
  /\ check_tags package_label (JStr "a,1b") st
     = add_error st ("ERROR: Invalid tag(s) ([" ++ [quote] ++ "1b" ++ [quote]
                       ++ "]) in " ++ package_label ++ ".").
Proof.
  intros st'.
  assert (Hcases :
    (tags_rejected tags /\ exists msg, st' = add_error st msg)
    \/ (~ tags_rejected tags /\ st' = st)).
  { subst st'. unfold check_tags. destruct tags as [| | |t| |];
      try (left; split; [exact I | eauto]).
    destruct (Str.nonempty (Str.strip t)) eqn:E1; cbn [negb].
    2:{ left. split; [|eauto]. left. by apply nonempty_false. }
    destruct (Str.contains " " t) eqn:E2.
    { left. split; [|eauto]. right. left. by apply contains_char. }
    destruct (invalid_tags t) as [|seg bad] eqn:E3.
    - right. split; [|done]. intros [H | [H | (seg & Hs & Hv)]].
      + rewrite H in E1. done.
      + apply contains_char in H. congruence.
      + assert (In seg (invalid_tags t)) by (by apply invalid_tags_spec).
        rewrite E3 in H. done.
    - left. split; [|eauto]. right. right. exists seg.
      apply invalid_tags_spec. rewrite E3. by left. }
  split; [|split; [|split; [|split; [|split; [|split; [|split]]]]]].
  - destruct Hcases as [[H (msg & ->)] | [H ->]]; split; try done.
    intros _. simpl. apply snoc_neq.
  - intros H. destruct Hcases as [[H' _] | [_ ->]]; done.
  - intros H. destruct Hcases as [[_ H'] | [H' _]]; done.
  - intros t -> Hne Hsp Hbad. subst st'. unfold check_tags.
    destruct (Str.nonempty (Str.strip t)) eqn:E1;
      [|by apply nonempty_false in E1]. cbn [negb].
    assert (Str.contains " " t = false) as -> by (by apply contains_char_false).
    destruct (invalid_tags t) as [|seg bad] eqn:E3.
    + destruct Hbad as (seg & Hseg). apply invalid_tags_spec in Hseg.
      rewrite E3 in Hseg. done.
    + exists (seg :: bad). split; [done |]. intros s. rewrite <- E3.
      apply invalid_tags_spec.
  - intros missing H. by rewrite dict_get_missing.
  - right. left. simpl. auto.
  - intros [H | [H | (seg & Hs & Hv)]].
    + by vm_compute in H.
    + simpl in H. repeat (destruct H as [H | H]; [discriminate H |]). done.
    + assert (Hin : In seg (invalid_tags "a,b_c,D"))
        by (by apply invalid_tags_spec).
      by vm_compute in Hin.
  - reflexivity.
Qed.

(** ** Dictionaries *)

Lemma dict_get_set k k' v d :
  dict_get k (dict_set k' v d)
  = if Str.eq_str k k' then v else dict_get k d.
Proof.
  induction d as [|[k0 v0] d IH]; simpl.
  - by destruct (Str.eq_str k k').
  - destruct (Str.eq_str k' k0) eqn:E0; simpl.
    + apply eq_str_true in E0 as <-.
      by destruct (Str.eq_str k k').
    + destruct (Str.eq_str k k0) eqn:E1; [|done].
      apply eq_str_true in E1 as <-.
      destruct (Str.eq_str k k') eqn:E2; [|done].
      apply eq_str_true in E2 as <-. by rewrite eq_str_same in E0.
Qed.

Lemma dict_get_pop k k' d :
  Str.eq_str k k' = false -> dict_get k (dict_pop k' d) = dict_get k d.
Proof.
  intros H. unfold dict_pop. induction d as [|[k0 v0] d IH]; simpl; [done |].
  destruct (Str.eq_str k' k0) eqn:E0; simpl.
  - apply eq_str_true in E0 as <-. by rewrite H.
  - by rewrite IH.
Qed.

Lemma dict_has_pop k d : dict_has k (dict_pop k d) = false.
Proof.
  unfold dict_pop. induction d as [|[k0 v0] d IH]; simpl; [done |].
  destruct (Str.eq_str k k0) eqn:E0; simpl; [done |]. by rewrite E0.
Qed.

Lemma dict_has_set k k' v d :
  dict_has k (dict_set k' v d) = Str.eq_str k k' || dict_has k d.
Proof.
  induction d as [|[k0 v0] d IH]; simpl.
  - by rewrite orb_false_r.
  - destruct (Str.eq_str k' k0) eqn:E0; simpl.
    + apply eq_str_true in E0 as <-.
      by destruct (Str.eq_str k k'), (dict_has k d).
    + rewrite IH. by destruct (Str.eq_str k k0), (Str.eq_str k k').
Qed.

(** ** The output record *)

Lemma media_folder_effective d rel :
  effective_folder (dict_get "mediaFolder" d) rel (media_folder d rel).
Proof.
  unfold effective_folder, media_folder.
  destruct (dict_get "mediaFolder" d) as [| | |s| |]; try done.
  destruct (Str.nonempty (Str.strip s)); [|done].
  by destruct (Str.startswith "/" (Str.strip s)).
Qed.

(** C6, as amended. In the record made from a manifest: [id] is the
    resolved identity and [userName] the name taken from the path; there is
    no [mediaFolder] key; every string entry of [images] and a
    [thumbnail] that is a string and not blank are replaced by
    [<rawBase>packages<folder>/<name>], the name trimmed of white space and
    then of leading slashes (a blank [thumbnail] and an entry that is
    no string stay as they are); the folder is the trimmed
    [mediaFolder] when that is a string and not blank, with a slash put
    before it when it has none, and [/<packageDir>] otherwise; every other
    key keeps its value. When the manifest lies in a directory below the
    packages root, [userName] is the first segment of that directory. *)
Theorem updated_manifest_record manifest package_id username rel_dir raw_base :
  let record := updated_manifest manifest package_id username rel_dir raw_base in
  let folder := media_folder manifest rel_dir in
  effective_folder (dict_get "mediaFolder" manifest) rel_dir folder
  /\ dict_get "id" record = id_json package_id
  /\ dict_get "userName" record = JStr username
  /\ dict_has "mediaFolder" record = false
  /\ (forall l, dict_get "images" manifest = JArr l ->
        dict_get "images" record
        = JArr (map (fun image =>
                       match image with
                       | JStr name => JStr (trimmed_media_url raw_base folder name)
                       | _ => image
                       end) l))
  /\ (forall name, dict_get "thumbnail" manifest = JStr name ->
        dict_get "thumbnail" record
        = JStr (if Str.nonempty (Str.strip name)
                then trimmed_media_url raw_base folder name
                else name))
  /\ (forall k, ~ In k rewritten_keys ->
        dict_get k record = dict_get k manifest)
  /\ (forall segment dir,
        username = hd "" (segment :: dir ++ ["manifest.json"]) ->
        rel_dir = as_posix (removelast (segment :: dir ++ ["manifest.json"])) ->
        username = segment /\ rel_dir = Str.join "/" (segment :: dir)).
Proof.
  intros record folder.
  assert (Hfolder : media_folder (dict_set "userName" (JStr username)
                                    (dict_set "id" (id_json package_id) manifest))
                      rel_dir = folder).
  { unfold folder, media_folder. by rewrite !dict_get_set. }
  set (u2 := dict_pop "mediaFolder"
               (dict_set "userName" (JStr username)
                  (dict_set "id" (id_json package_id) manifest))).
  assert (Hu2 : forall k, Str.eq_str k "mediaFolder" = false ->
                  dict_get k u2
                  = if Str.eq_str k "userName" then JStr username
                    else if Str.eq_str k "id" then id_json package_id
                    else dict_get k manifest).
  { intros k Hk. subst u2. by rewrite dict_get_pop, !dict_get_set. }
  set (u3 := match dict_get "images" u2 with
             | JArr l => dict_set "images"
                           (JArr (map (normalized_image raw_base folder) l)) u2
             | _ => u2
             end).
  assert (Hu3 : forall k, Str.eq_str k "images" = false ->
                  dict_get k u3 = dict_get k u2).
  { intros k Hk. subst u3. destruct (dict_get "images" u2); try done.
    by rewrite dict_get_set, Hk. }
  assert (Hrec : record
                 = match dict_get "thumbnail" u3 with
                   | JStr name =>
                       if Str.nonempty (Str.strip name)
                       then dict_set "thumbnail"
                              (JStr (media_url raw_base folder name)) u3
                       else u3
                   | _ => u3
                   end).
  { unfold record, updated_manifest. cbv zeta. by rewrite Hfolder. }
  assert (Hget : forall k, Str.eq_str k "thumbnail" = false ->
                   dict_get k record = dict_get k u3).
  { intros k Hk. rewrite Hrec. destruct (dict_get "thumbnail" u3); try done.
    destruct (Str.nonempty (Str.strip s)); [|done]. by rewrite dict_get_set, Hk. }
  assert (Hhas : dict_has "mediaFolder" record = false).
  { assert (H2 : dict_has "mediaFolder" u2 = false) by apply dict_has_pop.
    assert (H3 : dict_has "mediaFolder" u3 = false).
    { subst u3. destruct (dict_get "images" u2); try done.
      by rewrite dict_has_set, H2. }
    rewrite Hrec. destruct (dict_get "thumbnail" u3); try done.
    destruct (Str.nonempty (Str.strip s)); [|done]. by rewrite dict_has_set, H3. }
  split; [apply media_folder_effective |].
  split; [by rewrite Hget, Hu3, Hu2 |].
  split; [by rewrite Hget, Hu3, Hu2 |].
  split; [done |].
  split; [|split; [|split]].
  - intros l Hl. rewrite Hget by done.
    assert (H2 : dict_get "images" u2 = JArr l) by (by rewrite Hu2).
    subst u3. rewrite H2, dict_get_set. done.
  - intros name Hn.
    assert (H3 : dict_get "thumbnail" u3 = JStr name)
      by (by rewrite Hu3, Hu2).
    rewrite Hrec, H3. destruct (Str.nonempty (Str.strip name)); [|done].
    by rewrite dict_get_set.
  - intros k Hk.
    assert (Hne : forall k', In k' rewritten_keys -> Str.eq_str k k' = false).
    { intros k' Hk'. apply eq_str_false. by intros ->. }
    rewrite Hget, Hu3, Hu2 by (apply Hne; simpl; auto 10).
    by rewrite !Hne by (simpl; auto 10).
  - intros seg dir -> ->. split; [done |].
    replace (seg :: dir ++ ["manifest.json"]) with ((seg :: dir) ++ ["manifest.json"]) by done.
    by rewrite removelast_last.
Qed.

(** ** The scan *)

Lemma only_errors_refl st : only_errors_added st st.
Proof. repeat split. exists []. by rewrite app_nil_r. Qed.

Lemma only_errors_trans st1 st2 st3 :
  only_errors_added st1 st2 -> only_errors_added st2 st3 ->
  only_errors_added st1 st3.
Proof.
  intros (A1 & A2 & A3 & A4 & e1 & A5) (B1 & B2 & B3 & B4 & e2 & B5).
  repeat split; try congruence.
  exists (e1 ++ e2). by rewrite B5, A5, app_assoc.
Qed.

Lemma only_errors_add st msg : only_errors_added st (add_error st msg).
Proof. repeat split. by exists [msg]. Qed.

Lemma only_errors_add_trans st st' msg :
  only_errors_added st st' -> only_errors_added st (add_error st' msg).
Proof. intros H. eapply only_errors_trans; [done | apply only_errors_add]. Qed.

Create HintDb scan discriminated.
#[local] Hint Resolve only_errors_refl only_errors_add only_errors_add_trans : scan.

Lemma check_thumbnail_errors w label dir v st :
  only_errors_added st (check_thumbnail w label dir v st).
Proof.
  unfold check_thumbnail. destruct v; auto with scan.
  destruct (negb _); auto with scan. destruct (negb _); auto with scan.
Qed.

Lemma check_image_errors w label dir st v :
  only_errors_added st (check_image w label dir st v).
Proof.
  unfold check_image. destruct v; auto with scan.
  destruct (negb _); auto with scan. destruct (negb _); auto with scan.
Qed.

Lemma check_images_errors w label dir v st :
  only_errors_added st (check_images w label dir v st).
Proof.
  unfold check_images. destruct v as [| | | |l|]; auto with scan.
  destruct l as [|x l]; auto with scan.
  set (st0 := if (8 <? _)%nat then _ else st).
  assert (H0 : only_errors_added st st0)
    by (subst st0; destruct (8 <? _)%nat; auto with scan).
  clearbody st0. revert st0 H0.
  induction (x :: l) as [|y l' IH]; intros st0 H0; simpl; [done |].
  apply IH. eapply only_errors_trans; [done | apply check_image_errors].
Qed.

Lemma check_repository_url_errors w label v st st' :
  check_repository_url w label v st = Ok st' -> only_errors_added st st'.
Proof.
  unfold check_repository_url. destruct v as [| | |url| |];
    try (intros [= <-]; auto with scan).
  destruct (negb (Str.nonempty _)); [intros [= <-]; auto with scan |].
  destruct (urlparse url) as [r|e]; [|done]. cbn [mbind result_bind].
  repeat (destruct (negb _); [intros [= <-]; auto with scan |]).
  intros [= <-]. auto with scan.
Qed.

Lemma check_tags_errors label v st :
  only_errors_added st (check_tags label v st).
Proof.
  unfold check_tags. destruct v; auto with scan.
  destruct (negb _); auto with scan. destruct (Str.contains _ _); auto with scan.
  destruct (invalid_tags s); auto with scan.
Qed.

Lemma check_b64_errors field noun limit label v st st' :
  check_b64 field noun limit label v st = Ok st' -> only_errors_added st st'.
Proof.
  unfold check_b64. destruct v as [| | |text| |];
    try (intros [= <-]; auto with scan).
  destruct (negb _); [intros [= <-]; auto with scan |].
  destruct (b64_text_length text) as [len|]; [|intros [= <-]; auto with scan].
  destruct (int_gt len limit) as [[]|]; cbn [mbind result_bind];
    try done; intros [= <-]; auto with scan.
Qed.

Lemma check_and_transform_ok w c label p manifest package_id st st' :
  check_and_transform w c label p manifest package_id st = Ok st' ->
  exists d st2,
    manifest = JObj d /\ only_errors_added st st2
    /\ st' = add_manifest st2
               (updated_manifest d package_id (hd "" p)
                  (as_posix (removelast p)) (repo_base c)).
Proof.
  unfold check_and_transform. destruct manifest as [| | | | |d]; try done.
  intros H. exists d.
  set (s1 := check_thumbnail _ _ _ _ st) in H.
  set (s2 := check_images _ _ _ _ s1) in H.
  destruct (check_repository_url w label _ s2) as [s3|] eqn:E3; [|done].
  cbn [mbind result_bind] in H.
  set (s4 := check_tags _ _ s3) in H.
  destruct (check_b64 "titleB64" _ _ _ _ s4) as [s5|] eqn:E5; [|done].
  cbn [mbind result_bind] in H.
  destruct (check_b64 "descriptionB64" _ _ _ _ s5) as [s6|] eqn:E6; [|done].
  cbn [mbind result_bind] in H. injection H as <-.
  exists s6. split; [done |]. split; [|done].
  eapply only_errors_trans; [apply check_thumbnail_errors |].
  eapply only_errors_trans; [apply check_images_errors |].
  eapply only_errors_trans; [by eapply check_repository_url_errors |].
  eapply only_errors_trans; [apply check_tags_errors |].
  eapply only_errors_trans; [by eapply check_b64_errors |].
  by eapply check_b64_errors.
Qed.

Lemma resolve_identity_frame w label dir st package_id st1 :
  resolve_identity w label dir st = (package_id, st1) ->
  manifests st1 = manifests st /\ seen_ids st1 = seen_ids st
  /\ exists extra, errors st1 = errors st ++ extra.
Proof.
  unfold resolve_identity.
  destruct (id_files st !! dir) as [[content|text]|].
  - intros [= <- <-]. repeat split. exists []. by rewrite app_nil_r.
  - intros [= <- <-]. repeat split. by eexists.
  - destruct (id_write_error w dir); intros [= <- <-]; repeat split; simpl.
    + by eexists.
    + exists []. by rewrite app_nil_r.
Qed.

Lemma register_identity_frame label package_id st :
  let st' := register_identity label package_id st in
  manifests st' = manifests st
  /\ (exists extra, errors st' = errors st ++ extra)
  /\ (errors st' = errors st ->
      exists s, package_id = Some s /\ Str.nonempty s = true
                /\ (s ∉ seen_ids st) /\ seen_ids st' = {[ s ]} ∪ seen_ids st).
Proof.
  unfold register_identity. destruct package_id as [s|]; simpl.
  2:{ repeat split; [by eexists |]. intros H. by apply snoc_neq in H. }
  destruct (Str.nonempty s) eqn:E; simpl.
  2:{ repeat split; [by eexists |]. intros H. by apply snoc_neq in H. }
  destruct (bool_decide (s ∈ seen_ids st)) eqn:Es; simpl.
  - repeat split; [by eexists |]. intros H. by apply snoc_neq in H.
  - repeat split; [exists []; by rewrite app_nil_r |].
    intros _. exists s. repeat split; try done.
    by apply bool_decide_eq_false in Es.
Qed.

(** C5, first part: an identity seen before gets the duplicate error and
    stays registered. *)
Lemma register_duplicate label s st :
  Str.nonempty s = true -> s ∈ seen_ids st ->
  let st' := register_identity label (Some s) st in
  errors st' = errors st ++ [duplicate_id_error label s]
  /\ s ∈ seen_ids st' /\ manifests st' = manifests st.
Proof.
  intros Hs Hin. unfold register_identity. rewrite Hs.
  rewrite bool_decide_eq_true_2 by done. simpl. repeat split.
  apply elem_of_union. by right.
Qed.

(** What a turn of the loop that raises nothing does. *)
Lemma process_manifest_ok w c st p st' :
  process_manifest w c st p = (st', None) ->
  (is_loaded (manifest_file w p) = false /\ exists msg, st' = add_error st msg)
  \/ (exists d package_id st1 st3,
        manifest_file w p = ReadOk (JObj d)
        /\ resolve_identity w (label_of p) (removelast p) st = (package_id, st1)
        /\ only_errors_added (register_identity (label_of p) package_id st1) st3
        /\ st' = add_manifest st3 (updated_manifest d package_id (hd "" p)
                                     (as_posix (removelast p)) (repo_base c))).
Proof.
  unfold process_manifest. fold (label_of p).
  destruct (manifest_file w p) as [manifest|text lineno colno|text].
  - destruct (resolve_identity w (label_of p) (removelast p) st)
      as [package_id st1] eqn:E1.
    destruct (check_and_transform _ _ _ _ _ _ _) as [st2|e] eqn:E2; [|done].
    intros [= <-]. right.
    apply check_and_transform_ok in E2 as (d & st3 & -> & H3 & ->).
    by exists d, package_id, st1, st3.
  - intros [= <-]. left. split; [done | by eexists].
  - intros [= <-]. left. split; [done | by eexists].
Qed.

Lemma process_manifest_errors w c st p st' :
  process_manifest w c st p = (st', None) ->
  exists extra, errors st' = errors st ++ extra.
Proof.
  intros H. apply process_manifest_ok in H
    as [[_ (msg & ->)] | (d & id & st1 & st3 & Hf & Hr & Ho & ->)].
  - by eexists.
  - apply resolve_identity_frame in Hr as (_ & _ & e1 & Hr).
    destruct (register_identity_frame (label_of p) id st1) as (_ & (e2 & H2) & _).
    destruct Ho as (_ & _ & _ & _ & e3 & H3).
    exists (e1 ++ e2 ++ e3). simpl. rewrite H3, H2, Hr. by rewrite <- !app_assoc.
Qed.

Lemma app_nil_inv {A} (l1 l2 : list A) : l1 ++ l2 = [] -> l1 = [] /\ l2 = [].
Proof. by destruct l1, l2. Qed.

(** The records of the manifests that could be loaded: a turn appends
    one, whatever the checks found. *)
Lemma process_manifest_record w c st p st' :
  process_manifest w c st p = (st', None) ->
  if is_loaded (manifest_file w p)
  then exists record, loaded_as w c p record
                      /\ manifests st' = manifests st ++ [record]
  else manifests st' = manifests st.
Proof.
  intros H. apply process_manifest_ok in H
    as [[-> (msg & ->)] | (d & id & st1 & st3 & Hf & Hr & Ho & ->)]; [done |].
  rewrite Hf. simpl. exists (record_of c p d id). split.
  - by exists d, id.
  - apply resolve_identity_frame in Hr as (Hm & _).
    destruct (register_identity_frame (label_of p) id st1) as (Hm2 & _).
    destruct Ho as (Hm3 & _). by rewrite Hm3, Hm2, Hm.
Qed.

Lemma scan_records w c paths st st' :
  scan w c paths st = (st', None) ->
  exists records,
    manifests st' = manifests st ++ records
    /\ Forall2 (loaded_as w c)
         (List.filter (fun p => is_loaded (manifest_file w p)) paths) records.
Proof.
  revert st. induction paths as [|p paths IH]; intros st; simpl.
  - intros [= <-]. exists []. by rewrite app_nil_r.
  - destruct (process_manifest w c st p) as [st1 [e|]] eqn:E; [done |].
    intros H. apply IH in H as (rs & Hm & Hall).
    apply process_manifest_record in E.
    destruct (is_loaded (manifest_file w p)).
    + destruct E as (r & Hr & E). exists (r :: rs). split.
      * rewrite Hm, E. by rewrite <- app_assoc.
      * by constructor.
    + exists rs. by rewrite Hm, E.
Qed.

Lemma scan_errors w c paths st st' :
  scan w c paths st = (st', None) ->
  exists extra, errors st' = errors st ++ extra.
Proof.
  revert st. induction paths as [|p paths IH]; intros st; simpl.
  - intros [= <-]. exists []. by rewrite app_nil_r.
  - destruct (process_manifest w c st p) as [st1 [e|]] eqn:E; [done |].
    intros H. apply IH in H as (e2 & H2).
    apply process_manifest_errors in E as (e1 & H1).
    exists (e1 ++ e2). by rewrite H2, H1, app_assoc.
Qed.

(** Without errors at the end, every manifest was loaded. *)
Lemma scan_all_loaded w c paths st st' :
  scan w c paths st = (st', None) -> errors st' = [] ->
  List.filter (fun p => is_loaded (manifest_file w p)) paths = paths.
Proof.
  revert st. induction paths as [|p paths IH]; intros st; simpl; [done |].
  destruct (process_manifest w c st p) as [st1 [e|]] eqn:E; [done |].
  intros H Herr. pose proof (scan_errors _ _ _ _ _ H) as (e2 & H2).
  rewrite Herr in H2. symmetry in H2. apply app_nil_inv in H2 as [H1 _].
  apply process_manifest_ok in E
    as [[_ (msg & ->)] | (d & id & st1' & st3 & Hf & _)].
  - simpl in H1. by apply app_nil_inv in H1 as [_ ?].
  - rewrite Hf. simpl. f_equal. by eapply IH.
Qed.

Lemma record_of_id c p d package_id :
  record_id (record_of c p d package_id) = id_json package_id.
Proof.
  unfold record_of, record_id.
  apply (updated_manifest_record d package_id (hd "" p)
           (as_posix (removelast p)) (repo_base c)).
Qed.

Lemma process_manifest_ids w c st p st' :
  process_manifest w c st p = (st', None) ->
  ids_distinct st -> ids_distinct st'.
Proof.
  intros Hproc Hinv Herr.
  apply process_manifest_ok in Hproc
    as [[_ (msg & ->)] | (d & id & st1 & st3 & Hf & Hr & Ho & ->)].
  { simpl in Herr. by apply app_nil_inv in Herr as [_ ?]. }
  simpl in Herr.
  destruct Ho as (Hm3 & Hs3 & _ & _ & e3 & He3).
  rewrite Herr in He3. symmetry in He3. apply app_nil_inv in He3 as [He2 _].
  destruct (register_identity_frame (label_of p) id st1) as (Hm2 & (e2 & H2) & Hreg).
  rewrite He2 in H2. symmetry in H2. apply app_nil_inv in H2 as [He1 _].
  destruct Hreg as (s & -> & Hne & Hnew & Hseen); [congruence |].
  apply resolve_identity_frame in Hr as (Hm1 & Hs1 & e1 & H1).
  rewrite He1 in H1. symmetry in H1. apply app_nil_inv in H1 as [He0 _].
  destruct (Hinv He0) as [Hnd Hall].
  pose proof (record_of_id c p d (Some s)) as Hid. unfold record_of in Hid.
  cbn [manifests seen_ids add_manifest id_json] in Hid |- *.
  rewrite Hm3, Hm2, Hm1, Hs3, Hseen, Hs1. split.
  - rewrite map_app. cbn [map]. rewrite Hid.
    apply NoDup_app. split; [done |]. split; [|apply NoDup_singleton].
    intros x Hx Hx'. apply list_elem_of_singleton in Hx' as ->.
    apply list_elem_of_In, in_map_iff in Hx as (r & Hr & Hin).
    destruct (Hall r Hin) as (s' & Hs' & _ & Hseen').
    rewrite Hr in Hs'. injection Hs' as <-. apply Hnew. by rewrite Hs1.
  - intros r Hin. apply in_app_iff in Hin as [Hin | [<- | []]].
    + destruct (Hall r Hin) as (s' & Hs' & Hne' & Hseen').
      exists s'. repeat split; try done. apply elem_of_union. by right.
    + exists s. rewrite Hid.
      repeat split; try done. apply elem_of_union. left.
      by apply elem_of_singleton.
Qed.

Lemma scan_ids w c paths st st' :
  scan w c paths st = (st', None) -> ids_distinct st -> ids_distinct st'.
Proof.
  revert st. induction paths as [|p paths IH]; intros st; simpl.
  - by intros [= <-].
  - destruct (process_manifest w c st p) as [st1 [e|]] eqn:E; [done |].
    intros H Hinv. eapply IH; [done |]. by eapply process_manifest_ids.
Qed.

Lemma initial_ids w : ids_distinct (initial_state w).
Proof. intros _. simpl. split; [constructor | by intros ? []]. Qed.

(** The end of the scan behind a result of [scan_all]. *)
Lemma scan_all_scanned w st :
  scan_all w = Scanned st ->
  exists c, scan w c (sorted (discovered w)) (initial_state w) = (st, None).
Proof.
  unfold scan_all. destruct (sorted (discovered w)) as [|p paths] eqn:Es; [done |].
  destruct (_get_config (config_file w)) as [config| |]; try done.
  destruct (load_run_config config) as [c|]; [|done].
  destruct (scan w c (p :: paths) (initial_state w)) as [st' [e|]] eqn:E; [done |].
  intros [= <-]. by exists c.
Qed.

(** Files are written only by [finish], for an empty error list. *)
Lemma written_scanned w :
  written (main w) <> [] ->
  exists st, scan_all w = Scanned st /\ errors st = []
             /\ main w = finish w st.
Proof.
  unfold main. destruct (scan_all w) as [| | |st]; try done.
  intros H. exists st. split; [done |]. split; [|done].
  unfold finish in H. by destruct (errors st).
Qed.

(** ** All or nothing *)

(** C1. When the scan reaches its end with a non-empty error list, [main]
    prints every message of the list, in order, exits with status 1 and
    writes no file; when it reaches its end with an empty list, the three
    files are written together. Whenever [main] writes a file, the scan
    had reached its end with an empty error list: a run that ends before
    (no manifest, a configuration failure, an exception) writes nothing. *)
Theorem main_all_or_nothing w :
  (forall st,
     scan_all w = Scanned st ->
     (errors st <> [] ->
      printed (main w) = errors st /\ status (main w) = SysExit 1
      /\ written (main w) = [])
     /\ (errors st = [] ->
         exists payload text,
           written (main w)
           = [DatabaseJson payload; DatabaseGzip payload; VersionTxt text]))
  /\ (written (main w) <> [] ->
      exists st, scan_all w = Scanned st /\ errors st = []).
Proof.
  split.
  - intros st Hscan. unfold main. rewrite Hscan. unfold finish.
    destruct (errors st) as [|msg rest]; simpl.
    + split; [done |]. intros _. by eexists _, _.
    + by split.
  - intros H. destruct (written_scanned w H) as (st & Hscan & Herr & _).
    by exists st.
Qed.

(** Outside the end of a scan nothing is written either. *)
Lemma nothing_written_otherwise w :
  (forall st, scan_all w <> Scanned st) -> written (main w) = [].
Proof.
  intros H. unfold main. destruct (scan_all w) as [| | |st]; try done.
  by destruct (H st).
Qed.

(** ** The order of the catalog *)

Lemma list_compare_order {A} (cmp : A -> A -> comparison) :
  total_order cmp -> total_order (list_compare cmp).
Proof.
  intros [Heq Hopp Htrans]. split.
  - intros a. induction a as [|x a IH]; intros [|y b]; simpl; try done.
    destruct (cmp x y) eqn:E.
    + apply Heq in E as ->. rewrite IH. split; congruence.
    + split; [done |]. intros [= -> _].
      assert (cmp y y = Eq) by (by apply Heq). congruence.
    + split; [done |]. intros [= -> _].
      assert (cmp y y = Eq) by (by apply Heq). congruence.
  - intros a. induction a as [|x a IH]; intros [|y b]; simpl; try done.
    rewrite (Hopp x y). destruct (cmp x y); simpl; [apply IH | done | done].
  - intros a. induction a as [|x a IH]; intros [|y b] [|z c]; simpl; try done.
    destruct (cmp x y) eqn:E1; try done.
    + apply Heq in E1 as ->. destruct (cmp y z); try done. apply IH.
    + intros _. destruct (cmp y z) eqn:E2; try done.
      * apply Heq in E2 as ->. by rewrite E1.
      * by rewrite (Htrans x y z).
Qed.

Lemma char_compare_order : total_order char_compare.
Proof.
  unfold char_compare. split.
  - intros x y. rewrite Nat.compare_eq_iff. split; [|by intros ->].
    intros H. rewrite <- (ascii_nat_embedding x), <- (ascii_nat_embedding y).
    by rewrite H.
  - intros x y. apply Nat.compare_antisym.
  - intros x y z. rewrite !Nat.compare_lt_iff. lia.
Qed.

Lemma path_compare_order : total_order path_compare.
Proof. apply list_compare_order, list_compare_order, char_compare_order. Qed.

Lemma path_lt_irrefl a : path_lt a a = false.
Proof.
  unfold path_lt.
  assert (path_compare a a = Eq) as -> by (by apply (cmp_eq _ path_compare_order)).
  done.
Qed.

Lemma path_lt_asym a b : path_lt a b = true -> path_lt b a = false.
Proof.
  unfold path_lt. rewrite (cmp_opp _ path_compare_order a b).
  by destruct (path_compare a b).
Qed.

Lemma path_le_refl a : path_le a a.
Proof. apply path_lt_irrefl. Qed.

Lemma path_le_total a b : path_le a b \/ path_le b a.
Proof.
  unfold path_le. destruct (path_lt b a) eqn:E; [|by left].
  right. by apply path_lt_asym.
Qed.

Lemma path_le_antisym a b : path_le a b -> path_le b a -> a = b.
Proof.
  unfold path_le, path_lt. rewrite (cmp_opp _ path_compare_order a b).
  destruct (path_compare a b) eqn:E; try done.
  intros _ _. by apply (cmp_eq _ path_compare_order).
Qed.

Lemma path_le_trans a b c : path_le a b -> path_le b c -> path_le a c.
Proof.
  unfold path_le, path_lt. intros H1 H2.
  destruct (path_compare c a) eqn:E; try done. exfalso.
  rewrite (cmp_opp _ path_compare_order a b) in H1.
  rewrite (cmp_opp _ path_compare_order b c) in H2.
  destruct (path_compare a b) eqn:E1; try done;
    destruct (path_compare b c) eqn:E2; try done.
  - apply (cmp_eq _ path_compare_order) in E1 as ->.
    apply (cmp_eq _ path_compare_order) in E2 as ->.
    assert (path_compare c c = Eq) by (by apply (cmp_eq _ path_compare_order)).
    congruence.
  - apply (cmp_eq _ path_compare_order) in E1 as ->.
    rewrite (cmp_opp _ path_compare_order b c), E2 in E. done.
  - apply (cmp_eq _ path_compare_order) in E2 as ->.
    rewrite (cmp_opp _ path_compare_order a c), E1 in E. done.
  - pose proof (cmp_trans _ path_compare_order a b c E1 E2) as E3.
    rewrite (cmp_opp _ path_compare_order a c), E3 in E. done.
Qed.

Lemma insert_sorted_perm x l : Permutation (insert_sorted x l) (x :: l).
Proof.
  induction l as [|y l IH]; simpl; [done |].
  destruct (path_lt y x); [|done].
  rewrite IH. apply perm_swap.
Qed.

Lemma sorted_perm l : Permutation (sorted l) l.
Proof.
  induction l as [|x l IH]; simpl; [done |].
  rewrite insert_sorted_perm. by constructor.
Qed.

Lemma insert_sorted_ordered x l :
  Sorted path_le l -> Sorted path_le (insert_sorted x l).
Proof.
  induction l as [|y l IH]; intros Hs; simpl.
  - by repeat constructor.
  - inversion Hs as [|? ? Hs' Hhd]; subst.
    destruct (path_lt y x) eqn:E.
    + constructor; [by apply IH |].
      destruct l as [|z l]; simpl.
      * constructor. by apply path_lt_asym.
      * destruct (path_lt z x).
        -- constructor. by inversion Hhd.
        -- constructor. by apply path_lt_asym.
    + constructor; [done |]. by constructor.
Qed.

Lemma sorted_ordered l : Sorted path_le (sorted l).
Proof.
  induction l as [|x l IH]; simpl; [constructor | by apply insert_sorted_ordered].
Qed.

Lemma sorted_strongly l : StronglySorted path_le (sorted l).
Proof.
  apply Sorted_StronglySorted; [|apply sorted_ordered].
  intros a b c. apply path_le_trans.
Qed.

(** Two ordered lists with the same elements are the same list. *)
Lemma ordered_unique l1 l2 :
  StronglySorted path_le l1 -> StronglySorted path_le l2 ->
  Permutation l1 l2 -> l1 = l2.
Proof.
  revert l2. induction l1 as [|x l1 IH]; intros l2 H1 H2 Hp.
  - by apply Permutation_nil in Hp.
  - destruct l2 as [|y l2]; [by apply Permutation_sym, Permutation_nil in Hp |].
    inversion H1 as [|? ? H1' Hx]; subst.
    inversion H2 as [|? ? H2' Hy]; subst.
    assert (x = y) as ->.
    { assert (Hxin : In x (y :: l2))
        by (eapply Permutation_in; [exact Hp | by left]).
      assert (Hyin : In y (x :: l1))
        by (eapply Permutation_in; [by apply Permutation_sym | by left]).
      rewrite List.Forall_forall in Hx, Hy.
      destruct Hxin as [-> | Hxin]; [done |].
      destruct Hyin as [-> | Hyin]; [done |].
      apply path_le_antisym; auto. }
    f_equal. apply IH; try done. by apply Permutation_cons_inv in Hp.
Qed.

(** The order of discovery does not matter. *)
Lemma sorted_permutation l1 l2 : Permutation l1 l2 -> sorted l1 = sorted l2.
Proof.
  intros Hp. apply ordered_unique; try apply sorted_strongly.
  rewrite !sorted_perm. done.
Qed.

(** The catalog that is written holds the records of the final state of
    an error-free scan. *)
Lemma written_catalog w payload :
  In (DatabaseJson payload) (written (main w)) ->
  exists c st,
    scan w c (sorted (discovered w)) (initial_state w) = (st, None)
    /\ errors st = []
    /\ payload = JObj [("packages", JArr (manifests st))].
Proof.
  intros Hin.
  destruct (written_scanned w) as (st & Hscan & Herr & Hmain).
  { intros H. by rewrite H in Hin. }
  apply scan_all_scanned in Hscan as (c & Hscan).
  exists c, st. split; [done |]. split; [done |].
  rewrite Hmain in Hin. unfold finish in Hin. rewrite Herr in Hin.
  simpl in Hin. destruct Hin as [[= <-] | [[=] | [[=] | []]]]. done.
Qed.

(** C5. An identity that was seen earlier in the run gets the
    duplicate-id error for its package and stays registered, however the
    turn of its manifest ends; and the turn goes on to check the manifest
    and, unless an exception ends it, to append its record. So in a
    catalog that is written the identities of the records are distinct
    (and are non-empty strings). *)
Theorem catalog_ids_unique w :
  (forall c st p manifest s st1 st' raised,
     manifest_file w p = ReadOk manifest ->
     resolve_identity w (label_of p) (removelast p) st = (Some s, st1) ->
     Str.nonempty s = true -> s ∈ seen_ids st ->
     process_manifest w c st p = (st', raised) ->
     In (duplicate_id_error (label_of p) s) (errors st')
     /\ s ∈ seen_ids st'
     /\ (raised = None ->
         exists d, manifest = JObj d
                   /\ manifests st' = manifests st ++ [record_of c p d (Some s)]))
  /\ (forall payload,
        In (DatabaseJson payload) (written (main w)) ->
        exists records,
          payload = JObj [("packages", JArr records)]
          /\ NoDup (map record_id records)
          /\ forall r, In r records ->
               exists s, record_id r = JStr s /\ Str.nonempty s = true).
Proof.
  split.
  - intros c st p manifest s st1 st' [e|] Hf Hr Hs Hin Hproc.
    + unfold process_manifest in Hproc. fold (label_of p) in Hproc.
      rewrite Hf, Hr in Hproc.
      destruct (check_and_transform _ _ _ _ _ _ _) as [st2|e'] eqn:E2; [done |].
      apply (f_equal fst) in Hproc. cbn [fst] in Hproc. subst st'.
      apply resolve_identity_frame in Hr as (_ & Hs1 & _).
      rewrite <- Hs1 in Hin.
      destruct (register_duplicate (label_of p) s st1 Hs Hin) as (He & Hseen & _).
      split; [| split; [done | done]].
      rewrite He. apply in_app_iff. right. by left.
    + apply process_manifest_ok in Hproc
        as [[Hl _] | (d' & id & st1' & st3 & Hf' & Hr' & Ho & ->)].
      { by rewrite Hf in Hl. }
      rewrite Hf in Hf'. injection Hf' as ->.
      rewrite Hr in Hr'. injection Hr' as <- <-.
      apply resolve_identity_frame in Hr as (Hm1 & Hs1 & _).
      rewrite <- Hs1 in Hin.
      destruct (register_duplicate (label_of p) s st1 Hs Hin) as (He & Hseen & Hm2).
      destruct Ho as (Hm3 & Hs3 & _ & _ & e3 & He3).
      simpl. rewrite He3, He, Hs3, Hm3, Hm2, Hm1. split; [| split; [done |]].
      * apply in_app_iff. left. apply in_app_iff. right. by left.
      * intros _. by exists d'.
  - intros payload Hin.
    apply written_catalog in Hin as (c & st & Hscan & Herr & ->).
    exists (manifests st). split; [done |].
    destruct (scan_ids _ _ _ _ _ Hscan (initial_ids w) Herr) as [Hnd Hall].
    split; [done |]. intros r Hr.
    destruct (Hall r Hr) as (s & Hs & Hne & _). eauto.
Qed.

Lemma scan_with_discovered w found c paths :
  scan (with_discovered w found) c paths (initial_state (with_discovered w found))
  = scan w c paths (initial_state w).
Proof.
  change (initial_state (with_discovered w found)) with (initial_state w).
  generalize (initial_state w). induction paths as [|p paths IH]; intros st; [done |].
  cbn [scan].
  change (process_manifest (with_discovered w found) c st p)
    with (process_manifest w c st p).
  destruct (process_manifest w c st p) as [st' [e|]]; [done | apply IH].
Qed.

(** C10. The records of a catalog that is written follow the manifest
    paths in their sorted order, one record for each path; the paths
    are compared as [pathlib] compares them, component by component, so the
    order found on the disk does not matter: a world that differs only in
    the order of discovery gives the same run. *)
Theorem catalog_in_path_order w payload :
  In (DatabaseJson payload) (written (main w)) ->
  (exists c records,
     payload = JObj [("packages", JArr records)]
     /\ Forall2 (loaded_as w c) (sorted (discovered w)) records)
  /\ StronglySorted path_le (sorted (discovered w))
  /\ Permutation (sorted (discovered w)) (discovered w)
  /\ (forall found,
        Permutation (discovered w) found ->
        main (with_discovered w found) = main w).
Proof.
  intros Hin. split; [|split; [|split]].
  - apply written_catalog in Hin as (c & st & Hscan & Herr & ->).
    exists c, (manifests st). split; [done |].
    destruct (scan_records _ _ _ _ _ Hscan) as (rs & Hm & Hall).
    rewrite (scan_all_loaded _ _ _ _ _ Hscan Herr) in Hall.
    simpl in Hm. by rewrite Hm.
  - apply sorted_strongly.
  - apply sorted_perm.
  - intros found Hp. unfold main, scan_all.
    cbn [discovered with_discovered config_file].
    rewrite <- (sorted_permutation _ _ Hp).
    destruct (sorted (discovered w)) as [|p paths]; [done |].
    destruct (_get_config (config_file w)) as [config| |]; try done.
    destruct (load_run_config config) as [c|]; [|done].
    by rewrite scan_with_discovered.
Qed.

(** C9, as amended. The record of a manifest is made in the same turn of
    the loop as its checks, after them, whenever the manifest could be
    loaded and no exception escaped, whether or not the checks found
    errors, in this manifest or in others; the errors gate only the
    final write. *)
Theorem transform_follows_checks w c :
  (forall st p st' d,
     manifest_file w p = ReadOk (JObj d) ->
     process_manifest w c st p = (st', None) ->
     exists package_id st1 st3,
       resolve_identity w (label_of p) (removelast p) st = (package_id, st1)
       /\ only_errors_added (register_identity (label_of p) package_id st1) st3
       /\ st' = add_manifest st3 (updated_manifest d package_id (hd "" p)
                                    (as_posix (removelast p)) (repo_base c)))
  /\ (forall paths st st',
        scan w c paths st = (st', None) ->
        exists records,
          manifests st' = manifests st ++ records
          /\ Forall2 (loaded_as w c)
               (List.filter (fun p => is_loaded (manifest_file w p)) paths)
               records)
  /\ (forall st, scan_all w = Scanned st ->
        (written (main w) <> [] <-> errors st = [])).
Proof.
  split; [|split].
  - intros st p st' d Hf Hproc.
    apply process_manifest_ok in Hproc
      as [[Hl _] | (d' & id & st1 & st3 & Hf' & Hr & Ho & ->)].
    { by rewrite Hf in Hl. }
    rewrite Hf in Hf'. injection Hf' as <-. by exists id, st1, st3.
  - apply scan_records.
  - intros st Hscan. unfold main. rewrite Hscan. unfold finish.
    by destruct (errors st).
Qed.

(** ** Identity *)

Lemma hex_digit_not_space n : Str.isspace (hex_digit n) = false.
Proof.
  unfold hex_digit.
  destruct (nth_in_or_default (Z.to_nat n) "0123456789abcdef" "0"%char) as [H | ->];
    [|done].
  revert H. generalize (nth (Z.to_nat n) "0123456789abcdef" "0"%char).
  intros c Hc. by apply (forallb_In (fun c => negb (Str.isspace c))) in Hc;
    [destruct (Str.isspace c) |].
Qed.

Lemma uuid_str_not_space n c : In c (uuid_str n) -> Str.isspace c = false.
Proof.
  assert (Hhex : forall c, In c (hex32 n) -> Str.isspace c = false).
  { intros d Hd. unfold hex32 in Hd. apply in_map_iff in Hd as (i & <- & _).
    apply hex_digit_not_space. }
  unfold uuid_str. generalize dependent (hex32 n). intros hex Hhex.
  rewrite !in_app_iff.
  intros [H | [[<- | []] | [H | [[<- | []] | [H | [[<- | []] | [H | [[<- | []] | H]]]]]]]];
    try done; apply Hhex;
    repeat (apply incl_take in H || apply incl_drop in H); done.
Qed.

(** Reading back the file that was written gives the identifier. *)
Lemma strip_written_uuid r : Str.strip (uuid4 r ++ ["010"%char]) = uuid4 r.
Proof.
  apply (strip_around [] (uuid4 r) ["010"%char]); try done.
  - intros c Hc. apply (uuid_str_not_space (uuid4_int r)).
    destruct (uuid4 r) eqn:E; [done |]. injection Hc as ->.
    unfold uuid4 in E. rewrite E. by left.
  - intros c Hc. apply (uuid_str_not_space (uuid4_int r)).
    apply last_Some in Hc as [l Hl]. unfold uuid4 in Hl. rewrite Hl.
    apply in_app_iff. right. by left.
Qed.

(** The four ways of the identity step. *)
Lemma resolve_identity_text w label dir st content :
  id_files st !! dir = Some (IdText content) ->
  resolve_identity w label dir st = (Some (Str.strip content), st).
Proof. intros E. unfold resolve_identity. by rewrite E. Qed.

Lemma resolve_identity_unreadable w label dir st text :
  id_files st !! dir = Some (IdUnreadable text) ->
  resolve_identity w label dir st
  = (None, add_error st ("ERROR: Failed to read autogen_id (" ++ text
                           ++ ") in " ++ label ++ ".")).
Proof. intros E. unfold resolve_identity. by rewrite E. Qed.

Lemma resolve_identity_written w label dir st :
  id_files st !! dir = None ->
  id_write_error w dir = None ->
  resolve_identity w label dir st
  = (Some (uuid4 (urandom w (urandom_calls st))),
     {| errors := errors st; manifests := manifests st;
        seen_ids := seen_ids st;
        id_files :=
          <[dir := IdText (uuid4 (urandom w (urandom_calls st))
                             ++ ["010"%char])]> (id_files st);
        urandom_calls := S (urandom_calls st) |}).
Proof. intros E Ew. unfold resolve_identity. by rewrite E, Ew. Qed.

Lemma resolve_identity_unwritten w label dir st text :
  id_files st !! dir = None ->
  id_write_error w dir = Some text ->
  resolve_identity w label dir st
  = (Some (uuid4 (urandom w (urandom_calls st))),
     {| errors := errors st
                  ++ ["ERROR: Failed to write autogen_id (" ++ text
                        ++ ") in " ++ label ++ "."];
        manifests := manifests st; seen_ids := seen_ids st;
        id_files := id_files st;
        urandom_calls := S (urandom_calls st) |}).
Proof. intros E Ew. unfold resolve_identity. by rewrite E, Ew. Qed.

(** C4, as amended. When the [autogen_id] file exists and can be read,
    its trimmed content is the identity; when it exists, readable or not,
    it is not written; only when it is absent is an identifier drawn, and
    it is written unless the writing fails, in which case an error is
    recorded (a failed writing is taken to leave no file). Hence the
    step run twice for one directory gives the same identity both times,
    and leaves the files of the first run, unless the file was absent and
    could not be written. *)
Theorem identity_idempotent w label dir st :
  let first := resolve_identity w label dir st in
  let second := resolve_identity w label dir first.2 in
  (forall content,
     id_files st !! dir = Some (IdText content) ->
     first.1 = Some (Str.strip content) /\ first.2 = st)
  /\ (is_Some (id_files st !! dir) -> id_files first.2 = id_files st)
  /\ (id_files st !! dir = None ->
      first.1 = Some (uuid4 (urandom w (urandom_calls st)))
      /\ match id_write_error w dir with
         | None =>
             id_files first.2
             = <[dir := IdText (uuid4 (urandom w (urandom_calls st))
                                  ++ ["010"%char])]> (id_files st)
         | Some text =>
             id_files first.2 = id_files st
             /\ exists msg, errors first.2 = errors st ++ [msg]
         end)
  /\ ((id_files st !! dir = None -> id_write_error w dir = None) ->
      second.1 = first.1 /\ id_files second.2 = id_files first.2).
Proof.
  intros first second. subst first second.
  destruct (id_files st !! dir) as [[content|text]|] eqn:E.
  - pose proof (resolve_identity_text w label dir st content E) as H.
    rewrite !H. cbn [fst snd]. rewrite !H. cbn [fst snd].
    split; [by intros ? [= <-] |]. split; [done |]. split; [done |]. done.
  - pose proof (resolve_identity_unreadable w label dir st text E) as H.
    rewrite !H. cbn [fst snd].
    rewrite (resolve_identity_unreadable w label dir (add_error st _) text E).
    cbn [fst snd].
    split; [done |]. split; [done |]. split; [done |]. done.
  - destruct (id_write_error w dir) as [text|] eqn:Ew.
    + pose proof (resolve_identity_unwritten w label dir st text E Ew) as H.
      rewrite !H. cbn [fst snd].
      split; [done |]. split; [by intros [? ?] |].
      split; [intros _; split; [done |]; split; [done | by eexists] |].
      intros H'. by specialize (H' eq_refl).
    + pose proof (resolve_identity_written w label dir st E Ew) as H.
      rewrite !H. cbn [fst snd].
      split; [done |]. split; [by intros [? ?] |]. split; [done |].
      intros _.
      rewrite (resolve_identity_text w label dir _
                 (uuid4 (urandom w (urandom_calls st)) ++ ["010"%char])
                 (lookup_insert_eq _ _ _)).
      cbn [fst snd id_files]. by rewrite strip_written_uuid.
Qed.

(** ** An exception in the check of the repository URL *)

Lemma strip_nonempty s :
  negb (Str.nonempty (Str.strip s)) = false <-> Str.strip s <> [].
Proof. by destruct (Str.strip s). Qed.

Lemma scan_app w c before rest st st1 :
  scan w c before st = (st1, None) ->
  scan w c (before ++ rest) st = scan w c rest st1.
Proof.
  revert st. induction before as [|q before IH]; intros st; simpl.
  - by intros [= <-].
  - destruct (process_manifest w c st q) as [st' [e|]]; [done |]. apply IH.
Qed.

Lemma check_and_transform_url_raises w c label p d package_id st url e :
  dict_get "repositoryURL" d = JStr url -> Str.strip url <> [] ->
  urlparse url = Raise e ->
  check_and_transform w c label p (JObj d) package_id st = Raise e.
Proof.
  intros Hu Hs He. unfold check_and_transform, check_repository_url.
  apply strip_nonempty in Hs. by rewrite Hu, Hs, He.
Qed.

(** C3, as the code is. When [urlparse] raises on the [repositoryURL] of a
    manifest (a string that is not blank), the exception escapes the check:
    the tags, the title and the description of that manifest are not
    checked and no record is made of it; the scan stops at this manifest,
    whatever follows it; and the run ends with a traceback, having printed
    none of the errors it had collected and written nothing. *)
Theorem repository_url_exception_halts_scan w c p d url e rest :
  manifest_file w p = ReadOk (JObj d) ->
  dict_get "repositoryURL" d = JStr url -> Str.strip url <> [] ->
  urlparse url = Raise e ->
  (forall label package_id st,
     check_and_transform w c label p (JObj d) package_id st = Raise e)
  /\ (forall before st0 st1,
        scan w c before st0 = (st1, None) ->
        exists st', scan w c (before ++ p :: rest) st0 = (st', Some e))
  /\ (forall config before,
        sorted (discovered w) = before ++ p :: rest ->
        _get_config (config_file w) = ConfigOk config ->
        load_run_config config = Ok c ->
        (scan w c before (initial_state w)).2 = None ->
        printed (main w) = [] /\ status (main w) = Traceback e
        /\ written (main w) = []).
Proof.
  intros Hf Hu Hs He.
  assert (Hturn : forall st, exists st', process_manifest w c st p = (st', Some e)).
  { intros st. unfold process_manifest. rewrite Hf.
    destruct (resolve_identity _ _ _ st) as [package_id st1].
    rewrite (check_and_transform_url_raises _ _ _ _ _ _ _ url e) by done.
    by eexists. }
  assert (Hscan : forall before st0 st1,
             scan w c before st0 = (st1, None) ->
             exists st', scan w c (before ++ p :: rest) st0 = (st', Some e)).
  { intros before st0 st1 H. rewrite (scan_app w c before (p :: rest) st0 st1 H).
    destruct (Hturn st1) as (st' & Ht). exists st'. simpl. by rewrite Ht. }
  split; [| split; [exact Hscan |]].
  - intros label package_id st.
    by apply (check_and_transform_url_raises _ _ _ _ _ _ _ url e).
  - intros config before Hd Hg Hc Hb.
    destruct (scan w c before (initial_state w)) as [st1 o] eqn:E.
    simpl in Hb. subst o.
    destruct (Hscan before (initial_state w) st1 E) as (st' & H').
    unfold main, scan_all. rewrite Hd, Hg, Hc.
    destruct (before ++ p :: rest) eqn:E2; [by destruct before |].
    by rewrite H'.
Qed.

(** * Further properties of the script *)

(** ** Reachability *)

(** X1. [_check_url_exists] answers [True] exactly when the HEAD request
    is answered with a status below 400, or fails with the HTTP error 405
    or 501 and the GET request that follows is answered with a status
    below 400. The GET request matters in that second case only. *)
Theorem check_url_exists_exact w url :
  (_check_url_exists w url = true <->
     (exists status, head_request w url = HttpResponse status /\ status < 400)
     \/ (exists code status,
           head_request w url = HttpError code /\ (code = 405 \/ code = 501)
           /\ get_request w url = HttpResponse status /\ status < 400))
  /\ (forall w',
        head_request w' url = head_request w url ->
        (forall code, head_request w url = HttpError code ->
                      code <> 405 /\ code <> 501) ->
        _check_url_exists w' url = _check_url_exists w url).
Proof.
  unfold _check_url_exists. split.
  - destruct (head_request w url) as [status|code|] eqn:Eh.
    + rewrite Z.ltb_lt. split.
      * intros H. left. by exists status.
      * by intros [(s & [= <-] & H) | (c & s & [=] & _)].
    + destruct ((code =? 405) || (code =? 501)) eqn:Ec.
      * apply orb_true_iff in Ec. rewrite !Z.eqb_eq in Ec.
        destruct (get_request w url) as [status| |] eqn:Eg.
        -- rewrite Z.ltb_lt. split.
           ++ intros H. right. by exists code, status.
           ++ by intros [(s & [=] & _) | (c & s & _ & _ & [= <-] & H)].
        -- split; [done |].
           by intros [(s & [=] & _) | (c & s & _ & _ & [=] & _)].
        -- split; [done |].
           by intros [(s & [=] & _) | (c & s & _ & _ & [=] & _)].
      * apply orb_false_iff in Ec. rewrite !Z.eqb_neq in Ec.
        split; [done |].
        intros [(s & [=] & _) | (c & s & [= <-] & Hc & _)].
        destruct Ec, Hc; done.
    + split; [done |]. by intros [(s & [=] & _) | (c & s & [=] & _)].
  - intros w' -> Hc. destruct (head_request w url) as [status|code|]; try done.
    destruct (Hc code eq_refl) as [H1 H2].
    apply Z.eqb_neq in H1, H2. by rewrite H1, H2.
Qed.

(** ** Configuration *)

(** X2. [_get_config] returns the configuration exactly when the file
    could be read and parsed, holds a JSON object, and the object's [url]
    is a string that is not blank. A file that cannot be read or parsed,
    and an object without such a [url], give the two [RuntimeError]s of
    the function; any other JSON value lets the [AttributeError] of its
    missing [get] escape. *)
Theorem get_config_exact file :
  (forall config,
     _get_config file = ConfigOk config <->
     file = ReadOk config
     /\ exists d url, config = JObj d /\ dict_get "url" d = JStr url
                      /\ Str.strip url <> [])
  /\ (forall text,
        _get_config file = ConfigRuntimeError text <->
        (exists reason, text = "Failed to read config.json: " ++ reason
                        /\ (file = ReadOSError reason
                            \/ exists lineno colno,
                                 file = ReadJSONDecodeError reason lineno colno))
        \/ (text = "config.json missing valid 'url' value."
            /\ exists d, file = ReadOk (JObj d)
                         /\ blank_or_not_str (dict_get "url" d) = true))
  /\ (forall e,
        _get_config file = ConfigRaise e <->
        e = no_attribute_get
        /\ exists value, file = ReadOk value /\ forall d, value <> JObj d).
Proof.
  unfold _get_config. split; [| split].
  - intros config. destruct file as [j|text l c|text]; try (by split; [| intros [? _]]).
    destruct j as [| | | |l|d]; simpl;
      try (split; [done | by intros [[= <-] (d & url & [=] & _)]]).
    destruct (dict_get "url" d) as [| | |s| |] eqn:Eu; simpl;
      try (split; [done | by intros [[= <-] (d' & url & [= <-] & H & _)];
                          rewrite Eu in H]).
    destruct (Str.strip s) eqn:Es; simpl.
    + split; [done |]. intros [[= <-] (d' & url & [= <-] & H & Hs)].
      rewrite Eu in H. injection H as <-. done.
    + split.
      * intros [= <-]. split; [done |]. exists d, s. by rewrite Es.
      * by intros [[= <-] _].
  - intros text. destruct file as [j|reason l c|reason].
    + destruct j as [| | | |l|d]; simpl;
        try (split; [done |];
             by intros [(r & _ & [[=] | (? & ? & [=])]) | (_ & d & [=] & _)]).
      destruct (blank_or_not_str (dict_get "url" d)) eqn:Eu.
      * split.
        -- intros [= <-]. right. split; [done |]. by exists d.
        -- by intros [(r & _ & [[=] | (? & ? & [=])]) | (-> & _)].
      * split; [done |].
        intros [(r & _ & [[=] | (? & ? & [=])]) | (_ & d' & [= <-] & H)].
        by rewrite Eu in H.
    + split.
      * intros [= <-]. left. exists reason. split; [done |]. right. by exists l, c.
      * intros [(r & -> & [[=] | (? & ? & [= <- _ _])]) | (_ & d & [=] & _)].
        done.
    + split.
      * intros [= <-]. left. exists reason. split; [done |]. by left.
      * intros [(r & -> & [[= <-] | (? & ? & [=])]) | (_ & d & [=] & _)].
        done.
  - intros e. destruct file as [j|reason l c|reason];
      try (by split; [| intros (_ & v & [=] & _)]).
    destruct j as [| | | |l|d]; simpl;
      try (split; [intros [= <-]; split; [done |]; eexists; split; [done |];
                   by intros d |
                   by intros (-> & _)]).
    destruct (blank_or_not_str (dict_get "url" d));
      (split; [done |]; intros (_ & v & [= <-] & H); by destruct (H d)).
Qed.

(** ** Runs that end before the scan *)

Lemma insert_sorted_cons x l : insert_sorted x l <> [].
Proof. destruct l as [|y l]; simpl; [done |]. by destruct (path_lt y x). Qed.

Lemma sorted_nil l : sorted l = [] <-> l = [].
Proof.
  split; [| by intros ->].
  destruct l as [|x l]; [done |]. simpl. intros H.
  by apply insert_sorted_cons in H.
Qed.

Lemma scan_all_started w :
  discovered w <> [] ->
  scan_all w
  = match _get_config (config_file w) with
    | ConfigRuntimeError text => ConfigFailed text
    | ConfigRaise e => Uncaught e (id_files_before w)
    | ConfigOk config =>
        match load_run_config config with
        | Raise e => Uncaught e (id_files_before w)
        | Ok c =>
            match scan w c (sorted (discovered w)) (initial_state w) with
            | (st, Some e) => Uncaught e (id_files st)
            | (st, None) => Scanned st
            end
        end
    end.
Proof.
  intros H. unfold scan_all.
  destruct (sorted (discovered w)) eqn:E; [| done].
  by apply (proj1 (sorted_nil _)) in E.
Qed.

(** X3. A run that finds no manifest prints one line and exits with
    status 1 before the configuration is read: whatever [config.json]
    holds, nothing is written and no identity file is created. Only a
    run that finds no manifest ends that way. *)
Theorem main_without_manifests w :
  (scan_all w = NoManifests <-> discovered w = [])
  /\ (discovered w = [] ->
      forall file,
        main (with_config w file)
        = stopped w ["ERROR: No manifest.json files found under packages/"]
            (SysExit 1)).
Proof.
  split; [split |].
  - unfold scan_all. destruct (sorted (discovered w)) as [|p paths] eqn:E.
    + intros _. by apply (proj1 (sorted_nil _)).
    + destruct (_get_config (config_file w)) as [config| |]; try done.
      destruct (load_run_config config) as [c|]; try done.
      by destruct (scan w c (p :: paths) (initial_state w)) as [? [?|]].
  - intros E. unfold scan_all. by rewrite E.
  - intros E file. unfold main, scan_all. simpl. by rewrite E.
Qed.

(** X4. With a manifest found, a [config.json] that cannot be read or
    parsed, or whose [url] is missing, not a string or blank, ends the
    run with one line that starts with ERROR and with status 1, before
    any manifest is read: nothing is written and no identity file is
    created. *)
Theorem main_config_failure w :
  discovered w <> [] ->
  (forall reason,
     config_file w = ReadOSError reason
     \/ (exists lineno colno,
           config_file w = ReadJSONDecodeError reason lineno colno) ->
     main w = stopped w ["ERROR: Failed to read config.json: " ++ reason]
                (SysExit 1))
  /\ (forall d,
        config_file w = ReadOk (JObj d) ->
        blank_or_not_str (dict_get "url" d) = true ->
        main w = stopped w ["ERROR: config.json missing valid 'url' value."]
                   (SysExit 1)).
Proof.
  intros Hd. split.
  - intros reason H. unfold main. rewrite (scan_all_started w Hd).
    by destruct H as [-> | (l & c & ->)].
  - intros d E Hu. unfold main. rewrite (scan_all_started w Hd), E. simpl.
    by rewrite Hu.
Qed.

(** X5. With a manifest found, an exception of the configuration step
    that is no [RuntimeError] escapes: a [config.json] that holds a JSON
    value other than an object, and a [url] on which the normalizer
    raises, end the run with a traceback, nothing printed, nothing
    written and no identity file created. *)
Theorem main_config_traceback w :
  discovered w <> [] ->
  (forall value,
     config_file w = ReadOk value -> (forall d, value <> JObj d) ->
     main w = stopped w [] (Traceback no_attribute_get))
  /\ (forall d url e,
        config_file w = ReadOk (JObj d) ->
        dict_get "url" d = JStr url -> Str.strip url <> [] ->
        _build_raw_base url = Raise e ->
        main w = stopped w [] (Traceback e)).
Proof.
  intros Hd. split.
  - intros value E Hv. unfold main. rewrite (scan_all_started w Hd), E.
    destruct value as [| | | | |d]; try done. by destruct (Hv d).
  - intros d url e E Eu Hs Hr. unfold main.
    rewrite (scan_all_started w Hd), E. simpl. rewrite Eu. simpl.
    destruct (Str.strip url) eqn:Es; [done |]. simpl.
    unfold load_run_config. simpl. rewrite Eu. simpl. by rewrite Hr.
Qed.

(** ** Title and description *)

Lemma add_error_neq st msg : add_error st msg <> st.
Proof.
  intros H. apply (f_equal errors) in H. simpl in H. by apply snoc_neq in H.
Qed.

Lemma check_b64_cases field noun limit label value st :
  (check_b64 field noun limit label value st = Ok st <->
     exists text n,
       value = JStr text /\ Str.strip text <> []
       /\ b64_text_length text = Some n /\ within_limit n limit)
  /\ ((exists e, check_b64 field noun limit label value st = Raise e) <->
      exists text n,
        value = JStr text /\ Str.strip text <> []
        /\ b64_text_length text = Some n /\ incomparable limit)
  /\ (forall e,
        check_b64 field noun limit label value st = Raise e ->
        exists msg, e = TypeError msg)
  /\ (forall st',
        check_b64 field noun limit label value st = Ok st' ->
        st' = st \/ exists msg, st' = add_error st msg).
Proof.
  unfold check_b64.
  assert (Hadd : forall msg, Ok (add_error st msg) = Ok st -> False).
  { intros msg [= H]. by apply add_error_neq in H. }
  destruct value as [| | |text| |];
    try (split; [split; [by intros H%Hadd | by intros (? & ? & [=] & _)] |];
         split; [split; [by intros [? ?] | by intros (? & ? & [=] & _)] |];
         split; [done |];
         intros st' [= <-]; right; by eexists).
  destruct (negb (Str.nonempty (Str.strip text))) eqn:Es.
  { assert (Str.strip text = []) as Hs by (by destruct (Str.strip text)).
    split; [split; [by intros H%Hadd | by intros (? & ? & [= <-] & ? & _)] |].
    split; [split; [by intros [? ?] | by intros (? & ? & [= <-] & ? & _)] |].
    split; [done |].
    intros st' [= <-]. right. by eexists. }
  apply strip_nonempty in Es.
  destruct (b64_text_length text) as [len|] eqn:Eb.
  2: { split; [split; [by intros H%Hadd |] |].
       - intros (? & ? & [= <-] & _ & H & _). by rewrite Eb in H.
       - split; [split; [by intros [? ?] |] |].
         + intros (? & ? & [= <-] & _ & H & _). by rewrite Eb in H.
         + split; [done |]. intros st' [= <-]. right. by eexists. }
  destruct limit as [| b | m | s | l | d]; simpl;
    try (split; [split; [done | by intros (? & ? & _ & _ & _ & [])] |];
         split; [split; [intros _; by exists text, len | intros _; by eexists] |];
         split; [intros e [= <-]; by eexists | done]).
  - (* a boolean limit *)
    destruct ((if b then 1 else 0) <? len) eqn:El.
    + apply Z.ltb_lt in El.
      split; [split; [by intros H%Hadd |] |].
      * intros (? & n & [= <-] & _ & H & Hn). rewrite Eb in H.
        injection H as <-. simpl in Hn. lia.
      * split; [split; [by intros [? ?] | by intros (? & ? & _ & _ & _ & [])] |].
        split; [done |].
        intros st' [= <-]. right. by eexists.
    + apply Z.ltb_ge in El.
      split; [split; [intros _; by exists text, len | done] |].
      split; [split; [by intros [? ?] | by intros (? & ? & _ & _ & _ & [])] |].
      split; [done |].
      intros st' [= <-]. by left.
  - (* a number *)
    destruct (m <? len) eqn:El.
    + apply Z.ltb_lt in El.
      split; [split; [by intros H%Hadd |] |].
      * intros (? & n & [= <-] & _ & H & Hn). rewrite Eb in H.
        injection H as <-. simpl in Hn. lia.
      * split; [split; [by intros [? ?] | by intros (? & ? & _ & _ & _ & [])] |].
        split; [done |].
        intros st' [= <-]. right. by eexists.
    + apply Z.ltb_ge in El.
      split; [split; [intros _; by exists text, len | done] |].
      split; [split; [by intros [? ?] | by intros (? & ? & _ & _ & _ & [])] |].
      split; [done |].
      intros st' [= <-]. by left.
Qed.


(** X7. When [config.json] has no [titleMaxLength], the limit of a title
    is 100 characters, the bound included: a title that decodes to [n]
    characters is reported, with its length and the limit, exactly when
    [n] exceeds 100. Likewise a description is limited to 500 characters
    when there is no [descriptionMaxLength]. *)
Theorem default_limits d c label text n st :
  load_run_config (JObj d) = Ok c ->
  Str.strip text <> [] -> b64_text_length text = Some n ->
  (dict_has "titleMaxLength" d = false ->
   check_b64 "titleB64" "title" (title_max_length c) label (JStr text) st
   = Ok (if 100 <? n
         then add_error st ("ERROR: title exceeds max chars (len="
                              ++ str_of_Z n ++ ", limit=100) in "
                              ++ label ++ ".")
         else st))
  /\ (dict_has "descriptionMaxLength" d = false ->
      check_b64 "descriptionB64" "description" (description_max_length c)
        label (JStr text) st
      = Ok (if 500 <? n
            then add_error st ("ERROR: description exceeds max chars (len="
                                 ++ str_of_Z n ++ ", limit=500) in "
                                 ++ label ++ ".")
            else st)).
Proof.
  intros Hc Hs Hb. unfold load_run_config in Hc. simpl in Hc.
  destruct (_build_raw_base _) as [base|]; [| done]. simpl in Hc.
  injection Hc as <-. unfold check_b64.
  apply strip_nonempty in Hs. rewrite Hs, Hb. simpl.
  split; intros ->; simpl; by destruct (_ <? n).
Qed.

(** ** What a run prints *)

Lemma lines_refl st : error_lines_added st st.
Proof. exists []. split; [by rewrite app_nil_r | constructor]. Qed.

Lemma lines_trans st1 st2 st3 :
  error_lines_added st1 st2 -> error_lines_added st2 st3 ->
  error_lines_added st1 st3.
Proof.
  intros (e1 & H1 & T1) (e2 & H2 & T2). exists (e1 ++ e2).
  split; [by rewrite H2, H1, app_assoc | by apply Forall_app].
Qed.

Lemma lines_add st msg :
  Str.startswith "ERROR: " msg = true -> error_lines_added st (add_error st msg).
Proof. intros H. exists [msg]. split; [done |]. by repeat constructor. Qed.

Ltac lines_tac :=
  first [ apply lines_refl | apply lines_add; reflexivity ].

Lemma check_thumbnail_lines w label dir v st :
  error_lines_added st (check_thumbnail w label dir v st).
Proof.
  unfold check_thumbnail. destruct v; try lines_tac.
  destruct (negb _); [lines_tac |]. destruct (negb _); lines_tac.
Qed.

Lemma check_image_lines w label dir st v :
  error_lines_added st (check_image w label dir st v).
Proof.
  unfold check_image. destruct v; try lines_tac.
  destruct (negb _); [lines_tac |]. destruct (negb _); lines_tac.
Qed.

Lemma check_images_lines w label dir v st :
  error_lines_added st (check_images w label dir v st).
Proof.
  unfold check_images. destruct v as [| | | |l|]; try lines_tac.
  destruct l as [|x l]; [lines_tac |].
  set (st0 := if (8 <? _)%nat then _ else st).
  assert (H0 : error_lines_added st st0)
    by (subst st0; destruct (8 <? _)%nat; lines_tac).
  clearbody st0. generalize (x :: l). clear x l. intros l.
  revert st0 H0. induction l as [|y l IH]; intros st0 H0; simpl; [done |].
  apply IH. eapply lines_trans; [done | apply check_image_lines].
Qed.

Lemma check_repository_url_lines w label v st st' :
  check_repository_url w label v st = Ok st' -> error_lines_added st st'.
Proof.
  unfold check_repository_url. destruct v as [| | |url| |];
    try (intros [= <-]; lines_tac).
  destruct (negb (Str.nonempty _)); [intros [= <-]; lines_tac |].
  destruct (urlparse url) as [r|e]; [| done]. cbn [mbind result_bind].
  repeat (destruct (negb _); [intros [= <-]; lines_tac |]).
  intros [= <-]. lines_tac.
Qed.

Lemma check_tags_lines label v st :
  error_lines_added st (check_tags label v st).
Proof.
  unfold check_tags. destruct v as [| | |t| |]; try lines_tac.
  destruct (negb _); [lines_tac |].
  destruct (Str.contains " " t); [lines_tac |].
  destruct (invalid_tags t); lines_tac.
Qed.

Lemma check_b64_lines field noun limit label v st st' :
  check_b64 field noun limit label v st = Ok st' -> error_lines_added st st'.
Proof.
  unfold check_b64. destruct v as [| | |text| |];
    try (intros [= <-]; lines_tac).
  destruct (negb _); [intros [= <-]; lines_tac |].
  destruct (b64_text_length text) as [len|]; [| intros [= <-]; lines_tac].
  destruct (int_gt len limit) as [[|]|]; try done; intros [= <-]; lines_tac.
Qed.

Lemma resolve_identity_lines w label dir st :
  error_lines_added st (resolve_identity w label dir st).2.
Proof.
  unfold resolve_identity.
  destruct (id_files st !! dir) as [[content|text]|]; simpl; try lines_tac.
  destruct (id_write_error w dir) as [t|]; simpl.
  - exists ["ERROR: Failed to write autogen_id (" ++ t ++ ") in " ++ label ++ "."].
    split; [done |]. by repeat constructor.
  - exists []. split; [by rewrite app_nil_r | constructor].
Qed.

Lemma register_identity_lines label package_id st :
  error_lines_added st (register_identity label package_id st).
Proof.
  unfold register_identity. destruct package_id as [s|]; [| lines_tac].
  destruct (Str.nonempty s); [| lines_tac].
  destruct (bool_decide _); simpl.
  - eexists. split; [done |]. by repeat constructor.
  - exists []. split; [by rewrite app_nil_r | constructor].
Qed.

Lemma check_and_transform_lines w c label p manifest package_id st st' :
  check_and_transform w c label p manifest package_id st = Ok st' ->
  error_lines_added st st'.
Proof.
  unfold check_and_transform. destruct manifest as [| | | | |d]; try done.
  set (st1 := check_thumbnail _ _ _ _ st).
  set (st2 := check_images _ _ _ _ st1).
  destruct (check_repository_url w label _ st2) as [st3|] eqn:E3; [| done].
  cbn [mbind result_bind].
  set (st4 := check_tags _ _ st3).
  destruct (check_b64 "titleB64" _ _ _ _ st4) as [st5|] eqn:E5; [| done].
  cbn [mbind result_bind].
  destruct (check_b64 "descriptionB64" _ _ _ _ st5) as [st6|] eqn:E6; [| done].
  cbn [mbind result_bind]. intros [= <-].
  apply check_repository_url_lines in E3.
  apply check_b64_lines in E5. apply check_b64_lines in E6.
  assert (H : error_lines_added st st6).
  { eapply lines_trans; [apply check_thumbnail_lines |].
    eapply lines_trans; [apply check_images_lines |].
    eapply lines_trans; [apply E3 |].
    eapply lines_trans; [apply check_tags_lines |].
    eapply lines_trans; [apply E5 | apply E6]. }
  destruct H as (extra & H & T). by exists extra.
Qed.

Lemma process_manifest_lines w c st p st' :
  process_manifest w c st p = (st', None) -> error_lines_added st st'.
Proof.
  unfold process_manifest.
  destruct (manifest_file w p) as [manifest|text l col|text].
  - pose proof (resolve_identity_lines w (Str.join "/" ("packages" :: p))
                  (removelast p) st) as H1.
    destruct (resolve_identity _ _ _ st) as [package_id st1]. simpl in H1.
    destruct (check_and_transform _ _ _ _ _ _ _) as [st2|] eqn:E; [| done].
    intros [= <-]. apply check_and_transform_lines in E.
    eapply lines_trans; [apply H1 |].
    eapply lines_trans; [apply register_identity_lines | apply E].
  - intros [= <-]. lines_tac.
  - intros [= <-]. lines_tac.
Qed.

Lemma scan_lines w c paths st st' :
  scan w c paths st = (st', None) -> error_lines_added st st'.
Proof.
  revert st. induction paths as [|p paths IH]; intros st; simpl.
  - intros [= <-]. apply lines_refl.
  - destruct (process_manifest w c st p) as [st1 [e|]] eqn:E; [done |].
    intros H. apply process_manifest_lines in E. apply IH in H.
    by eapply lines_trans.
Qed.

(** X8. What a run prints goes with how it ends. A run that exits by
    [sys.exit] exits with status 1 and has printed at least one line, and
    every line it printed starts with ERROR. A run that ends normally has
    printed four lines that start with SUCCESS, the last three naming the
    three files of [release/]. A run that an exception ends has printed
    nothing. *)
Theorem printed_lines_tagged w :
  match status (main w) with
  | SysExit code =>
      code = 1 /\ printed (main w) <> []
      /\ tagged "ERROR: " (printed (main w))
  | ExitSuccess =>
      printed (main w)
      = ["SUCCESS: Database and version files generated.";
         "SUCCESS: " ++ abs_text (repo_root w ++ ["release"; "autogen_database.json"]);
         "SUCCESS: " ++ abs_text (repo_root w ++ ["release"; "autogen_database.json.gz"]);
         "SUCCESS: " ++ abs_text (repo_root w ++ ["release"; "autogen_version.txt"])]
      /\ tagged "SUCCESS: " (printed (main w))
  | Traceback _ => printed (main w) = []
  end.
Proof.
  unfold main. destruct (scan_all w) as [|text|e files|st] eqn:E; simpl.
  - split; [done |]. split; [done |]. by repeat constructor.
  - split; [done |]. split; [done |]. by repeat constructor.
  - done.
  - unfold finish. destruct (errors st) as [|msg rest] eqn:Ee; simpl.
    + split; [done |]. by repeat constructor.
    + split; [done |]. split; [done |].
      unfold scan_all in E.
      destruct (sorted (discovered w)) as [|p paths]; [done |].
      destruct (_get_config (config_file w)) as [config| |]; try done.
      destruct (load_run_config config) as [c|]; try done.
      destruct (scan w c (p :: paths) (initial_state w)) as [st' [?|]] eqn:Es;
        [done |].
      injection E as ->. apply scan_lines in Es as (extra & H & T).
      simpl in H. rewrite <- Ee, H. done.
Qed.

(** ** The identity files a run leaves *)

Lemma files_grown_refl w paths m : files_grown w paths m m.
Proof. intros dir. destruct (m !! dir) eqn:E; [done | by left]. Qed.

Lemma files_grown_trans w paths1 paths2 a b c :
  files_grown w paths1 a b -> files_grown w paths2 b c ->
  files_grown w (paths1 ++ paths2) a c.
Proof.
  intros H1 H2 dir. specialize (H1 dir). specialize (H2 dir).
  destruct (a !! dir) as [f|].
  - by rewrite H1 in H2.
  - destruct H1 as [H1 | (k & p & Hin & Hd & Hl & Hw & H1)]; rewrite H1 in H2.
    + destruct H2 as [H2 | (k & p & Hin & H2)]; [by left |].
      right. exists k, p. split; [apply in_app_iff; by right | done].
    + right. exists k, p. split; [apply in_app_iff; by left | done].
Qed.

Lemma resolve_identity_files w label p st :
  is_loaded (manifest_file w p) = true ->
  files_grown w [p] (id_files st)
    (id_files (resolve_identity w label (removelast p) st).2).
Proof.
  intros Hl. unfold resolve_identity.
  destruct (id_files st !! removelast p) as [[content|text]|] eqn:E; simpl;
    try apply files_grown_refl.
  destruct (id_write_error w (removelast p)) eqn:Ew; simpl;
    [apply files_grown_refl |].
  intros dir. destruct (decide (dir = removelast p)) as [-> | Hne].
  - rewrite E. right. exists (urandom_calls st), p.
    rewrite lookup_insert_eq. repeat split; try done. by left.
  - rewrite lookup_insert_ne by done.
    destruct (id_files st !! dir); [done | by left].
Qed.

Lemma register_identity_files label package_id st :
  id_files (register_identity label package_id st) = id_files st.
Proof.
  unfold register_identity. destruct package_id as [s|]; [| done].
  destruct (Str.nonempty s); [| done]. by destruct (bool_decide _).
Qed.

Lemma process_manifest_files w c st p st' e :
  process_manifest w c st p = (st', e) ->
  files_grown w [p] (id_files st) (id_files st').
Proof.
  unfold process_manifest.
  destruct (manifest_file w p) as [manifest|text l col|text] eqn:Ef;
    try (intros [= <- _]; apply files_grown_refl).
  assert (Hl : is_loaded (manifest_file w p) = true) by (by rewrite Ef).
  pose proof (resolve_identity_files w (Str.join "/" ("packages" :: p)) p st Hl)
    as H1.
  destruct (resolve_identity _ _ _ st) as [package_id st1]. simpl in H1.
  pose proof (register_identity_files (Str.join "/" ("packages" :: p))
                package_id st1) as H2.
  destruct (check_and_transform _ _ _ _ _ _ _) as [st2|] eqn:E.
  - intros [= <- _]. apply check_and_transform_ok in E
      as (d & st3 & _ & (_ & _ & H3 & _) & ->).
    unfold add_manifest. cbn [id_files]. by rewrite H3, H2.
  - intros [= <- _]. by rewrite register_identity_files.
Qed.

Lemma scan_files w c paths st st' e :
  scan w c paths st = (st', e) ->
  files_grown w paths (id_files st) (id_files st').
Proof.
  revert st. induction paths as [|p paths IH]; intros st; simpl.
  - intros [= <- _]. apply files_grown_refl.
  - destruct (process_manifest w c st p) as [st1 [e1|]] eqn:E.
    + intros [= <- _]. apply process_manifest_files in E.
      intros dir. specialize (E dir). destruct (id_files st !! dir); [done |].
      destruct E as [E | (k & q & [<- | []] & E)]; [by left |].
      right. exists k, p. split; [by left | done].
    + intros H. apply process_manifest_files in E. apply IH in H.
      apply (files_grown_trans w [p] paths _ _ _ E H).
Qed.

(** X9. However a run ends, the identity files that exist at its start
    are still there with the same content when it ends; and every file it
    has created lies beside a discovered manifest that could be loaded,
    in a directory that could be written, and holds a fresh identifier
    followed by a line end. *)
Theorem identity_files_kept w :
  forall dir,
    match id_files_before w !! dir with
    | Some f => id_files_after (main w) !! dir = Some f
    | None =>
        id_files_after (main w) !! dir = None
        \/ exists k p,
             In p (discovered w) /\ dir = removelast p
             /\ is_loaded (manifest_file w p) = true
             /\ id_write_error w dir = None
             /\ id_files_after (main w) !! dir
                = Some (IdText (uuid4 (urandom w k) ++ ["010"%char]))
    end.
Proof.
  change (files_grown w (discovered w) (id_files_before w)
            (id_files_after (main w))).
  assert (Hs : forall st,
             files_grown w (sorted (discovered w)) (id_files_before w) st ->
             files_grown w (discovered w) (id_files_before w) st).
  { intros st H dir. specialize (H dir).
    destruct (id_files_before w !! dir); [done |].
    destruct H as [H | (k & p & Hin & H)]; [by left |].
    right. exists k, p. split; [| done].
    eapply Permutation_in; [apply sorted_perm | done]. }
  unfold main, scan_all.
  destruct (sorted (discovered w)) as [|p paths] eqn:Ep;
    [apply files_grown_refl |].
  destruct (_get_config (config_file w)) as [config| |];
    try apply files_grown_refl.
  destruct (load_run_config config) as [c|]; [| apply files_grown_refl].
  destruct (scan w c (p :: paths) (initial_state w)) as [st [e|]] eqn:E;
    apply scan_files in E; apply Hs; simpl in E |- *.
  - done.
  - unfold finish. by destruct (errors st).
Qed.

(** ** The helpers of the normalizer *)

Lemma ensure_trailing_slash_ends url :
  Str.endswith "/" (_ensure_trailing_slash url) = true.
Proof.
  unfold _ensure_trailing_slash.
  destruct (Str.endswith "/" url) eqn:E; [done | apply endswith_app].
Qed.

(** X10. Whatever [_build_raw_base] returns ends with a slash, on each
    of its three ways: the text [packages...] that the transformer puts
    after the base always follows a slash. *)
Theorem build_raw_base_ends_with_slash url base :
  _build_raw_base url = Ok base -> Str.endswith "/" base = true.
Proof.
  unfold _build_raw_base.
  destruct (_strip_query_and_fragment _) as [clean|]; [| done].
  cbn [mbind result_bind].
  destruct (Str.contains "raw.githubusercontent.com" clean).
  { destruct (_strip_file_name clean); [| done]. intros [= <-].
    apply ensure_trailing_slash_ends. }
  destruct (Str.contains "github.com/" clean).
  - intros [= <-]. unfold _github_raw_base.
    destruct (split_tree _) as [repo_path branch].
    rewrite !app_assoc. apply endswith_app.
  - destruct (_strip_file_name clean); [| done]. intros [= <-].
    apply ensure_trailing_slash_ends.
Qed.

Lemma lstrip_space_head_ok s c :
  head (Str.lstrip_space s) = Some c -> Str.isspace c = false.
Proof.
  induction s as [|d s IH]; simpl; [done |].
  destruct (Str.isspace d) eqn:E; [done |]. by intros [= <-].
Qed.

Lemma lstrip_space_last s :
  Str.lstrip_space s <> [] -> last (Str.lstrip_space s) = last s.
Proof.
  induction s as [|d s IH]; simpl; [done |].
  destruct (Str.isspace d); [| done]. intros H. rewrite IH by done.
  destruct s; [done | done].
Qed.

Lemma strip_last s c : last (Str.strip s) = Some c -> Str.isspace c = false.
Proof.
  unfold Str.strip. rewrite <- head_rev, rev_involutive.
  apply lstrip_space_head_ok.
Qed.

Lemma strip_head s c : head (Str.strip s) = Some c -> Str.isspace c = false.
Proof.
  unfold Str.strip. rewrite head_rev. intros H.
  rewrite lstrip_space_last in H by (by intros E; rewrite E in H).
  rewrite <- head_rev, rev_involutive in H. by apply lstrip_space_head_ok in H.
Qed.

Lemma strip_strip s : Str.strip (Str.strip s) = Str.strip s.
Proof. apply strip_fixed; [apply strip_head | apply strip_last]. Qed.

(** X11. [_normalize_repository_url] is idempotent. Its result is
    trimmed; it is empty exactly when the value is blank, and otherwise it
    holds a scheme separator, [https://] being put before a text that has
    none. *)
Theorem normalize_repository_url_idempotent value :
  let url := _normalize_repository_url value in
  _normalize_repository_url url = url
  /\ Str.strip url = url
  /\ (url = [] <-> Str.strip value = [])
  /\ (Str.strip value <> [] -> Str.contains "://" url = true)
  /\ (Str.contains "://" (Str.strip value) = false -> Str.strip value <> [] ->
      url = "https://" ++ Str.strip value).
Proof.
  intros url.
  assert (Hfix : Str.strip url = url).
  { subst url. unfold _normalize_repository_url.
    destruct (Str.strip value) as [|c v] eqn:Es; [done |]. cbn [Str.nonempty negb].
    destruct (Str.contains "://" (c :: v)).
    - cbn [negb]. rewrite <- Es. apply strip_strip.
    - cbn [negb]. apply strip_fixed.
      + by intros ? [= <-].
      + intros d Hd. apply (strip_last value). rewrite Es.
        change ("https://" ++ c :: v) with ("https:/" ++ "/"%char :: c :: v) in Hd.
        rewrite last_app, last_cons_cons in Hd.
        destruct (last (c :: v)) eqn:El; [done |]. by apply last_None in El. }
  split; [| split; [done |]].
  - unfold _normalize_repository_url at 1. rewrite Hfix.
    subst url. unfold _normalize_repository_url.
    destruct (Str.strip value) as [|c v] eqn:Es; [done |]. cbn [Str.nonempty negb].
    destruct (Str.contains "://" (c :: v)) eqn:Ec; cbn [negb].
    + by rewrite Ec.
    + assert (Str.contains "://" ("https://" ++ c :: v) = true) as ->
        by apply (contains_here "://" "https" (c :: v)).
      done.
  - subst url. unfold _normalize_repository_url.
    destruct (Str.strip value) as [|c v] eqn:Es.
    + split; [done |]. split; [done |]. done.
    + cbn [Str.nonempty negb].
      destruct (Str.contains "://" (c :: v)) eqn:Ec; cbn [negb].
      * split; [done |]. split; [done |]. done.
      * split; [done |]. split; [| done].
        intros _. apply (contains_here "://" "https" (c :: v)).
Qed.

(** ** The normalizer on a URL that is not a GitHub web URL *)

Lemma split_char_absent c s : ~ In c s -> Str.split [c] s = [s].
Proof.
  unfold Str.split. induction s as [|x s IH]; intros H; [done |].
  rewrite split_go_cons.
  - rewrite IH; [done |]. intros Hin. apply H. by right.
  - simpl. rewrite andb_true_r. apply eqb_false. intros ->. apply H. by left.
Qed.

Lemma split_char_app c a b :
  ~ In c b -> Str.split [c] (a ++ c :: b) = Str.split [c] a ++ [b].
Proof.
  intros Hb. unfold Str.split. induction a as [|x a IH].
  - cbn. rewrite eqb_same. cbn.
    by rewrite (split_char_absent c b Hb : Str.split_go [c] b 0 = [b]).
  - change ((x :: a) ++ c :: b) with (x :: (a ++ c :: b)).
    destruct (Str.eqb c x) eqn:E.
    + cbn [Str.split_go Str.startswith]. rewrite E. cbn. by rewrite IH.
    + rewrite !split_go_cons by (simpl; by rewrite E).
      rewrite IH. destruct (Str.split_go [c] a 0) eqn:Ea; [| done].
      by apply split_go_nonempty in Ea.
Qed.

Lemma join_split_char c s : Str.join [c] (Str.split [c] s) = s.
Proof.
  unfold Str.split. induction s as [|x s IH]; [done |].
  destruct (Str.eqb c x) eqn:E.
  - cbn [Str.split_go Str.startswith]. rewrite E. cbn [andb length Nat.sub].
    apply eqb_true in E as <-.
    destruct (Str.split_go [c] s 0) as [|h t] eqn:Es;
      [by apply split_go_nonempty in Es |].
    change (Str.join [c] ([] :: h :: t)) with ([c] ++ Str.join [c] (h :: t)).
    by rewrite IH.
  - rewrite split_go_cons by (simpl; by rewrite E).
    destruct (Str.split_go [c] s 0) as [|h t] eqn:Es;
      [by apply split_go_nonempty in Es |].
    cbn [hd tl]. rewrite <- IH. by destruct t.
Qed.

Lemma path_ok_directory dir file :
  path_ok (dir ++ "/" ++ file) -> path_ok (dir ++ "/").
Proof.
  intros [Hp Hh]. split.
  - rewrite app_assoc, forallb_app in Hp. by apply andb_true_iff in Hp as [Hp _].
  - by destruct dir.
Qed.

(** X12. On a well-formed http or https URL, with a query, a fragment
    and white space around it or not, that is no GitHub web URL (it names
    [raw.githubusercontent.com], or it holds no [github.com/] at all),
    [_build_raw_base] returns the URL of the directory: scheme, host and
    the path up to its last slash, without query and fragment; a URL with
    no path gets the path [/]. *)
Theorem build_raw_base_directory ws1 sch host p d q f ws2 :
  forallb Str.isspace ws1 = true -> forallb Str.isspace ws2 = true ->
  sch = "http" \/ sch = "https" ->
  host <> [] -> forallb host_char host = true ->
  path_ok p -> tail_ok q f -> directory_of p d ->
  Str.contains "raw.githubusercontent.com" (sch ++ "://" ++ host ++ p) = true
  \/ Str.contains "github.com/" (sch ++ "://" ++ host ++ p) = false ->
  _build_raw_base (ws1 ++ (sch ++ "://" ++ host ++ p ++ url_tail q f) ++ ws2)
  = Ok (sch ++ "://" ++ host ++ d).
Proof.
  intros H1 H2 Hs Hne Hh Hp Ht Hd Hb. unfold _build_raw_base.
  assert (Hn : _normalize_repository_url
                 (ws1 ++ (sch ++ "://" ++ host ++ p ++ url_tail q f) ++ ws2)
               = sch ++ "://" ++ host ++ p ++ url_tail q f).
  { unfold _normalize_repository_url.
    set (s := sch ++ "://" ++ host ++ p ++ url_tail q f).
    assert (Hns : forall c, In c s -> Str.isspace c = false).
    { intros c Hc. destruct (Str.isspace c) eqn:E; [| done]. exfalso.
      revert Hc. by apply url_no_space. }
    rewrite strip_around; try done.
    2:{ intros c Hc. apply Hns. destruct s; [done |]. injection Hc as ->. by left. }
    2:{ intros c Hc. apply Hns. apply last_Some in Hc as [l' ->].
        apply in_app_iff. right. by left. }
    assert (Str.nonempty s = true) as ->
      by (subst s; by destruct Hs as [-> | ->]).
    cbn [negb].
    assert (Str.contains "://" s = true) as -> by apply (contains_here "://" sch).
    done. }
  rewrite Hn, strip_query_and_fragment_http by done.
  cbn [mbind result_bind].
  assert (He : _ensure_trailing_slash (sch ++ "://" ++ host ++ d)
               = sch ++ "://" ++ host ++ d).
  { unfold _ensure_trailing_slash.
    assert (Str.endswith "/" (sch ++ "://" ++ host ++ d) = true) as ->; [| done].
    destruct Hd as [|dir file _]; rewrite !app_assoc; apply endswith_app. }
  assert (Hf : _strip_file_name (sch ++ "://" ++ host ++ p)
               = Ok (sch ++ "://" ++ host ++ d)).
  { unfold _strip_file_name.
    pose proof (urlparse_http sch host p None None Hs Hh Hp (conj I I)) as Hu.
    change (url_tail None None) with (@nil ascii) in Hu.
    rewrite app_nil_r in Hu. rewrite Hu. simpl.
    destruct Hd as [|dir file Hfile].
    - simpl. f_equal. by apply (geturl_http sch host "/").
    - destruct file as [|c file].
      + assert (Str.endswith "/" (dir ++ "/" ++ []) = true) as ->
          by apply (endswith_app "/" dir).
        done.
      + assert (Str.endswith "/" (dir ++ "/" ++ c :: file) = false) as ->.
        { destruct (last (c :: file)) as [x|] eqn:El;
            [| by apply last_None in El].
          apply (endswith_last "/"%char _ x).
          - change (dir ++ "/" ++ c :: file) with (dir ++ "/"%char :: c :: file).
            by rewrite last_app, last_cons_cons, El.
          - intros <-. apply Hfile. apply last_Some in El as [l' ->].
            apply in_app_iff. right. by left. }
        change (dir ++ "/" ++ c :: file) with (dir ++ "/"%char :: c :: file).
        rewrite (split_char_app "/"%char dir (c :: file) Hfile).
        rewrite removelast_last, join_split_char. f_equal.
        apply (geturl_http sch host (dir ++ "/")); try done.
        by apply (path_ok_directory dir (c :: file)). }
  destruct (Str.contains "raw.githubusercontent.com" _) eqn:Er.
  - rewrite Hf. cbn [mbind result_bind]. by rewrite He.
  - destruct Hb as [Hb | Hb]; [done |]. rewrite Hb, Hf.
    cbn [mbind result_bind]. by rewrite He.
Qed.

(** ** Thumbnail and images *)

Lemma check_image_ok w label dir st image :
  media_ok w dir image = true -> check_image w label dir st image = st.
Proof.
  unfold media_ok, check_image. destruct image as [| | |name| |]; try done.
  intros [-> ->]%andb_true_iff. done.
Qed.

Lemma check_image_bad w label dir st image :
  media_ok w dir image = false ->
  exists msg, check_image w label dir st image = add_error st msg.
Proof.
  unfold media_ok, check_image.
  destruct image as [| | |name| |]; try (intros _; by eexists).
  destruct (Str.nonempty (Str.strip name)); simpl; [| intros _; by eexists].
  intros ->. by eexists.
Qed.

Lemma check_image_fold_count w label dir l st :
  length (errors (fold_left (check_image w label dir) l st))
  = (length (errors st)
     + length (List.filter (fun i => negb (media_ok w dir i)) l))%nat.
Proof.
  revert st. induction l as [|x l IH]; intros st; simpl; [lia |].
  rewrite IH. destruct (media_ok w dir x) eqn:E; simpl.
  - by rewrite check_image_ok.
  - destruct (check_image_bad w label dir st x E) as [msg ->]. simpl.
    rewrite length_app. simpl. lia.
Qed.

Lemma check_image_fold_ok w label dir l st :
  forallb (media_ok w dir) l = true ->
  fold_left (check_image w label dir) l st = st.
Proof.
  induction l as [|x l IH]; simpl; [done |].
  intros [Hx Hl]%andb_true_iff. rewrite check_image_ok by done. by apply IH.
Qed.

Lemma no_bad_entries {A} (ok : A -> bool) l :
  length (List.filter (fun i => negb (ok i)) l) = 0%nat -> forallb ok l = true.
Proof.
  induction l as [|x l IH]; simpl; [done |].
  destruct (ok x); simpl; [done | done].
Qed.

Lemma check_images_count w label dir l st :
  l <> [] ->
  length (errors (check_images w label dir (JArr l) st))
  = (length (errors st) + (if (8 <? length l)%nat then 1 else 0)
     + length (List.filter (fun i => negb (media_ok w dir i)) l))%nat.
Proof.
  intros Hl. unfold check_images. destruct l as [|x l]; [done |].
  rewrite check_image_fold_count.
  destruct (8 <? length (x :: l))%nat; simpl; [| lia].
  rewrite length_app. simpl. lia.
Qed.

Lemma check_images_accepts w label dir images st :
  check_images w label dir images st = st <->
  exists l, images = JArr l /\ l <> [] /\ (length l <= 8)%nat
            /\ forallb (media_ok w dir) l = true.
Proof.
  split.
  - intros H.
    destruct images as [| | | |l|];
      try (by apply add_error_neq in H).
    destruct l as [|x l]; [by apply add_error_neq in H |].
    exists (x :: l). split; [done |]. split; [done |].
    pose proof (check_images_count w label dir (x :: l) st ltac:(done)) as Hc.
    rewrite H in Hc.
    destruct (8 <? length (x :: l))%nat eqn:E8; [lia |].
    apply Nat.ltb_ge in E8. split; [done |].
    apply no_bad_entries. lia.
  - intros (l & -> & Hl & H8 & Hok). unfold check_images.
    destruct l as [|x l]; [done |].
    apply Nat.ltb_ge in H8. rewrite H8. by apply check_image_fold_ok.
Qed.


Lemma check_thumbnail_accepts w label dir thumbnail st :
  check_thumbnail w label dir thumbnail st = st <->
  media_ok w dir thumbnail = true.
Proof.
  unfold check_thumbnail, media_ok.
  destruct thumbnail as [| | |name| |];
    try (split; [by intros H%add_error_neq | done]).
  destruct (Str.nonempty (Str.strip name)); simpl;
    [| split; [by intros H%add_error_neq | done]].
  destruct (is_file w dir name); simpl; [done |].
  split; [by intros H%add_error_neq | done].
Qed.


(** ** The repository URL *)

Lemma http_scheme s :
  in_list s ["http"; "https"] = true <-> s = "http" \/ s = "https".
Proof.
  unfold in_list. simpl. rewrite orb_false_r, orb_true_iff, !eq_str_true.
  done.
Qed.

Lemma check_repository_url_accepts w label value st :
  check_repository_url w label value st = Ok st <->
  exists url r,
    value = JStr url /\ Str.strip url <> [] /\ urlparse url = Ok r
    /\ (scheme r = "http" \/ scheme r = "https")
    /\ Str.endswith "github.com" (netloc r) = true
    /\ _check_url_exists w url = true.
Proof.
  assert (Hadd : forall msg, Ok (add_error st msg) = Ok st -> False).
  { intros msg [= H]. by apply add_error_neq in H. }
  unfold check_repository_url.
  destruct value as [| | |url| |];
    try (split; [by intros H%Hadd | by intros (? & ? & [=] & _)]).
  destruct (negb (Str.nonempty (Str.strip url))) eqn:Es.
  { split; [by intros H%Hadd |]. intros (? & ? & [= <-] & Hs & _).
    apply strip_nonempty in Hs. by rewrite Hs in Es. }
  apply strip_nonempty in Es.
  destruct (urlparse url) as [r|e'] eqn:Eu; cbn [mbind result_bind].
  2:{ split; [done |]. intros (? & ? & [= <-] & _ & H & _).
      by rewrite Eu in H. }
  assert (Hinv : forall P : Prop,
             (scheme r = "http" \/ scheme r = "https" ->
              Str.endswith "github.com" (netloc r) = true ->
              _check_url_exists w url = true -> P) ->
             (exists url0 r0,
                JStr url = JStr url0 /\ Str.strip url0 <> []
                /\ urlparse url0 = Ok r0
                /\ (scheme r0 = "http" \/ scheme r0 = "https")
                /\ Str.endswith "github.com" (netloc r0) = true
                /\ _check_url_exists w url0 = true) -> P).
  { intros P HP (? & ? & [= <-] & _ & H & H1 & H2 & H3).
    rewrite Eu in H. injection H as <-. by apply HP. }
  destruct (in_list (scheme r) ["http"; "https"]) eqn:E1; cbn [negb].
  2:{ split; [by intros H%Hadd |]. apply Hinv.
      intros H%http_scheme _ _. by rewrite E1 in H. }
  apply http_scheme in E1.
  destruct (Str.endswith "github.com" (netloc r)) eqn:E2; cbn [negb].
  2:{ split; [by intros H%Hadd |]. by apply Hinv. }
  destruct (_check_url_exists w url) eqn:E3; cbn [negb].
  2:{ split; [by intros H%Hadd |]. by apply Hinv. }
  split; [| done]. intros _. by exists url, r.
Qed.

(** X15. The check of [repositoryURL] leaves the state as it is exactly
    when the value is a string that is not blank, its scheme as [urlparse]
    gives it is http or https, its network location ends with
    [github.com], and the URL, as written, is reachable. The check
    returns for every value without a square bracket; when it does not
    return, the value is a string that is not blank on which [urlparse]
    raises, and what is raised is a [ValueError]. When it returns it has
    added at most one error. *)
Theorem check_repository_url_exact w label value st :
  (check_repository_url w label value st = Ok st <->
     exists url r,
       value = JStr url /\ Str.strip url <> [] /\ urlparse url = Ok r
       /\ (scheme r = "http" \/ scheme r = "https")
       /\ Str.endswith "github.com" (netloc r) = true
       /\ _check_url_exists w url = true)
  /\ (forall e,
        check_repository_url w label value st = Raise e <->
        exists url, value = JStr url /\ Str.strip url <> []
                    /\ urlparse url = Raise e)
  /\ (forall e,
        check_repository_url w label value st = Raise e ->
        (exists msg, e = ValueError msg)
        /\ exists url, value = JStr url /\ ~ bracket_free url)
  /\ (forall st',
        check_repository_url w label value st = Ok st' ->
        st' = st \/ exists msg, st' = add_error st msg).
Proof.
  assert (Hadd : forall msg, Ok (add_error st msg) = Ok st -> False).
  { intros msg [= H]. by apply add_error_neq in H. }
  assert (Hraise : forall e,
             check_repository_url w label value st = Raise e <->
             exists url, value = JStr url /\ Str.strip url <> []
                         /\ urlparse url = Raise e).
  { intros e. unfold check_repository_url.
    destruct value as [| | |url| |];
      try (split; [done | by intros (? & [=] & _)]).
    destruct (negb (Str.nonempty (Str.strip url))) eqn:Es.
    { split; [done |]. intros (? & [= <-] & Hs & _).
      apply strip_nonempty in Hs. by rewrite Hs in Es. }
    apply strip_nonempty in Es.
    destruct (urlparse url) as [r|e'] eqn:Eu; cbn [mbind result_bind].
    - split; [| by intros (? & [= <-] & _ & H); rewrite Eu in H].
      by repeat (destruct (negb _)).
    - split.
      + intros [= <-]. by exists url.
      + intros (? & [= <-] & _ & H). rewrite Eu in H. by injection H as ->. }
  split; [| split; [exact Hraise | split]].
  - apply check_repository_url_accepts.
  - intros e (url & -> & _ & Hu)%Hraise. split.
    + by apply (urlparse_raises url).
    + exists url. split; [done |]. intros Hfree.
      destruct (urlparse_free url Hfree) as (r & Hr & _). by rewrite Hr in Hu.
  - intros st'. unfold check_repository_url.
    destruct value as [| | |url| |];
      try (intros [= <-]; right; by eexists).
    destruct (negb (Str.nonempty _)); [intros [= <-]; right; by eexists |].
    destruct (urlparse url) as [r|e']; [| done]. cbn [mbind result_bind].
    repeat (destruct (negb _); [intros [= <-]; right; by eexists |]).
    intros [= <-]. by left.
Qed.

(** X16. For a well-formed http or https URL the check of
    [repositoryURL] passes exactly when the host ends with [github.com],
    whatever comes before it, and the URL answers; a host that does not
    end so is reported as not pointing to github.com, and no request is
    made for it. *)
Theorem repository_url_host w label sch host p q f st :
  sch = "http" \/ sch = "https" ->
  forallb host_char host = true -> path_ok p -> tail_ok q f ->
  let url := sch ++ "://" ++ host ++ p ++ url_tail q f in
  (check_repository_url w label (JStr url) st = Ok st <->
     Str.endswith "github.com" host = true /\ _check_url_exists w url = true)
  /\ (Str.endswith "github.com" host = false ->
      forall w',
        check_repository_url w' label (JStr url) st
        = Ok (add_error st ("ERROR: repositoryURL must point to github.com ("
                              ++ _format_value (JStr url) ++ ") in "
                              ++ label ++ "."))).
Proof.
  intros Hs Hh Hp Ht url.
  assert (Hne : Str.strip url <> []).
  { rewrite strip_fixed.
    - subst url. by destruct Hs as [-> | ->].
    - intros c Hc. destruct (Str.isspace c) eqn:E; [| done]. exfalso.
      apply (url_no_space sch host p q f c); try done.
      fold url. destruct url; [done |]. injection Hc as ->. by left.
    - intros c Hc. destruct (Str.isspace c) eqn:E; [| done]. exfalso.
      apply (url_no_space sch host p q f c); try done.
      fold url. apply last_Some in Hc as [l' ->]. apply in_app_iff.
      right. by left. }
  pose proof (urlparse_http sch host p q f Hs Hh Hp Ht) as Hu. fold url in Hu.
  split.
  - rewrite (check_repository_url_accepts w label (JStr url) st).
    split.
    + intros (u & r & [= <-] & _ & Hr & _ & He & Hc).
      rewrite Hu in Hr. injection Hr as <-. done.
    + intros [He Hc]. exists url. eexists. by repeat split.
  - intros He w'. unfold check_repository_url.
    apply strip_nonempty in Hne. rewrite Hne, Hu. cbn [mbind result_bind].
    cbn [scheme netloc].
    assert (in_list sch ["http"; "https"] = true) as -> by (by apply http_scheme).
    by rewrite He.
Qed.

(** ** The identity that is missing *)

Lemma uuid_str_nonempty n : Str.nonempty (uuid_str n) = true.
Proof. unfold uuid_str. by destruct (take 8 (hex32 n)). Qed.

(** X17. The identity step yields no usable identity, which the script
    reports as missing or empty, exactly when the [autogen_id] file exists
    and cannot be read, or exists and is blank. An identifier that is
    drawn is never empty, and it counts even when it could not be
    written. *)
Theorem identity_missing w label dir st :
  no_id (resolve_identity w label dir st).1 = true <->
  (exists text, id_files st !! dir = Some (IdUnreadable text))
  \/ (exists content,
        id_files st !! dir = Some (IdText content) /\ Str.strip content = []).
Proof.
  unfold resolve_identity.
  destruct (id_files st !! dir) as [[content|text]|] eqn:E; cbn [fst no_id].
  - rewrite negb_true_iff, nonempty_false. split.
    + intros H. right. by exists content.
    + by intros [(? & [=]) | (? & [= <-] & H)].
  - split; [| done]. intros _. left. by exists text.
  - assert (Hfresh : no_id (Some (uuid4 (urandom w (urandom_calls st)))) = false).
    { unfold no_id, uuid4. by rewrite uuid_str_nonempty. }
    destruct (id_write_error w dir); cbn [fst]; rewrite Hfresh;
      (split; [done | by intros [(? & [=]) | (? & [=] & _)]]).
Qed.

(** ** Quoted values *)

Lemma json_escape_decodable :
  exists decode : pystr -> option (ascii * pystr),
    forall c rest, decode (json_escape c ++ rest) = Some (c, rest).
Proof.
  exists (fun s =>
    match s with
    | [] => None
    | c0 :: rest0 =>
        if Str.code c0 =? 92 then
          match rest0 with
          | [] => None
          | c1 :: rest1 =>
              let n1 := Str.code c1 in
              if n1 =? 92 then Some (c1, rest1)
              else if n1 =? 34 then Some (c1, rest1)
              else if n1 =? 98 then Some ("008"%char, rest1)
              else if n1 =? 102 then Some ("012"%char, rest1)
              else if n1 =? 110 then Some ("010"%char, rest1)
              else if n1 =? 114 then Some ("013"%char, rest1)
              else if n1 =? 116 then Some ("009"%char, rest1)
              else
                match rest1 with
                | _ :: _ :: h1 :: h2 :: rest2 =>
                    let value (h : ascii) :=
                      if Str.is_digit h then (nat_of_ascii h - 48)%nat
                      else (nat_of_ascii h - 87)%nat in
                    Some (ascii_of_nat (16 * value h1 + value h2), rest2)
                | _ => None
                end
          end
        else Some (c0, rest0)
    end).
  intros c rest.
  destruct c as [[|] [|] [|] [|] [|] [|] [|] [|]]; vm_compute; reflexivity.
Qed.

Lemma json_escape_prefix_free a b x y :
  json_escape a ++ x = json_escape b ++ y -> a = b /\ x = y.
Proof.
  destruct json_escape_decodable as [decode Hd]. intros H.
  apply (f_equal decode) in H. rewrite !Hd in H. by injection H as -> ->.
Qed.

Lemma json_escape_flat_injective s1 s2 (x y : pystr) :
  flat_map json_escape s1 ++ quote :: x = flat_map json_escape s2 ++ quote :: y ->
  s1 = s2.
Proof.
  assert (Hq : forall c rest, json_escape c ++ rest <> quote :: x
                              /\ json_escape c ++ rest <> quote :: y).
  { intros c rest.
    destruct c as [[|] [|] [|] [|] [|] [|] [|] [|]]; by vm_compute. }
  revert s2. induction s1 as [|a s1 IH]; intros [|b s2]; simpl.
  - done.
  - rewrite <- app_assoc. intros H. symmetry in H. by apply Hq in H.
  - rewrite <- app_assoc. intros H. by apply Hq in H.
  - rewrite <- !app_assoc. intros [-> H]%json_escape_prefix_free.
    by rewrite (IH s2 H).
Qed.

(** X18. [_format_value] writes a string between double quotes, as it is
    when it holds no control character, double quote or backslash (other
    characters, those beyond ASCII included, are not escaped). Two
    strings are written alike only when they are the same string, so a
    message identifies the value it quotes. *)
Theorem format_value_string :
  (forall s,
     forallb unescaped s = true ->
     _format_value (JStr s) = [quote] ++ s ++ [quote])
  /\ (forall s1 s2,
        _format_value (JStr s1) = _format_value (JStr s2) -> s1 = s2).
Proof.
  split.
  - intros s H. unfold _format_value. simpl. unfold json_string.
    do 2 f_equal. induction s as [|c s IH]; [done |].
    simpl in H. apply andb_true_iff in H as [Hc Hs]. simpl. rewrite (IH Hs).
    assert (json_escape c = [c]) as ->; [| done].
    unfold unescaped in Hc. unfold json_escape.
    apply andb_true_iff in Hc as [[H1 H2]%andb_true_iff H3].
    apply negb_true_iff in H2, H3. apply Z.leb_le in H1.
    rewrite H2, H3.
    repeat (match goal with
            | |- context [?a =? ?b] =>
                destruct (Z.eqb_spec a b); [lia |]
            | |- context [?a <? ?b] =>
                destruct (Z.ltb_spec a b); [lia |]
            end).
    done.
  - intros s1 s2. unfold _format_value. simpl. unfold json_string.
    intros [= H]. by apply (json_escape_flat_injective s1 s2 [] []).
Qed.

(** ** Hosts that end with github.com *)

Lemma contains_suffix sub a s :
  Str.contains sub s = true -> Str.contains sub (a ++ s) = true.
Proof.
  intros H. induction a as [|x a IH]; [done |].
  change ((x :: a) ++ s) with (x :: (a ++ s)).
  rewrite contains_cons, IH. apply orb_true_r.
Qed.

(** A pattern whose last character occurs neither before it in the
    pattern nor in the text [a] does not start inside [a]. *)
Lemma startswith_needs_last sub c a s :
  a <> [] -> ~ In c a -> ~ In c sub ->
  Str.startswith (sub ++ [c]) (a ++ sub ++ c :: s) = false.
Proof.
  intros Ha Hca Hcs. destruct (Str.startswith _ _) eqn:E; [| done]. exfalso.
  apply startswith_inv in E as [t E].
  apply (f_equal (take (S (length sub)))) in E.
  rewrite (take_app_length' (sub ++ [c]) t) in E
    by (rewrite length_app; simpl; lia).
  rewrite (app_assoc a sub (c :: s)) in E.
  rewrite take_app_le in E
    by (rewrite length_app; destruct a; [done | simpl; lia]).
  assert (Hin : In c (a ++ sub)).
  { apply (incl_take (S (length sub))). rewrite E. apply in_app_iff.
    right. by left. }
  apply in_app_iff in Hin as [Hin | Hin]; auto.
Qed.

Lemma index_from_after sub c a s i :
  ~ In c a -> ~ In c sub ->
  Str.index_from (sub ++ [c]) (a ++ sub ++ c :: s) i = Some (i + length a)%nat.
Proof.
  intros Ha Hs. revert i. induction a as [|x a IH]; intros i.
  - simpl app. rewrite index_from_here; [f_equal; simpl; lia |].
    replace (sub ++ c :: s) with ((sub ++ [c]) ++ s) by (by rewrite <- app_assoc).
    apply startswith_app.
  - change ((x :: a) ++ sub ++ c :: s) with (x :: (a ++ sub ++ c :: s)).
    rewrite index_from_next.
    + rewrite IH; [f_equal; simpl; lia |]. intros H. apply Ha. by right.
    + by apply (startswith_needs_last sub c (x :: a) s).
Qed.

Lemma replace_schemes_rest sch rest :
  sch = "http" \/ sch = "https" -> ~ In ":"%char rest ->
  Str.replace "http://" "" (Str.replace "https://" "" (sch ++ "://" ++ rest))
  = rest.
Proof.
  intros Hs Hc.
  assert (A1 : Str.contains "https://" rest = false).
  { apply (contains_absent _ ":"%char); [| done]. simpl. auto 10. }
  assert (A2 : Str.contains "http://" rest = false).
  { apply (contains_absent _ ":"%char); [| done]. simpl. auto 10. }
  unfold Str.replace. destruct Hs as [-> | ->].
  - assert (Str.contains "https://" ("http" ++ "://" ++ rest) = false) as B.
    { cbn [app].
      do 5 (rewrite contains_cons;
            cbn [Str.startswith Str.eqb Ascii.eqb Bool.eqb andb orb]).
      apply (contains_absent _ ":"%char); [simpl; auto 10 |].
      apply not_In_cons; [done |]. apply not_In_cons; [done |]. exact Hc. }
    rewrite (replace_go_absent _ _ _ B).
    change ("http" ++ "://" ++ rest) with ("http://" ++ rest).
    rewrite replace_go_prefix by done. by rewrite (replace_go_absent _ _ _ A2).
  - change ("https" ++ "://" ++ rest) with ("https://" ++ rest).
    rewrite replace_go_prefix by done. rewrite (replace_go_absent _ _ _ A1).
    change ("" ++ rest) with rest. by rewrite (replace_go_absent _ _ _ A2).
Qed.

(** X19. The normalizer looks for [github.com/] in the whole URL, not for
    the host [github.com]: for a well-formed http or https URL whose host
    ends with [github.com], whatever comes before it (a subdomain, or the
    rest of another name), the result is the raw base for the path after
    the host, the same as for [https://github.com/] with that path. *)
Theorem build_raw_base_host_suffix sch x p :
  sch = "http" \/ sch = "https" ->
  forallb host_char x = true -> forallb plain_char p = true ->
  Str.startswith "/" p = false ->
  Str.contains "raw.githubusercontent.com" (x ++ "github.com/" ++ p) = false ->
  _build_raw_base (sch ++ "://" ++ x ++ "github.com/" ++ p)
  = _build_raw_base ("https://github.com/" ++ p)
  /\ _build_raw_base ("https://github.com/" ++ p)
     = Ok (raw_base_of (bare_repo_path (split_tree p).1) (split_tree p).2).
Proof.
  intros Hs Hx Hp Hsl Hraw.
  assert (Hgit : _build_raw_base ("https://github.com/" ++ p)
                 = Ok (raw_base_of (bare_repo_path (split_tree p).1)
                         (split_tree p).2)).
  { assert (Hin : github_input "" WithHttps p None None "").
    { split; try done.
      - by apply plain_is_path.
      - destruct (Str.contains "raw.githubusercontent.com" p) eqn:E; [| done].
        apply (contains_suffix _ (x ++ "github.com/")) in E.
        rewrite <- app_assoc in E. by rewrite Hraw in E.
      - intros _ c Hc. apply (plain_not_space p c Hp).
        apply last_Some in Hc as [l' ->]. apply in_app_iff. right. by left. }
    pose proof (build_raw_base_github "" WithHttps p None None "" Hin) as H.
    unfold github_url, prefix_text in H.
    change (url_tail None None) with (@nil ascii) in H.
    rewrite !app_nil_r in H. exact H. }
  split; [| exact Hgit]. rewrite Hgit.
  set (host := x ++ "github.com").
  assert (Hhost : forallb host_char host = true)
    by (subst host; by rewrite forallb_app, Hx).
  assert (Hne : host <> []) by (subst host; by destruct x).
  assert (Hpath : path_ok ("/" ++ p)) by (split; [by simpl | done]).
  assert (Hurl : sch ++ "://" ++ x ++ "github.com/" ++ p
                 = sch ++ "://" ++ host ++ ("/" ++ p) ++ url_tail None None).
  { subst host. change (url_tail None None) with (@nil ascii).
    rewrite app_nil_r, <- (app_assoc x). done. }
  assert (Hclean : sch ++ "://" ++ host ++ "/" ++ p
                   = (sch ++ "://") ++ x ++ "github.com/" ++ p).
  { subst host. rewrite <- (app_assoc x), <- (app_assoc sch). done. }
  assert (Hslash : ~ In "/"%char x).
  { apply (not_In_by _ _ _ Hx). done. }
  assert (Hcolon : ~ In ":"%char (x ++ "github.com/" ++ p)).
  { apply not_In_app; [apply (not_In_by _ _ _ Hx); done |].
    by apply no_colon_after_host, plain_is_path. }
  unfold _build_raw_base.
  assert (Hn : _normalize_repository_url (sch ++ "://" ++ x ++ "github.com/" ++ p)
               = sch ++ "://" ++ x ++ "github.com/" ++ p).
  { unfold _normalize_repository_url.
    assert (Hns : forall c, In c (sch ++ "://" ++ x ++ "github.com/" ++ p) ->
                            Str.isspace c = false).
    { intros c Hc. destruct (Str.isspace c) eqn:E; [| done]. exfalso.
      revert Hc. rewrite Hurl. by apply url_no_space. }
    rewrite strip_fixed.
    - assert (Str.nonempty (sch ++ "://" ++ x ++ "github.com/" ++ p) = true)
        as -> by (by destruct Hs as [-> | ->]).
      cbn [negb].
      assert (Str.contains "://" (sch ++ "://" ++ x ++ "github.com/" ++ p) = true)
        as -> by apply (contains_here "://" sch).
      done.
    - intros c Hc. apply Hns.
      destruct (sch ++ "://" ++ x ++ "github.com/" ++ p); [done |].
      injection Hc as ->. by left.
    - intros c Hc. apply Hns. apply last_Some in Hc as [l' ->].
      apply in_app_iff. right. by left. }
  rewrite Hn, Hurl, strip_query_and_fragment_http by done.
  cbn [mbind result_bind]. rewrite Hclean.
  assert (Str.contains "raw.githubusercontent.com"
            ((sch ++ "://") ++ x ++ "github.com/" ++ p) = false) as ->.
  { etrans; [| exact Hraw].
    apply (contains_skip "r"%char "aw.githubusercontent.com").
    apply (not_In_by (fun c => negb (Str.eqb c "r"))); [| done].
    by destruct Hs as [-> | ->]. }
  assert (Str.contains "github.com/"
            ((sch ++ "://") ++ x ++ "github.com/" ++ p) = true) as ->.
  { rewrite app_assoc. apply contains_here. }
  f_equal. unfold _github_raw_base. rewrite <- app_assoc.
  rewrite replace_schemes_rest by done.
  assert (Str.find "github.com/" (x ++ "github.com/" ++ p)
          = Z.of_nat (length x)) as ->.
  { unfold Str.find.
    assert (Str.index_from "github.com/" (x ++ "github.com/" ++ p) 0
            = Some (0 + length x)%nat) as ->; [| done].
    apply (index_from_after "github.com" "/"%char x p 0 Hslash).
    by apply (not_In_by (fun c => negb (Str.eqb c "/"))). }
  destruct (Z.leb_spec 0 (Z.of_nat (length x))); [| lia].
  rewrite <- Nat2Z.inj_add, from_nat, drop_app_add.
  change (drop (length "github.com/") ("github.com/" ++ p)) with p.
  rewrite (lstrip_head "/" p).
  2:{ intros c Hc. destruct p as [|d p]; [done |]. injection Hc as ->.
      simpl in Hsl. rewrite andb_true_r in Hsl. simpl.
      rewrite orb_false_r. unfold Str.eqb in *.
      by rewrite Ascii.eqb_sym. }
  destruct (split_tree p) as [r b]. by rewrite trim_repo_path_bare.
Qed.

(** ** A manifest that passes *)

Lemma check_tags_accepts label tags st :
  check_tags label tags st = st <-> ~ tags_rejected tags.
Proof.
  unfold check_tags. destruct tags as [| | |t| |];
    try (split; [by intros H%add_error_neq | by intros []]).
  destruct (Str.nonempty (Str.strip t)) eqn:E1; cbn [negb].
  2:{ split; [by intros H%add_error_neq |]. intros []. left.
      by apply nonempty_false. }
  destruct (Str.contains " " t) eqn:E2.
  { split; [by intros H%add_error_neq |]. intros []. right. left.
    by apply contains_char. }
  destruct (invalid_tags t) as [|seg bad] eqn:E3.
  - split; [| done]. intros _ [H | [H | (seg & Hs & Hv)]].
    + by rewrite H in E1.
    + apply contains_char in H. congruence.
    + assert (In seg (invalid_tags t)) by (by apply invalid_tags_spec).
      by rewrite E3 in H.
  - split; [by intros H%add_error_neq |]. intros []. right. right.
    exists seg. apply invalid_tags_spec. rewrite E3. by left.
Qed.

Lemma only_errors_length st st' :
  only_errors_added st st' -> (length (errors st) <= length (errors st'))%nat.
Proof. intros (_ & _ & _ & _ & extra & ->). rewrite length_app. lia. Qed.

Lemma only_errors_same st st' :
  only_errors_added st st' ->
  (length (errors st') <= length (errors st))%nat -> st' = st.
Proof.
  intros (H1 & H2 & H3 & H4 & extra & H5) Hl.
  rewrite H5, length_app in Hl.
  destruct extra; [| simpl in Hl; lia]. rewrite app_nil_r in H5.
  destruct st, st'. simpl in *. by subst.
Qed.

(** X20. The checks of the six fields of a manifest work together as
    follows. When the check step returns, it has added no error exactly
    when every field passes its own check: thumbnail, images, repository
    URL, tags, title and description. And when every field passes, the
    step returns, with no error added. *)
Theorem manifest_passes w c label p d package_id st :
  (forall st',
     check_and_transform w c label p (JObj d) package_id st = Ok st' ->
     (errors st' = errors st <-> fields_ok w c (removelast p) d))
  /\ (fields_ok w c (removelast p) d ->
      exists st',
        check_and_transform w c label p (JObj d) package_id st = Ok st'
        /\ errors st' = errors st).
Proof.
  split.
  - intros st'. unfold check_and_transform.
    set (s1 := check_thumbnail _ _ _ _ st).
    set (s2 := check_images _ _ _ _ s1).
    destruct (check_repository_url w label _ s2) as [s3|] eqn:E3; [| done].
    cbn [mbind result_bind].
    set (s4 := check_tags _ _ s3).
    destruct (check_b64 "titleB64" _ _ _ _ s4) as [s5|] eqn:E5; [| done].
    cbn [mbind result_bind].
    destruct (check_b64 "descriptionB64" _ _ _ _ s5) as [s6|] eqn:E6; [| done].
    cbn [mbind result_bind]. intros [= <-]. cbn [errors add_manifest].
    pose proof (check_thumbnail_errors w label (removelast p)
                  (dict_get "thumbnail" d) st) as F1.
    pose proof (check_images_errors w label (removelast p)
                  (dict_get "images" d) s1) as F2.
    pose proof (check_repository_url_errors _ _ _ _ _ E3) as F3.
    pose proof (check_tags_errors label (dict_get "tags" d) s3) as F4.
    pose proof (check_b64_errors _ _ _ _ _ _ _ E5) as F5.
    pose proof (check_b64_errors _ _ _ _ _ _ _ E6) as F6.
    fold s1 in F1. fold s2 in F2. fold s4 in F4, F5.
    split.
    + intros He.
      pose proof (only_errors_length _ _ F1). pose proof (only_errors_length _ _ F2).
      pose proof (only_errors_length _ _ F3). pose proof (only_errors_length _ _ F4).
      pose proof (only_errors_length _ _ F5). pose proof (only_errors_length _ _ F6).
      apply (f_equal length) in He.
      assert (Q1 : s1 = st) by (apply only_errors_same; [done | lia]).
      assert (Q2 : s2 = s1) by (apply only_errors_same; [done | lia]).
      assert (Q3 : s3 = s2) by (apply only_errors_same; [done | lia]).
      assert (Q4 : s4 = s3) by (apply only_errors_same; [done | lia]).
      assert (Q5 : s5 = s4) by (apply only_errors_same; [done | lia]).
      assert (Q6 : s6 = s5) by (apply only_errors_same; [done | lia]).
      rewrite Q6 in E6. rewrite Q5 in E5. rewrite Q3 in E3.
      split; [by apply (check_thumbnail_accepts w label _ _ st) |].
      split; [by apply (check_images_accepts w label _ _ s1) |].
      split; [by apply (check_repository_url_accepts w label _ s2) |].
      split; [by apply (check_tags_accepts label _ s3) |].
      split.
      * by apply (proj1 (check_b64_cases "titleB64" "title" _ label _ s4)).
      * by apply (proj1 (check_b64_cases "descriptionB64" "description" _
                           label _ s5)).
    + intros (K1 & K2 & K3 & K4 & K5 & K6).
      apply (check_thumbnail_accepts w label _ _ st) in K1. fold s1 in K1.
      apply (check_images_accepts w label _ _ s1) in K2. fold s2 in K2.
      apply (check_repository_url_accepts w label _ s2) in K3.
      rewrite K3 in E3. injection E3 as <-.
      apply (check_tags_accepts label _ s2) in K4. fold s4 in K4.
      apply (proj1 (check_b64_cases "titleB64" "title" _ label _ s4)) in K5.
      rewrite K5 in E5. injection E5 as <-.
      apply (proj1 (check_b64_cases "descriptionB64" "description" _
                      label _ s4)) in K6.
      rewrite K6 in E6. injection E6 as <-.
      by rewrite K4, K2, K1.
  - intros (K1 & K2 & K3 & K4 & K5 & K6). eexists.
    unfold check_and_transform.
    rewrite (proj2 (check_thumbnail_accepts w label _ _ st) K1).
    rewrite (proj2 (check_images_accepts w label _ _ st) K2).
    rewrite (proj2 (check_repository_url_accepts w label _ st) K3).
    cbn [mbind result_bind].
    rewrite (proj2 (check_tags_accepts label _ st) K4).
    rewrite (proj2 (proj1 (check_b64_cases "titleB64" "title" _ label _ st)) K5).
    cbn [mbind result_bind].
    rewrite (proj2 (proj1 (check_b64_cases "descriptionB64" "description" _
                             label _ st)) K6).
    cbn [mbind result_bind]. split; [done | done].
Qed.

(** ** Runs that an exception ends, and runs that none can end *)

(** X21. An exception that escapes the turn of one manifest ends the
    run there, with a traceback: the run prints nothing, not even the
    errors it has collected from the manifests before, and writes
    nothing; the identity files are those written up to that turn. *)
Theorem exception_ends_run w c config before p after e :
  sorted (discovered w) = before ++ p :: after ->
  _get_config (config_file w) = ConfigOk config ->
  load_run_config config = Ok c ->
  let st1 := (scan w c before (initial_state w)).1 in
  (scan w c before (initial_state w)).2 = None ->
  (process_manifest w c st1 p).2 = Some e ->
  main w = crashed e (id_files (process_manifest w c st1 p).1).
Proof.
  intros Hd Hg Hc st1 Hs Hp. unfold main, scan_all. rewrite Hd, Hg, Hc.
  destruct (before ++ p :: after) eqn:E; [by destruct before |].
  rewrite <- E.
  rewrite (scan_app w c before (p :: after) (initial_state w) st1)
    by (subst st1; by destruct (scan w c before (initial_state w)) as [? []]).
  simpl. destruct (process_manifest w c st1 p) as [st2 [e'|]]; [| done].
  simpl in Hp. by injection Hp as ->.
Qed.








(** ** Messages that name their manifest *)

Lemma mentions_here label b : mentions label (label ++ b).
Proof. by exists [], b. Qed.

Lemma mentions_app label x msg : mentions label msg -> mentions label (x ++ msg).
Proof. intros (a & b & ->). exists (x ++ a), b. by rewrite <- app_assoc. Qed.

Lemma labelled_refl label st : labelled_errors_added label st st.
Proof. exists []. split; [by rewrite app_nil_r | constructor]. Qed.

Lemma labelled_trans label st1 st2 st3 :
  labelled_errors_added label st1 st2 -> labelled_errors_added label st2 st3 ->
  labelled_errors_added label st1 st3.
Proof.
  intros (e1 & H1 & T1) (e2 & H2 & T2). exists (e1 ++ e2).
  split; [by rewrite H2, H1, app_assoc | by apply Forall_app].
Qed.

Lemma labelled_add label st msg :
  mentions label msg -> labelled_errors_added label st (add_error st msg).
Proof. intros H. exists [msg]. split; [done |]. by repeat constructor. Qed.

Lemma mentions_cons label c msg : mentions label msg -> mentions label (c :: msg).
Proof. apply (mentions_app label [c]). Qed.

Ltac mentions_tac :=
  unfold in_label;
  repeat first [apply mentions_here | apply mentions_app | apply mentions_cons].

Ltac labelled_tac :=
  first [ apply labelled_refl | apply labelled_add; mentions_tac ].

Lemma check_thumbnail_labelled w label dir v st :
  labelled_errors_added label st (check_thumbnail w label dir v st).
Proof.
  unfold check_thumbnail. destruct v; try labelled_tac.
  destruct (negb _); [labelled_tac |]. destruct (negb _); labelled_tac.
Qed.

Lemma check_image_labelled w label dir st v :
  labelled_errors_added label st (check_image w label dir st v).
Proof.
  unfold check_image. destruct v; try labelled_tac.
  destruct (negb _); [labelled_tac |]. destruct (negb _); labelled_tac.
Qed.

Lemma check_images_labelled w label dir v st :
  labelled_errors_added label st (check_images w label dir v st).
Proof.
  unfold check_images. destruct v as [| | | |l|]; try labelled_tac.
  destruct l as [|x l]; [labelled_tac |].
  set (st0 := if (8 <? _)%nat then _ else st).
  assert (H0 : labelled_errors_added label st st0)
    by (subst st0; destruct (8 <? _)%nat; labelled_tac).
  clearbody st0. generalize (x :: l). clear x l. intros l.
  revert st0 H0. induction l as [|y l IH]; intros st0 H0; simpl; [done |].
  apply IH. eapply labelled_trans; [done | apply check_image_labelled].
Qed.

Lemma check_repository_url_labelled w label v st st' :
  check_repository_url w label v st = Ok st' ->
  labelled_errors_added label st st'.
Proof.
  unfold check_repository_url. destruct v as [| | |url| |];
    try (intros [= <-]; labelled_tac).
  destruct (negb (Str.nonempty _)); [intros [= <-]; labelled_tac |].
  destruct (urlparse url) as [r|e]; [| done]. cbn [mbind result_bind].
  repeat (destruct (negb _); [intros [= <-]; labelled_tac |]).
  intros [= <-]. labelled_tac.
Qed.

Lemma check_tags_labelled label v st :
  labelled_errors_added label st (check_tags label v st).
Proof.
  unfold check_tags. destruct v as [| | |t| |]; try labelled_tac.
  destruct (negb _); [labelled_tac |].
  destruct (Str.contains " " t); [labelled_tac |].
  destruct (invalid_tags t); labelled_tac.
Qed.

Lemma check_b64_labelled field noun limit label v st st' :
  check_b64 field noun limit label v st = Ok st' ->
  labelled_errors_added label st st'.
Proof.
  unfold check_b64. destruct v as [| | |text| |];
    try (intros [= <-]; labelled_tac).
  destruct (negb _); [intros [= <-]; labelled_tac |].
  destruct (b64_text_length text) as [len|]; [| intros [= <-]; labelled_tac].
  destruct (int_gt len limit) as [[|]|]; try done; intros [= <-]; labelled_tac.
Qed.

Lemma resolve_identity_labelled w label dir st :
  labelled_errors_added label st (resolve_identity w label dir st).2.
Proof.
  unfold resolve_identity.
  destruct (id_files st !! dir) as [[content|text]|]; cbn [snd];
    try labelled_tac.
  destruct (id_write_error w dir) as [t|]; cbn [snd].
  - eexists. split; [done |]. repeat constructor. mentions_tac.
  - exists []. split; [by rewrite app_nil_r | constructor].
Qed.

Lemma register_identity_labelled label package_id st :
  labelled_errors_added label st (register_identity label package_id st).
Proof.
  unfold register_identity. destruct package_id as [s|]; [| labelled_tac].
  destruct (Str.nonempty s); [| labelled_tac].
  destruct (bool_decide _); simpl.
  - eexists. split; [done |]. repeat constructor. mentions_tac.
  - exists []. split; [by rewrite app_nil_r | constructor].
Qed.

Lemma check_and_transform_labelled w c label p manifest package_id st st' :
  check_and_transform w c label p manifest package_id st = Ok st' ->
  labelled_errors_added label st st'.
Proof.
  unfold check_and_transform. destruct manifest as [| | | | |d]; try done.
  set (st1 := check_thumbnail _ _ _ _ st).
  set (st2 := check_images _ _ _ _ st1).
  destruct (check_repository_url w label _ st2) as [st3|] eqn:E3; [| done].
  cbn [mbind result_bind].
  set (st4 := check_tags _ _ st3).
  destruct (check_b64 "titleB64" _ _ _ _ st4) as [st5|] eqn:E5; [| done].
  cbn [mbind result_bind].
  destruct (check_b64 "descriptionB64" _ _ _ _ st5) as [st6|] eqn:E6; [| done].
  cbn [mbind result_bind]. intros [= <-].
  apply check_repository_url_labelled in E3.
  apply check_b64_labelled in E5. apply check_b64_labelled in E6.
  assert (H : labelled_errors_added label st st6).
  { eapply labelled_trans; [apply check_thumbnail_labelled |].
    eapply labelled_trans; [apply check_images_labelled |].
    eapply labelled_trans; [apply E3 |].
    eapply labelled_trans; [apply check_tags_labelled |].
    eapply labelled_trans; [apply E5 | apply E6]. }
  destruct H as (extra & H & T). by exists extra.
Qed.

Lemma process_manifest_labelled w c st p st' :
  process_manifest w c st p = (st', None) ->
  labelled_errors_added (label_of p) st st'.
Proof.
  unfold process_manifest. fold (label_of p).
  destruct (manifest_file w p) as [manifest|text l col|text].
  - pose proof (resolve_identity_labelled w (label_of p) (removelast p) st)
      as H1.
    destruct (resolve_identity _ _ _ st) as [package_id st1]. cbn [snd] in H1.
    destruct (check_and_transform _ _ _ _ _ _ _) as [st2|] eqn:E; [| done].
    intros [= <-]. apply check_and_transform_labelled in E.
    eapply labelled_trans; [apply H1 |].
    eapply labelled_trans; [apply register_identity_labelled | apply E].
  - intros [= <-]. labelled_tac.
  - intros [= <-]. labelled_tac.
Qed.

Lemma scan_names_manifests w c paths st st' :
  scan w c paths st = (st', None) ->
  exists extra,
    errors st' = errors st ++ extra /\ Forall (names_manifest paths) extra.
Proof.
  revert st. induction paths as [|p paths IH]; intros st; simpl.
  - intros [= <-]. exists []. split; [by rewrite app_nil_r | constructor].
  - destruct (process_manifest w c st p) as [st1 [e|]] eqn:E; [done |].
    intros H. apply process_manifest_labelled in E as (e1 & H1 & T1).
    apply IH in H as (e2 & H2 & T2). exists (e1 ++ e2).
    split; [by rewrite H2, H1, app_assoc |]. apply Forall_app. split.
    + eapply Forall_impl; [exact T1 |]. intros msg Hm. exists p.
      split; [by left | done].
    + eapply Forall_impl; [exact T2 |]. intros msg (q & Hq & Hm). exists q.
      split; [by right | done].
Qed.

(** X23. When a run with a manifest and a valid configuration exits with
    status 1, every line it has printed holds the path of a manifest that
    was found, in the form [packages/<path of the manifest>]: each error
    of the scan names the manifest it is about. *)
Theorem error_lines_name_manifests w config :
  discovered w <> [] ->
  _get_config (config_file w) = ConfigOk config ->
  status (main w) = SysExit 1 ->
  Forall (names_manifest (discovered w)) (printed (main w)).
Proof.
  intros Hne Hc. unfold main. rewrite (scan_all_started w Hne), Hc.
  destruct (load_run_config config) as [c|]; [| done].
  destruct (scan w c (sorted (discovered w)) (initial_state w))
    as [st [e|]] eqn:E; [done |].
  unfold finish. destruct (errors st) as [|msg rest] eqn:Ee; [done |].
  intros _. cbn [printed]. rewrite <- Ee.
  apply scan_names_manifests in E as (extra & H & T). cbn [errors initial_state] in H.
  rewrite H. simpl. eapply Forall_impl; [exact T |].
  intros line (p & Hp & Hm). exists p. split; [| done].
  eapply Permutation_in; [apply sorted_perm | done].
Qed.

End Script.

(** * Concrete runs *)

(** ** C2 *)

Lemma sample_github_input :
  github_input " " WithHttps "o/r.git/tree/dev/sub/dir" (Some "x=1") (Some "top") "".
Proof. by split. Defined.

(** The amended C2 at [ https://github.com/o/r.git/tree/dev/sub/dir?x=1#top]. *)
Lemma build_raw_base_github_url_witness :
  github_input " " WithHttps "o/r.git/tree/dev/sub/dir" (Some "x=1") (Some "top") ""
  /\ _build_raw_base accept_brackets
       " https://github.com/o/r.git/tree/dev/sub/dir?x=1#top"
     = Ok "https://raw.githubusercontent.com/o/r/refs/heads/dev/".
Proof.
  split; [exact sample_github_input |].
  refine (proj2 (proj2 (proj2 (build_raw_base_github_url accept_brackets
            " " WithHttps "o/r.git/tree/dev/sub/dir" (Some "x=1") (Some "top") ""
            sample_github_input)) "o" "r" _ _ _ _)
            ".git" "dev" "/sub/dir" _ _ _ _).
  all: try (split; [discriminate | by vm_compute; intuition discriminate]).
  all: try discriminate.
  all: try (vm_compute; reflexivity).
  all: try exact I.
  all: simpl; intuition discriminate.
Defined.

(** C2 as stated fails: the host is [github.com] and the pair after it is
    [o/r], yet the result keeps the third segment in the repository
    path. *)
Lemma build_raw_base_keeps_extra_segments :
  (netloc <$> urlparse_result accept_brackets "https://github.com/o/r/issues")
    = Some "github.com"
  /\ owner_and_repo "o/r/issues" = "o/r"
  /\ _build_raw_base accept_brackets "https://github.com/o/r/issues"
     = Ok "https://raw.githubusercontent.com/o/r/issues/refs/heads/main/"
  /\ _build_raw_base accept_brackets "https://github.com/o/r/issues"
     <> Ok (raw_base_of (owner_and_repo "o/r/issues") "main").
Proof. vm_compute. repeat split. discriminate. Qed.

(** ** C8 *)

(** The amended C8 at the blank input. *)
Lemma build_raw_base_total_without_brackets_witness :
  bracket_free "   " /\ exists s, _build_raw_base accept_brackets "   " = Ok s.
Proof.
  assert (H : bracket_free "   ") by (split; simpl; intuition discriminate).
  split; [exact H |].
  exact (proj1 (build_raw_base_total_without_brackets accept_brackets "   ") H).
Defined.

(** C8 as stated fails: on [http://[] the normalizer raises. *)
Lemma build_raw_base_raises_on_open_bracket :
  _build_raw_base accept_brackets "http://["
  = Raise (ValueError "Invalid IPv6 URL")
  /\ ~ exists s, _build_raw_base accept_brackets "http://[" = Ok s.
Proof. split; [by vm_compute |]. intros [s H]. by vm_compute in H. Qed.

(** ** The claims on the sample worlds *)

Lemma scanned_state_of r otherwise :
  is_scanned r = true -> r = Scanned (state_of r otherwise).
Proof. by destruct r. Qed.

(** C1 on a run with one rejected manifest. *)
Lemma main_all_or_nothing_witness :
  is_scanned (scan_all accept_brackets sample_b64_length tag_error_world) = true
  /\ printed (main accept_brackets sample_b64_length tag_error_world)
     = ["ERROR: Invalid tag(s) ([" ++ [quote] ++ "1b" ++ [quote]
          ++ "]) in packages/alice/pkgX/manifest.json."]
  /\ status (main accept_brackets sample_b64_length tag_error_world) = SysExit 1
  /\ written (main accept_brackets sample_b64_length tag_error_world) = [].
Proof.
  assert (H : is_scanned (scan_all accept_brackets sample_b64_length
                            tag_error_world) = true)
    by (vm_compute; reflexivity).
  split; [exact H |].
  pose proof (scanned_state_of _ (initial_state tag_error_world) H) as E.
  destruct (main_all_or_nothing accept_brackets sample_b64_length
              tag_error_world) as [Hall _].
  destruct (Hall _ E) as [H1 _].
  assert (Hne : errors (state_of (scan_all accept_brackets sample_b64_length
                                    tag_error_world)
                          (initial_state tag_error_world)) <> [])
    by (vm_compute; discriminate).
  destruct (H1 Hne) as (P & S & W).
  split; [| split; [exact S | exact W]].
  rewrite P. vm_compute. reflexivity.
Defined.

(** C10 on the good world, whose manifests are found in the opposite
    order. *)
Lemma catalog_in_path_order_witness :
  In (DatabaseJson (payload_of (main accept_brackets sample_b64_length good_world)))
    (written (main accept_brackets sample_b64_length good_world))
  /\ sorted (discovered good_world) = [alice_manifest; bob_manifest]
  /\ exists c records,
       payload_of (main accept_brackets sample_b64_length good_world)
       = JObj [("packages", JArr records)]
       /\ Forall2 (loaded_as good_world c)
            (sorted (discovered good_world)) records.
Proof.
  assert (H : In (DatabaseJson (payload_of (main accept_brackets
                                              sample_b64_length good_world)))
                (written (main accept_brackets sample_b64_length good_world)))
    by (vm_compute; left; reflexivity).
  split; [exact H |]. split; [vm_compute; reflexivity |].
  exact (proj1 (catalog_in_path_order accept_brackets sample_b64_length
                  good_world _ H)).
Defined.

(** C4 as stated fails: where the identity file is absent and cannot be
    written, the step run twice yields two identities. *)
Lemma identity_changes_when_unwritable :
  id_files (initial_state unwritable_world) !! ["alice"; "pkgX"] = None
  /\ (resolve_identity unwritable_world "packages/alice/pkgX/manifest.json"
        ["alice"; "pkgX"] (initial_state unwritable_world)).1
     = Some "00000000-0000-4000-8000-000000000000"
  /\ (resolve_identity unwritable_world "packages/alice/pkgX/manifest.json"
        ["alice"; "pkgX"]
        (resolve_identity unwritable_world "packages/alice/pkgX/manifest.json"
           ["alice"; "pkgX"] (initial_state unwritable_world)).2).1
     = Some "00000000-0000-4000-8000-000000000001"
  /\ (resolve_identity unwritable_world "packages/alice/pkgX/manifest.json"
        ["alice"; "pkgX"] (initial_state unwritable_world)).1
     <> (resolve_identity unwritable_world "packages/alice/pkgX/manifest.json"
           ["alice"; "pkgX"]
           (resolve_identity unwritable_world
              "packages/alice/pkgX/manifest.json"
              ["alice"; "pkgX"] (initial_state unwritable_world)).2).1.
Proof.
  repeat split; try (vm_compute; reflexivity). vm_compute. discriminate.
Qed.

(** C6 as stated fails: a blank thumbnail is not rewritten, and the name
    of an image is trimmed of white space before its leading slashes
    go, so that the URL is not the claimed one. *)
Lemma updated_manifest_trims_names :
  dict_get "thumbnail"
    (updated_manifest [("thumbnail", JStr ""); ("images", JArr [JStr " a.png"])]
       (Some "id") "alice" "alice/pkgX" "https://base/")
  = JStr ""
  /\ dict_get "images"
       (updated_manifest [("thumbnail", JStr ""); ("images", JArr [JStr " a.png"])]
          (Some "id") "alice" "alice/pkgX" "https://base/")
     = JArr [JStr "https://base/packages/alice/pkgX/a.png"]
  /\ claimed_media_url "https://base/" "/alice/pkgX" " a.png"
     = "https://base/packages/alice/pkgX/ a.png"
  /\ claimed_media_url "https://base/" "/alice/pkgX" ""
     = "https://base/packages/alice/pkgX/"
  /\ dict_get "images"
       (updated_manifest [("thumbnail", JStr ""); ("images", JArr [JStr " a.png"])]
          (Some "id") "alice" "alice/pkgX" "https://base/")
     <> JArr [JStr (claimed_media_url "https://base/" "/alice/pkgX" " a.png")]
  /\ dict_get "thumbnail"
       (updated_manifest [("thumbnail", JStr ""); ("images", JArr [JStr " a.png"])]
          (Some "id") "alice" "alice/pkgX" "https://base/")
     <> JStr (claimed_media_url "https://base/" "/alice/pkgX" "").
Proof.
  repeat split; try (vm_compute; reflexivity); vm_compute; discriminate.
Qed.

(** C9 as stated fails: the first manifest of [tag_error_world] does not
    pass its checks, and its record is made all the same. *)
Lemma record_made_of_rejected_manifest :
  is_scanned (scan_all accept_brackets sample_b64_length tag_error_world) = true
  /\ errors (state_of (scan_all accept_brackets sample_b64_length tag_error_world)
               (initial_state tag_error_world))
     = ["ERROR: Invalid tag(s) ([" ++ [quote] ++ "1b" ++ [quote]
          ++ "]) in packages/alice/pkgX/manifest.json."]
  /\ map record_id
       (manifests (state_of (scan_all accept_brackets sample_b64_length
                               tag_error_world)
                     (initial_state tag_error_world)))
     = [JStr "id-of-alice"; JStr "00000000-0000-4000-8000-000000000000"].
Proof. repeat split; vm_compute; reflexivity. Qed.

(** C3 on [bracket_world]: the [repositoryURL] of the second manifest is
    [http://[]; the tag error of the first manifest is never printed, and
    the tags, the title and the description of the second are never
    checked. *)
Lemma repository_url_exception_halts_scan_witness :
  manifest_file bracket_world bob_manifest
  = ReadOk (JObj [("thumbnail", JStr "t.png");
                  ("images", JArr [JStr "/b.png"; JStr "c.png"]);
                  ("repositoryURL", JStr "http://[");
                  ("tags", JStr "tools,dev_kit");
                  ("titleB64", JStr "WQ==");
                  ("descriptionB64", JStr "WQ==");
                  ("mediaFolder", JStr "media/bob")])
  /\ urlparse accept_brackets "http://[" = Raise (ValueError "Invalid IPv6 URL")
  /\ printed (main accept_brackets sample_b64_length bracket_world) = []
  /\ status (main accept_brackets sample_b64_length bracket_world)
     = Traceback (ValueError "Invalid IPv6 URL")
  /\ written (main accept_brackets sample_b64_length bracket_world) = [].
Proof.
  assert (H1 : manifest_file bracket_world bob_manifest
               = ReadOk (JObj [("thumbnail", JStr "t.png");
                               ("images", JArr [JStr "/b.png"; JStr "c.png"]);
                               ("repositoryURL", JStr "http://[");
                               ("tags", JStr "tools,dev_kit");
                               ("titleB64", JStr "WQ==");
                               ("descriptionB64", JStr "WQ==");
                               ("mediaFolder", JStr "media/bob")]))
    by (vm_compute; reflexivity).
  assert (H2 : urlparse accept_brackets "http://["
               = Raise (ValueError "Invalid IPv6 URL"))
    by (vm_compute; reflexivity).
  split; [exact H1 |]. split; [exact H2 |].
  apply (proj2 (proj2 (repository_url_exception_halts_scan accept_brackets
                         sample_b64_length bracket_world sample_run_config
                         bob_manifest _ "http://[" _ [] H1 eq_refl
                         ltac:(vm_compute; discriminate) H2))
           sample_config [alice_manifest]).
  - vm_compute; reflexivity.
  - vm_compute; reflexivity.
  - vm_compute; reflexivity.
  - vm_compute; reflexivity.
Defined.

(** ** Further runs *)

(** X4 with a [config.json] that cannot be opened. *)
Lemma main_config_failure_witness :
  discovered unreadable_config_world <> []
  /\ main accept_brackets sample_b64_length unreadable_config_world
     = stopped unreadable_config_world
         ["ERROR: Failed to read config.json: [Errno 13] Permission denied"]
         (SysExit 1).
Proof.
  assert (H : discovered unreadable_config_world <> []) by done.
  split; [exact H |].
  apply (proj1 (main_config_failure accept_brackets sample_b64_length
                  unreadable_config_world H)).
  by left.
Defined.

(** X5 with the [url] [http://[]. *)
Lemma main_config_traceback_witness :
  discovered bracket_config_world <> []
  /\ main accept_brackets sample_b64_length bracket_config_world
     = stopped bracket_config_world [] (Traceback (ValueError "Invalid IPv6 URL")).
Proof.
  assert (H : discovered bracket_config_world <> []) by done.
  split; [exact H |].
  apply (proj2 (main_config_traceback accept_brackets sample_b64_length
                  bracket_config_world H)
           [("url", JStr "http://[")] "http://[").
  - reflexivity.
  - reflexivity.
  - by vm_compute.
  - by vm_compute.
Defined.

(** X7 with a title of eight characters. *)
Lemma default_limits_witness :
  load_run_config accept_brackets sample_config = Ok sample_run_config
  /\ check_b64 sample_b64_length "titleB64" "title"
       (title_max_length sample_run_config) "packages/alice/pkgX/manifest.json"
       (JStr "VGl0bGU=") (initial_state good_world)
     = Ok (initial_state good_world).
Proof.
  assert (H1 : load_run_config accept_brackets sample_config
               = Ok sample_run_config) by (vm_compute; reflexivity).
  assert (H2 : Str.strip "VGl0bGU=" <> []) by (vm_compute; discriminate).
  assert (H3 : sample_b64_length "VGl0bGU=" = Some 8) by (vm_compute; reflexivity).
  split; [exact H1 |].
  exact (proj1 (default_limits accept_brackets sample_b64_length
                  [("url", JStr "https://github.com/alice/catalog")]
                  sample_run_config "packages/alice/pkgX/manifest.json"
                  "VGl0bGU=" 8 (initial_state good_world) H1 H2 H3) eq_refl).
Defined.

(** X10 with a URL that has no scheme. *)
Lemma build_raw_base_ends_with_slash_witness :
  _build_raw_base accept_brackets "example.com/a/b.txt"
  = Ok "https://example.com/a/"
  /\ Str.endswith "/" "https://example.com/a/" = true.
Proof.
  assert (H : _build_raw_base accept_brackets "example.com/a/b.txt"
              = Ok "https://example.com/a/") by (vm_compute; reflexivity).
  split; [exact H |].
  exact (build_raw_base_ends_with_slash accept_brackets _ _ H).
Defined.

(** X12 with the raw URL of a file, a query and a leading space. *)
Lemma build_raw_base_directory_witness :
  directory_of "/o/r/main/README.md" "/o/r/main/"
  /\ _build_raw_base accept_brackets
       " https://raw.githubusercontent.com/o/r/main/README.md?x=1"
     = Ok "https://raw.githubusercontent.com/o/r/main/".
Proof.
  assert (Hfile : ~ In "/"%char "README.md")
    by (by apply (not_In_by (fun c => negb (Str.eqb c "/")))).
  assert (Hd : directory_of "/o/r/main/README.md" "/o/r/main/")
    by exact (directory_up "/o/r/main" "README.md" Hfile).
  split; [exact Hd |].
  apply (build_raw_base_directory accept_brackets " " "https"
           "raw.githubusercontent.com" "/o/r/main/README.md" "/o/r/main/"
           (Some "x=1") None "").
  - reflexivity.
  - reflexivity.
  - by right.
  - done.
  - reflexivity.
  - by split.
  - by split.
  - exact Hd.
  - left. by vm_compute.
Defined.

(** X16 with a host that merely ends with [github.com]. *)
Lemma repository_url_host_witness :
  Str.endswith "github.com" "notgithub.com" = true
  /\ check_repository_url accept_brackets good_world "packages/x/manifest.json"
       (JStr "https://notgithub.com/o/r") (initial_state good_world)
     = Ok (initial_state good_world).
Proof.
  split; [reflexivity |].
  apply (proj2 (proj1 (repository_url_host accept_brackets good_world
                         "packages/x/manifest.json" "https" "notgithub.com"
                         "/o/r" None None (initial_state good_world)
                         (or_intror eq_refl) eq_refl (conj eq_refl eq_refl)
                         (conj I I)))).
  split; reflexivity.
Defined.

(** X19 with a subdomain. *)
Lemma build_raw_base_host_suffix_witness :
  _build_raw_base accept_brackets "https://gist.github.com/o/r"
  = _build_raw_base accept_brackets "https://github.com/o/r"
  /\ _build_raw_base accept_brackets "https://github.com/o/r"
     = Ok "https://raw.githubusercontent.com/o/r/refs/heads/main/".
Proof.
  apply (build_raw_base_host_suffix accept_brackets "https" "gist." "o/r").
  - by right.
  - reflexivity.
  - reflexivity.
  - reflexivity.
  - by vm_compute.
Defined.

(** X21: the second manifest of [bracket_world] raises, and the error
    collected from the first is not printed. *)
Lemma exception_ends_run_witness :
  (scan accept_brackets sample_b64_length bracket_world sample_run_config
     [alice_manifest] (initial_state bracket_world)).2 = None
  /\ length (errors (scan accept_brackets sample_b64_length bracket_world
                       sample_run_config [alice_manifest]
                       (initial_state bracket_world)).1) = 1%nat
  /\ printed (main accept_brackets sample_b64_length bracket_world) = []
  /\ status (main accept_brackets sample_b64_length bracket_world)
     = Traceback (ValueError "Invalid IPv6 URL").
Proof.
  assert (H1 : sorted (discovered bracket_world)
               = [alice_manifest] ++ bob_manifest :: [])
    by (vm_compute; reflexivity).
  assert (H2 : _get_config (config_file bracket_world) = ConfigOk sample_config)
    by (vm_compute; reflexivity).
  assert (H3 : load_run_config accept_brackets sample_config
               = Ok sample_run_config) by (vm_compute; reflexivity).
  assert (H4 : (scan accept_brackets sample_b64_length bracket_world
                  sample_run_config [alice_manifest]
                  (initial_state bracket_world)).2 = None)
    by (vm_compute; reflexivity).
  assert (H5 : (process_manifest accept_brackets sample_b64_length bracket_world
                  sample_run_config
                  (scan accept_brackets sample_b64_length bracket_world
                     sample_run_config [alice_manifest]
                     (initial_state bracket_world)).1 bob_manifest).2
               = Some (ValueError "Invalid IPv6 URL"))
    by (vm_compute; reflexivity).
  pose proof (exception_ends_run accept_brackets sample_b64_length bracket_world
                sample_run_config sample_config [alice_manifest] bob_manifest
                [] _ H1 H2 H3 H4 H5) as Hm.
  split; [exact H4 |]. split; [vm_compute; reflexivity |]. split.
  - exact (f_equal printed Hm).
  - exact (f_equal status Hm).
Defined.



(** X23 with a bad tag in one manifest. *)
Lemma error_lines_name_manifests_witness :
  status (main accept_brackets sample_b64_length tag_error_world) = SysExit 1
  /\ Forall (names_manifest (discovered tag_error_world))
       (printed (main accept_brackets sample_b64_length tag_error_world)).
Proof.
  assert (H1 : discovered tag_error_world <> []) by done.
  assert (H2 : _get_config (config_file tag_error_world) = ConfigOk sample_config)
    by (vm_compute; reflexivity).
  assert (H3 : status (main accept_brackets sample_b64_length tag_error_world)
               = SysExit 1) by (vm_compute; reflexivity).
  split; [exact H3 |].
  exact (error_lines_name_manifests accept_brackets sample_b64_length
           tag_error_world sample_config H1 H2 H3).
Defined.
